(** * TypeDoc RAG extractor: a shallow embedding and its properties

    The TypeScript sources work on values of type [any] that come out of
    [JSON.parse]. The embedding therefore starts with the JavaScript value
    model that the code really runs on (module [JS]), then follows the source
    files one module each:

    - [TypeConverter]    : type-converter.ts   (typeToString and its handlers)
    - [CommentParser]    : comment-parser.ts
    - [SignatureBuilder] : signature-builder.ts
    - [Extractor]        : extractor.ts
    - [Processor]        : processor.ts        (processReflections, buildSearchIndex)
    - [Cli]              : cli.ts              (parseArgs)

    The unused [context] / [project] arguments that the source only passes
    along are dropped. A JavaScript function becomes a function into
    [result]: it returns a value or throws. The two recursive functions,
    typeToString and processReflections, take fuel; both are shown not to
    depend on it, and not to run out of it, once it exceeds the depth of
    their argument.

    The modules [TypeExpression], [IndexSpec], [SignatureSpec] and [TagSpec]
    write down what spec.md says about the data and the outputs; [Samples]
    holds the inputs of the examples. [Outcome], [CommentSpec], [TypeFormat],
    [SignatureShapes], [ExtractionShapes], [WalkSpec], [Forest] and
    [IndexShapes] hold the notions that the further properties of the code
    are stated with. The
    properties follow, one module of facts per source file. *)

From Stdlib Require Import String Ascii List ZArith Lia Bool Arith.
From Stdlib Require Import DecimalString.
Import ListNotations.

Set Warnings "-register-all".

Local Open Scope list_scope.
Local Open Scope string_scope.

(* ================================================================== *)
(** * JavaScript values as produced by JSON.parse *)
(* ================================================================== *)

Module JS.

(** JSON data plus [undefined]. Numbers are the integers (of the size that
    prints in plain decimal) and strings are made of ASCII characters; an
    object is its list of own properties in insertion order (a key is looked
    up from the front). *)
Inductive value : Type :=
| VUndef
| VNull
| VBool (b : bool)
| VNum (n : Z)
| VStr (s : string)
| VArr (elems : list value)
| VObj (props : list (string * value)).

(** Outcome of running a piece of code: a value or a thrown [TypeError].
    Two more outcomes belong to the model, not to JavaScript: the recursion
    budget ran out, or the input left the fragment of the language that the
    model covers (a number conversion of a non-number, the property order of
    an object with array-index keys). Whenever the model answers [Ok] or
    [Throw], so does the program. *)
Inductive result (A : Type) : Type :=
| Ok (a : A)
| Throw
| OutOfFuel
| Unmodelled.

Arguments Ok {A} a.
Arguments Throw {A}.
Arguments OutOfFuel {A}.
Arguments Unmodelled {A}.

Definition bind {A B} (m : result A) (k : A -> result B) : result B :=
  match m with
  | Ok a => k a
  | Throw => Throw
  | OutOfFuel => OutOfFuel
  | Unmodelled => Unmodelled
  end.

Notation "x <- m ;; k" := (bind m (fun x => k))
  (at level 61, m at next level, right associativity).
Notation "' pat <- m ;; k" := (bind m (fun x => match x with pat => k end))
  (at level 61, pat pattern, m at next level, right associativity).

(** The run did not stop for lack of fuel. *)
Definition halts {A} (r : result A) : Prop := r <> OutOfFuel.

Fixpoint mapM {A B} (f : A -> result B) (l : list A) : result (list B) :=
  match l with
  | [] => Ok []
  | x :: r => y <- f x ;; ys <- mapM f r ;; Ok (y :: ys)
  end.

(** ** Depth of a value, the measure all recursion in the sources follows *)

Definition list_max_depth (depth : value -> nat) : list value -> nat :=
  fix go (l : list value) : nat :=
    match l with
    | [] => 0
    | v :: r => Nat.max (depth v) (go r)
    end.

Definition props_max_depth (depth : value -> nat) : list (string * value) -> nat :=
  fix go (l : list (string * value)) : nat :=
    match l with
    | [] => 0
    | (_, v) :: r => Nat.max (depth v) (go r)
    end.

Fixpoint depth (v : value) : nat :=
  match v with
  | VArr l => S (list_max_depth depth l)
  | VObj ps => S (props_max_depth depth ps)
  | _ => 0
  end.

(** ** Primitive operations *)

(** ToBoolean *)
Definition truthy (v : value) : bool :=
  match v with
  | VUndef | VNull => false
  | VBool b => b
  | VNum n => negb (n =? 0)%Z
  | VStr s => negb (s =? EmptyString)
  | VArr _ | VObj _ => true
  end.

(** [a || b] *)
Definition or_else (a b : value) : value := if truthy a then a else b.

(** [v === "s"] *)
Definition is_str (v : value) (s : string) : bool :=
  match v with
  | VStr s' => s' =? s
  | _ => false
  end.

Fixpoint lookup (k : string) (ps : list (string * value)) : option value :=
  match ps with
  | [] => None
  | (k', v) :: r => if k' =? k then Some v else lookup k r
  end.

Definition has_key (k : string) (ps : list (string * value)) : bool :=
  match lookup k ps with Some _ => true | None => false end.

Definition Z_to_string (n : Z) : string := NilZero.string_of_int (Z.to_int n).

(** The own property [k] of an object, [undefined] when it has none *)
Definition field (k : string) (ps : list (string * value)) : value :=
  match lookup k ps with Some x => x | None => VUndef end.

(** Property read [v.k] for the static property names the sources use (none
    of them is a method of a built-in prototype): own properties of an
    object, [length] of an array or string, [undefined] otherwise; reading
    from [undefined] or [null] throws. *)
Definition get (k : string) (v : value) : result value :=
  match v with
  | VUndef | VNull => Throw
  | VObj ps => Ok (field k ps)
  | VArr l => Ok (if k =? "length" then VNum (Z.of_nat (List.length l)) else VUndef)
  | VStr s => Ok (if k =? "length" then VNum (Z.of_nat (String.length s)) else VUndef)
  | VBool _ | VNum _ => Ok VUndef
  end.

(** Optional chaining [v?.k] *)
Definition get_opt (k : string) (v : value) : result value :=
  match v with
  | VUndef | VNull => Ok VUndef
  | _ => get k v
  end.

(** The value of [v?.k], which never throws *)
Definition field_opt (k : string) (v : value) : value :=
  match get_opt k v with Ok x => x | _ => VUndef end.

Definition string_of_ascii (c : ascii) : string := String c EmptyString.

(** Indexed read [v[i]] *)
Definition index (i : nat) (v : value) : result value :=
  match v with
  | VUndef | VNull => Throw
  | VArr l => Ok (nth i l VUndef)
  | VStr s => Ok (match String.get i s with
                  | Some c => VStr (string_of_ascii c)
                  | None => VUndef
                  end)
  | VObj ps => Ok (field (Z_to_string (Z.of_nat i)) ps)
  | VBool _ | VNum _ => Ok VUndef
  end.

(** ToString, as applied by template literals, string [+] and [join]. A
    plain object prints as [[object Object]]; when it carries an own
    [toString] property (JSON data is never callable) the conversion throws. *)
Definition join_with (toStr : value -> result string) (sep : string)
  : list value -> result string :=
  fix go (l : list value) : result string :=
    match l with
    | [] => Ok EmptyString
    | v :: r =>
        s <- (match v with
              | VUndef | VNull => Ok EmptyString
              | _ => toStr v
              end) ;;
        match r with
        | [] => Ok s
        | _ => t <- go r ;; Ok (s ++ sep ++ t)
        end
    end.

Fixpoint to_string (v : value) : result string :=
  match v with
  | VUndef => Ok "undefined"
  | VNull => Ok "null"
  | VBool true => Ok "true"
  | VBool false => Ok "false"
  | VNum n => Ok (Z_to_string n)
  | VStr s => Ok s
  | VArr l => join_with to_string "," l
  | VObj ps => if has_key "toString" ps then Throw else Ok "[object Object]"
  end.

(** [Array.prototype.join] on an array the code has just built *)
Definition join (sep : string) (l : list value) : result string :=
  join_with to_string sep l.

(** [v.map(f)]: only arrays have a callable [map]. *)
Definition map_method {B} (f : value -> result B) (v : value) : result (list B) :=
  match v with
  | VArr l => mapM f l
  | _ => Throw
  end.

(** [v.filter(f)]: only arrays have a callable [filter]. *)
Fixpoint filterM {A} (f : A -> result bool) (l : list A) : result (list A) :=
  match l with
  | [] => Ok []
  | x :: r =>
      keep <- f x ;;
      ys <- filterM f r ;;
      Ok (if (keep : bool) then x :: ys else ys)
  end.

Definition filter_method (f : value -> result bool) (v : value) : result (list value) :=
  match v with
  | VArr l => filterM f l
  | _ => Throw
  end.

(** The values a [for ... of] loop visits: the elements of an array, the
    characters of a string; nothing else in JSON data is iterable. *)
Fixpoint chars (s : string) : list value :=
  match s with
  | EmptyString => []
  | String c r => VStr (string_of_ascii c) :: chars r
  end.

Definition iterate (v : value) : result (list value) :=
  match v with
  | VArr l => Ok l
  | VStr s => Ok (chars s)
  | _ => Throw
  end.

(** Array destructuring [[a, b] = v] *)
Definition destructure2 (v : value) : result (value * value) :=
  l <- iterate v ;; Ok (nth 0 l VUndef, nth 1 l VUndef).

(** ** JSON.stringify on a defined value (compact form) *)

Definition dquote : string := string_of_ascii (ascii_of_nat 34).
Definition backslash : string := string_of_ascii (ascii_of_nat 92).

Definition hex_digit (n : nat) : ascii :=
  nth n (list_ascii_of_string "0123456789abcdef") "0"%char.

Definition json_escape_char (c : ascii) : string :=
  let n := nat_of_ascii c in
  if (n =? 34)%nat then backslash ++ dquote
  else if (n =? 92)%nat then backslash ++ backslash
  else if (n =? 8)%nat then "\b"
  else if (n =? 9)%nat then "\t"
  else if (n =? 10)%nat then "\n"
  else if (n =? 12)%nat then "\f"
  else if (n =? 13)%nat then "\r"
  else if (n <? 32)%nat then
    "\u00" ++ string_of_ascii (hex_digit (n / 16)) ++ string_of_ascii (hex_digit (n mod 16))
  else string_of_ascii c.

Fixpoint json_escape (s : string) : string :=
  match s with
  | EmptyString => EmptyString
  | String c r => json_escape_char c ++ json_escape r
  end.

Definition json_quote (s : string) : string :=
  dquote ++ json_escape s ++ dquote.

(** A key that JavaScript orders as an array index ahead of the others *)
Definition is_digit (c : ascii) : bool :=
  let n := nat_of_ascii c in ((48 <=? n) && (n <=? 57))%nat.

Definition is_index_key (k : string) : bool :=
  match k with
  | EmptyString => false
  | String c r =>
      forallb is_digit (list_ascii_of_string k)
      && (negb (nat_of_ascii c =? 48)%nat || (r =? EmptyString))
  end.

Definition json_elems (str : value -> result string) : list value -> result string :=
  fix go (l : list value) : result string :=
    match l with
    | [] => Ok EmptyString
    | v :: r =>
        s <- (match v with VUndef => Ok "null" | _ => str v end) ;;
        match r with
        | [] => Ok s
        | _ => t <- go r ;; Ok (s ++ "," ++ t)
        end
    end.

(** [seen] holds the keys already printed: a later binding of the same key
    is shadowed and does not belong to the object. *)
Definition json_props (str : value -> result string)
  : list (string * value) -> list string -> result (list string) :=
  fix go (l : list (string * value)) (seen : list string) : result (list string) :=
    match l with
    | [] => Ok []
    | (k, v) :: r =>
        if existsb (String.eqb k) seen then go r seen
        else if is_index_key k then Unmodelled
        else match v with
             | VUndef => go r (k :: seen)
             | _ =>
                 s <- str v ;;
                 rest <- go r (k :: seen) ;;
                 Ok ((json_quote k ++ ":" ++ s) :: rest)
             end
    end.

Fixpoint JSON_stringify (v : value) : result string :=
  match v with
  | VUndef => Ok "undefined"
  | VNull => Ok "null"
  | VBool true => Ok "true"
  | VBool false => Ok "false"
  | VNum n => Ok (Z_to_string n)
  | VStr s => Ok (json_quote s)
  | VArr l => s <- json_elems JSON_stringify l ;; Ok ("[" ++ s ++ "]")
  | VObj ps =>
      l <- json_props JSON_stringify ps [] ;;
      Ok ("{" ++ String.concat "," l ++ "}")
  end.

(** [v > 0]. On a number it is the comparison; the other cases follow
    ToPrimitive and ToNumber where their answer does not need a string to be
    read as a number. *)
Definition gt_zero (v : value) : result bool :=
  match v with
  | VNum n => Ok (0 <? n)%Z
  | VUndef | VNull => Ok false
  | VBool b => Ok b
  | VStr s => if s =? EmptyString then Ok false else Unmodelled
  | VArr [] => Ok false
  | VArr _ => Unmodelled
  | VObj ps => if has_key "toString" ps then Throw else Ok false
  end.

(** ** Objects used as maps

    [o[k] = v]: the property keeps its place when the object has it, and is
    added last otherwise. *)
Fixpoint set_prop (k : string) (v : value) (ps : list (string * value))
  : list (string * value) :=
  match ps with
  | [] => [(k, v)]
  | (k', v') :: r => if k' =? k then (k', v) :: r else (k', v') :: set_prop k v r
  end.

(** The property names that an object literal inherits from
    [Object.prototype]: reading one of them from an object that has no own
    property of that name yields a function (the prototype itself for
    [__proto__]), which is truthy and has no [push]. *)
Definition Object_prototype_keys : list string :=
  ["constructor"; "__defineGetter__"; "__defineSetter__"; "hasOwnProperty";
   "__lookupGetter__"; "__lookupSetter__"; "isPrototypeOf";
   "propertyIsEnumerable"; "toString"; "valueOf"; "__proto__";
   "toLocaleString"].

Definition inherited (k : string) : bool :=
  existsb (String.eqb k) Object_prototype_keys.

(** [if (!o[k]) { o[k] = []; } o[k].push(x);] *)
Definition push_to (k : string) (x : value) (ps : list (string * value))
  : result (list (string * value)) :=
  match lookup k ps with
  | Some (VArr l) => Ok (set_prop k (VArr (l ++ [x])%list) ps)
  | Some v => if truthy v then Throw else Ok (set_prop k (VArr [x]) ps)
  | None => if inherited k then Throw else Ok (set_prop k (VArr [x]) ps)
  end.

(** [v.k] where [v] is known not to be [undefined] or [null] *)
Definition field_of (k : string) (v : value) : value :=
  match get k v with Ok x => x | _ => VUndef end.

(** [v === 0] *)
Definition is_zero (v : value) : bool :=
  match v with
  | VNum n => (n =? 0)%Z
  | _ => false
  end.

End JS.

(* ================================================================== *)
(** * type-converter.ts *)
(* ================================================================== *)

Module TypeConverter.
Import JS.

(** The cases of the [switch (type.type)] of typeToString *)
Inductive tag : Type :=
| CIntrinsic | CReference | CArray | CUnion | CIntersection | CLiteral
| CTuple | CNamedTupleMember | CReflection | COptional | CRest
| CConditional | CInferred | CIndexedAccess | CMapped | CTypeOperator
| CQuery | CTemplateLiteral | CPredicate | CDefault.

Definition classify (t : value) : tag :=
  if is_str t "intrinsic" then CIntrinsic
  else if is_str t "reference" then CReference
  else if is_str t "array" then CArray
  else if is_str t "union" then CUnion
  else if is_str t "intersection" then CIntersection
  else if is_str t "literal" then CLiteral
  else if is_str t "tuple" then CTuple
  else if is_str t "namedTupleMember" then CNamedTupleMember
  else if is_str t "reflection" then CReflection
  else if is_str t "optional" then COptional
  else if is_str t "rest" then CRest
  else if is_str t "conditional" then CConditional
  else if is_str t "inferred" then CInferred
  else if is_str t "indexedAccess" then CIndexedAccess
  else if is_str t "mapped" then CMapped
  else if is_str t "typeOperator" then CTypeOperator
  else if is_str t "query" then CQuery
  else if is_str t "templateLiteral" then CTemplateLiteral
  else if is_str t "predicate" then CPredicate
  else CDefault.

Definition stringifyLiteral (value : value) : result string :=
  match value with
  | VNull => Ok "null"
  | VUndef => Ok "undefined"
  | VStr s => Ok (dquote ++ s ++ dquote)
  | VNum _ | VBool _ => to_string value
  | VArr _ | VObj _ =>
      negative <- get "negative" value ;;
      digits <- get "value" value ;;
      match negative, digits with
      | VUndef, _ | _, VUndef => JSON_stringify value
      | _, _ =>
          d <- to_string digits ;;
          Ok ((if truthy negative then "-" else EmptyString) ++ d ++ "n")
      end
  end.

Section Handlers.

(** The recursive calls of the handlers go through this variable; the
    fixpoint below ties the knot. *)
Variable typeToString : value -> result value.

(** [`${typeToString(x, context)}`] *)
Definition interpolate (x : value) : result string :=
  r <- typeToString x ;; to_string r.

Definition handleReferenceType (type : value) : result value :=
  name <- get "name" type ;;
  let result := or_else name (VStr "unknown") in
  typeArguments <- get "typeArguments" type ;;
  if truthy typeArguments then
    len <- get "length" typeArguments ;;
    nonempty <- gt_zero len ;;
    if (nonempty : bool) then
      args <- map_method typeToString typeArguments ;;
      joined <- join ", " args ;;
      r <- to_string result ;;
      Ok (VStr (r ++ "<" ++ joined ++ ">"))
    else Ok result
  else Ok result.

(** The arrow functions that handleReflectionType maps over the members
    of an object shape and over the parameters of a function shape *)
Definition renderProperty (child : value) : result value :=
  childType <- get "type" child ;;
  propType <- (if truthy childType then typeToString childType
               else Ok (VStr "any")) ;;
  childName <- get "name" child ;;
  n <- to_string childName ;;
  t <- to_string propType ;;
  Ok (VStr (n ++ ": " ++ t)).

Definition renderParameter (p : value) : result value :=
  pName <- get "name" p ;;
  n <- to_string pName ;;
  pType <- get "type" p ;;
  t <- interpolate pType ;;
  Ok (VStr (n ++ ": " ++ t)).

Definition handleReflectionType (type : value) : result value :=
  declaration <- get "declaration" type ;;
  if negb (truthy declaration) then Ok (VStr "{...}") else
  children <- get "children" declaration ;;
  if truthy children then
    props <- map_method renderProperty children ;;
    joined <- join "; " props ;;
    Ok (VStr ("{ " ++ joined ++ " }"))
  else
  signatures <- get "signatures" declaration ;;
  if truthy signatures then
    sig <- index 0 signatures ;;
    parameters <- get "parameters" sig ;;
    params <- (match parameters with
               | VUndef | VNull => Ok EmptyString
               | _ =>
                   ps <- map_method renderParameter parameters ;;
                   join ", " ps
               end) ;;
    sigType <- get "type" sig ;;
    returnType <- interpolate sigType ;;
    Ok (VStr ("(" ++ params ++ ") => " ++ returnType))
  else Ok (VStr "{...}").

Definition handleConditionalType (type : value) : result value :=
  checkType <- get "checkType" type ;;
  check <- interpolate checkType ;;
  extendsType <- get "extendsType" type ;;
  extends <- interpolate extendsType ;;
  trueType <- get "trueType" type ;;
  true_ <- interpolate trueType ;;
  falseType <- get "falseType" type ;;
  false_ <- interpolate falseType ;;
  Ok (VStr (check ++ " extends " ++ extends ++ " ? " ++ true_ ++ " : " ++ false_)).

Definition handleInferredType (type : value) : result value :=
  name <- get "name" type ;;
  n <- to_string name ;;
  let result := "infer " ++ n in
  constraint <- get "constraint" type ;;
  if truthy constraint then
    c <- interpolate constraint ;;
    Ok (VStr (result ++ " extends " ++ c))
  else Ok (VStr result).

Definition handleMappedType (type : value) : result value :=
  let result := "{ " in
  readonlyModifier <- get "readonlyModifier" type ;;
  result <- (if truthy readonlyModifier
             then m <- to_string readonlyModifier ;; Ok (result ++ m ++ " ")
             else Ok result) ;;
  parameter <- get "parameter" type ;;
  p <- to_string parameter ;;
  parameterType <- get "parameterType" type ;;
  pt <- interpolate parameterType ;;
  let result := result ++ "[" ++ p ++ " in " ++ pt ++ "]" in
  optionalModifier <- get "optionalModifier" type ;;
  result <- (if truthy optionalModifier
             then m <- to_string optionalModifier ;; Ok (result ++ m)
             else Ok result) ;;
  templateType <- get "templateType" type ;;
  tt <- interpolate templateType ;;
  let result := result ++ ": " ++ tt in
  nameType <- get "nameType" type ;;
  result <- (if truthy nameType
             then nt <- interpolate nameType ;; Ok (result ++ " as " ++ nt)
             else Ok result) ;;
  Ok (VStr (result ++ " }")).

(** The body of the [for (const [tailType, tailStr] of type.tail)] loop,
    folded over the visited elements. *)
Fixpoint templateTail (result : string) (elems : list value) : JS.result string :=
  match elems with
  | [] => Ok result
  | e :: rest =>
      '(tailType, tailStr) <- destructure2 e ;;
      t <- interpolate tailType ;;
      s <- to_string tailStr ;;
      templateTail (result ++ "${" ++ t ++ "}" ++ s) rest
  end.

Definition handleTemplateLiteral (type : value) : result value :=
  head <- get "head" type ;;
  h <- to_string head ;;
  let result := "`" ++ h in
  tail <- get "tail" type ;;
  elems <- iterate tail ;;
  result <- templateTail result elems ;;
  Ok (VStr (result ++ "`")).

Definition handlePredicate (type : value) : result value :=
  name <- get "name" type ;;
  let result := name in
  asserts <- get "asserts" type ;;
  result <- (if truthy asserts
             then n <- to_string result ;; Ok (VStr ("asserts " ++ n))
             else Ok result) ;;
  targetType <- get "targetType" type ;;
  if truthy targetType then
    t <- interpolate targetType ;;
    r <- to_string result ;;
    Ok (VStr (r ++ " is " ++ t))
  else Ok result.

(** One activation of typeToString *)
Definition typeToString_body (type : value) : result value :=
  if negb (truthy type) then Ok (VStr "any") else
  match type with
  | VStr _ => Ok type
  | _ =>
    t <- get "type" type ;;
    match classify t with
    | CIntrinsic =>
        name <- get "name" type ;; Ok (or_else name (VStr "any"))
    | CReference => handleReferenceType type
    | CArray =>
        elementType <- get "elementType" type ;;
        e <- interpolate elementType ;;
        Ok (VStr (e ++ "[]"))
    | CUnion =>
        types <- get "types" type ;;
        rs <- map_method typeToString types ;;
        s <- join " | " rs ;;
        Ok (VStr s)
    | CIntersection =>
        types <- get "types" type ;;
        rs <- map_method typeToString types ;;
        s <- join " & " rs ;;
        Ok (VStr s)
    | CLiteral =>
        v <- get "value" type ;;
        s <- stringifyLiteral v ;;
        Ok (VStr s)
    | CTuple =>
        elements <- get "elements" type ;;
        rs <- map_method typeToString elements ;;
        s <- join ", " rs ;;
        Ok (VStr ("[" ++ s ++ "]"))
    | CNamedTupleMember =>
        n <- get "name" type ;;
        let name := or_else n (VStr "unknown") in
        elem <- get "element" type ;;
        element <- interpolate elem ;;
        nm <- to_string name ;;
        Ok (VStr (nm ++ ": " ++ element))
    | CReflection => handleReflectionType type
    | COptional =>
        elementType <- get "elementType" type ;;
        e <- interpolate elementType ;;
        Ok (VStr (e ++ " | undefined"))
    | CRest =>
        elementType <- get "elementType" type ;;
        e <- interpolate elementType ;;
        Ok (VStr ("..." ++ e))
    | CConditional => handleConditionalType type
    | CInferred => handleInferredType type
    | CIndexedAccess =>
        objectType <- get "objectType" type ;;
        o <- interpolate objectType ;;
        indexType <- get "indexType" type ;;
        i <- interpolate indexType ;;
        Ok (VStr (o ++ "[" ++ i ++ "]"))
    | CMapped => handleMappedType type
    | CTypeOperator =>
        operator <- get "operator" type ;;
        op <- to_string operator ;;
        target <- get "target" type ;;
        tg <- interpolate target ;;
        Ok (VStr (op ++ " " ++ tg))
    | CQuery =>
        queryType <- get "queryType" type ;;
        q <- interpolate queryType ;;
        Ok (VStr ("typeof " ++ q))
    | CTemplateLiteral => handleTemplateLiteral type
    | CPredicate => handlePredicate type
    | CDefault =>
        name <- get "name" type ;; Ok (or_else name (VStr "unknown"))
    end
  end.

End Handlers.

(** typeToString: every call spends one unit of [fuel]. *)
Fixpoint typeToString (fuel : nat) (type : value) : result value :=
  match fuel with
  | O => OutOfFuel
  | S fuel' => typeToString_body (typeToString fuel') type
  end.

(** The call with the budget its argument needs (see [typeToString_fuel]). *)
Definition render (type : value) : result value :=
  typeToString (S (depth type)) type.

End TypeConverter.

(* ================================================================== *)
(** * String helpers (the built-in string methods the sources call) *)
(* ================================================================== *)

Module Str.

Definition newline : string := String (ascii_of_nat 10) EmptyString.

(** The characters the regular expression class [\s] and [trim] treat as
    white space, among the ASCII characters that strings are modelled on *)
Definition is_ws (c : ascii) : bool :=
  let n := nat_of_ascii c in
  ((9 <=? n) && (n <=? 13) || (n =? 32))%nat.

(** [s.includes(needle)] *)
Fixpoint includes (needle s : string) : bool :=
  if String.prefix needle s then true
  else match s with
       | EmptyString => false
       | String _ r => includes needle r
       end.

(** [s.indexOf(needle)] *)
Fixpoint index_of (needle s : string) : option nat :=
  if String.prefix needle s then Some 0
  else match s with
       | EmptyString => None
       | String _ r => option_map S (index_of needle r)
       end.

Fixpoint drop (n : nat) (s : string) : string :=
  match n, s with
  | S k, String _ r => drop k r
  | _, _ => s
  end.

Fixpoint take (n : nat) (s : string) : string :=
  match n, s with
  | S k, String c r => String c (take k r)
  | _, _ => EmptyString
  end.

Fixpoint trim_start (s : string) : string :=
  match s with
  | String c r => if is_ws c then trim_start r else s
  | EmptyString => EmptyString
  end.

Fixpoint trim_end (s : string) : string :=
  match s with
  | EmptyString => EmptyString
  | String c r =>
      let r' := trim_end r in
      if is_ws c && (r' =? EmptyString) then EmptyString else String c r'
  end.

(** [s.trim()] *)
Definition trim (s : string) : string := trim_end (trim_start s).

Definition lower_char (c : ascii) : ascii :=
  let n := nat_of_ascii c in
  if ((65 <=? n) && (n <=? 90))%nat then ascii_of_nat (n + 32) else c.

(** [s.toLowerCase()] *)
Fixpoint toLowerCase (s : string) : string :=
  match s with
  | EmptyString => EmptyString
  | String c r => String (lower_char c) (toLowerCase r)
  end.

(** [s.split(/\s+/)]: the pieces between the maximal runs of white space;
    [cur] is the piece being read and [in_run] tells that the previous
    character was white space. *)
Fixpoint split_ws_from (s cur : string) (in_run : bool) : list string :=
  match s with
  | EmptyString => [cur]
  | String c r =>
      if is_ws c then
        if in_run then split_ws_from r EmptyString true
        else cur :: split_ws_from r EmptyString true
      else split_ws_from r (cur ++ String c EmptyString) false
  end.

Definition split_ws (s : string) : list string :=
  split_ws_from s EmptyString false.

End Str.

(* ================================================================== *)
(** * comment-parser.ts *)
(* ================================================================== *)

Module CommentParser.
Import JS Str.

Definition parseInlineTag (tag : value) : result value :=
  t <- get "tag" tag ;;
  if is_str t "@link" || is_str t "@linkcode" then
    text <- get "text" tag ;;
    name <- get "name" tag ;;
    target <- get "target" tag ;;
    a <- to_string (or_else text name) ;;
    b <- to_string (or_else target name) ;;
    Ok (VStr ("[" ++ a ++ "](" ++ b ++ ")"))
  else if is_str t "@linkplain" then
    text <- get "text" tag ;;
    name <- get "name" tag ;;
    Ok (or_else text name)
  else if is_str t "@tutorial" then
    name <- get "name" tag ;;
    n <- to_string name ;;
    Ok (VStr ("[Tutorial: " ++ n ++ "]"))
  else
    text <- get "text" tag ;;
    name <- get "name" tag ;;
    Ok (or_else (or_else text name) (VStr EmptyString)).

(** The arrow function that extractCommentParts maps over the parts *)
Definition renderPart (part : value) : result value :=
  kind <- get "kind" part ;;
  if is_str kind "text" then get "text" part
  else if is_str kind "code" then
    text <- get "text" part ;;
    s <- to_string text ;;
    Ok (VStr ("`" ++ s ++ "`"))
  else if is_str kind "inline-tag" then parseInlineTag part
  else if is_str kind "code-span" then
    text <- get "text" part ;;
    s <- to_string text ;;
    Ok (VStr ("`" ++ s ++ "`"))
  else Ok (VStr EmptyString).

Definition extractCommentParts (parts : value) : result string :=
  if negb (truthy parts) then Ok EmptyString else
  rendered <- map_method renderPart parts ;;
  join EmptyString rendered.

Definition extractAuthorTags (comment : value) : result (list value) :=
  blockTags <- get "blockTags" comment ;;
  if negb (truthy blockTags) then Ok [] else
  authors <- filter_method (fun t => tag <- get "tag" t ;; Ok (is_str tag "@author"))
               blockTags ;;
  mapM (fun t =>
          content <- get "content" t ;;
          s <- extractCommentParts content ;;
          Ok (VStr s)) authors.

(** extractCodeBlocks runs the regular expression
    [/```(?:typescript|ts|javascript|js|tsx|jsx)?\n([\s\S]*?)```/g]. *)
Definition fence : string := "```".

Definition languages : list string :=
  ["typescript"; "ts"; "javascript"; "js"; "tsx"; "jsx"].

(** A match that starts at the first character of [s]: the captured text
    and the length of the whole match. *)
Definition match_block (s : string) : option (string * nat) :=
  if String.prefix fence s then
    let r := drop 3 s in
    match find (fun l => String.prefix (l ++ newline) r)
               (languages ++ [EmptyString])%list with
    | Some l =>
        let body := drop (String.length l + 1) r in
        match index_of fence body with
        | Some j => Some (take j body, 3 + String.length l + 1 + j + 3)
        | None => None
        end
    | None => None
    end
  else None.

(** The [while ((match = regex.exec(text)) !== null)] loop: [skip] counts the
    characters left of the match just consumed. *)
Fixpoint scan_blocks (skip : nat) (s : string) : list string :=
  match s with
  | EmptyString => []
  | String _ r =>
      match skip with
      | S k => scan_blocks k r
      | O =>
          match match_block s with
          | Some (inner, len) => trim inner :: scan_blocks (len - 1) r
          | None => scan_blocks 0 r
          end
      end
  end.

Definition extractCodeBlocks (text : string) : list string :=
  scan_blocks 0 text.

Definition isCodeExample (text : string) : bool :=
  existsb (fun needle => includes needle text)
    ["```"; "function "; "const "; "let "; "var "; "{"; "}"; "()"; "=>";
     "async"; "await"; "import"; "export"].

Definition detectLanguage (text : string) : string :=
  if includes "async" text || includes "=>" text || includes "function" text
     || includes "interface" text || includes "type" text
     || includes "class" text
  then "typescript"
  else if includes "<!--" text then "html"
  else if includes "@" text then "typescript"
  else "text".

End CommentParser.

(* ================================================================== *)
(** * signature-builder.ts *)
(* ================================================================== *)

Module SignatureBuilder.
Import JS.

(** The calls of typeToString made outside type-converter.ts are written
    with [render]: typeToString with the fuel its argument needs. *)
Definition typeToString : value -> result value := TypeConverter.render.

(** [`${typeToString(x, context)}`] *)
Definition typeString (x : value) : result string :=
  r <- typeToString x ;; to_string r.

Definition typeParameter (tp : value) : result value :=
  name <- get "name" tp ;;
  let param := name in
  constraint <- get "type" tp ;;
  param <- (if truthy constraint then
              c <- typeString constraint ;;
              p <- to_string param ;;
              Ok (VStr (p ++ " extends " ++ c))
            else Ok param) ;;
  default <- get "default" tp ;;
  if truthy default then
    d <- typeString default ;;
    p <- to_string param ;;
    Ok (VStr (p ++ " = " ++ d))
  else Ok param.

Definition buildTypeParameterString (typeParams : value) : result string :=
  if negb (truthy typeParams) then Ok EmptyString else
  len <- get "length" typeParams ;;
  if is_zero len then Ok EmptyString else
  params <- map_method typeParameter typeParams ;;
  joined <- join ", " params ;;
  Ok ("<" ++ joined ++ ">").

Definition parameter (param : value) : result value :=
  let paramStr := EmptyString in
  flags <- get "flags" param ;;
  isRest <- get_opt "isRest" flags ;;
  let paramStr := if truthy isRest then paramStr ++ "..." else paramStr in
  name <- get "name" param ;;
  n <- to_string name ;;
  let paramStr := paramStr ++ n in
  isOptional <- get_opt "isOptional" flags ;;
  let paramStr := if truthy isOptional then paramStr ++ "?" else paramStr in
  type <- get "type" param ;;
  t <- typeString type ;;
  let paramStr := paramStr ++ ": " ++ t in
  defaultValue <- get "defaultValue" param ;;
  if truthy defaultValue then
    d <- to_string defaultValue ;;
    Ok (VStr (paramStr ++ " = " ++ d))
  else Ok (VStr paramStr).

Definition buildParameterString (parameters : value) : result string :=
  if negb (truthy parameters) then Ok EmptyString else
  len <- get "length" parameters ;;
  if is_zero len then Ok EmptyString else
  params <- map_method parameter parameters ;;
  join ", " params.

Definition buildSignatureString (declaration signature : value) : result string :=
  typeParameters <- get "typeParameters" signature ;;
  typeParamStr <- buildTypeParameterString typeParameters ;;
  parameters <- get "parameters" signature ;;
  paramStr <- buildParameterString parameters ;;
  type <- get "type" signature ;;
  returnType <- typeString type ;;
  name <- get "name" declaration ;;
  n <- to_string name ;;
  Ok (n ++ typeParamStr ++ "(" ++ paramStr ++ "): " ++ returnType).

(** The private copy of extractCommentParts of this file *)
Definition extractCommentParts (parts : value) : result string :=
  if negb (truthy parts) then Ok EmptyString else
  rendered <- map_method (fun part =>
                kind <- get "kind" part ;;
                if is_str kind "text" then get "text" part
                else if is_str kind "code" then
                  text <- get "text" part ;;
                  s <- to_string text ;;
                  Ok (VStr ("`" ++ s ++ "`"))
                else Ok (VStr EmptyString)) parts ;;
  join EmptyString rendered.

(** [x.comment?.summary ? extractCommentParts(x.comment.summary) : undefined] *)
Definition summaryOf (extract : value -> result string) (x : value) : result value :=
  comment <- get "comment" x ;;
  summary <- get_opt "summary" comment ;;
  if truthy summary then s <- extract summary ;; Ok (VStr s) else Ok VUndef.

(** The object built for one parameter by buildParameters here and by
    extractParameters in extractor.ts; the two differ in the
    extractCommentParts they call. *)
Definition parameterDetail (extract : value -> result string) (param : value)
  : result value :=
  name <- get "name" param ;;
  kind <- get "kind" param ;;
  type <- get "type" param ;;
  typeStr <- (if truthy type then typeToString type else Ok (VStr "any")) ;;
  description <- summaryOf extract param ;;
  flags <- get "flags" param ;;
  isOptional <- get_opt "isOptional" flags ;;
  isRest <- get_opt "isRest" flags ;;
  defaultValue <- get "defaultValue" param ;;
  Ok (VObj [("name", name);
            ("kind", kind);
            ("type", VObj [("type", typeStr); ("typeRaw", type)]);
            ("description", description);
            ("isOptional", or_else isOptional (VBool false));
            ("isRest", or_else isRest (VBool false));
            ("defaultValue", defaultValue)]).

Definition buildParameters (reflection : value) : result (list value) :=
  parameters <- get "parameters" reflection ;;
  if negb (truthy parameters) then Ok [] else
  map_method (parameterDetail extractCommentParts) parameters.

Inductive accessor : Type := getter | setter.

Definition accessor_name (type : accessor) : string :=
  match type with getter => "getter" | setter => "setter" end.

Definition buildGetSetSignature (sig : value) (type : accessor) : result value :=
  sigType <- get "type" sig ;;
  returnType <- typeToString sigType ;;
  r <- to_string returnType ;;
  let signature := match type with
                   | getter => "get property(): " ++ r
                   | setter => "set property(value: " ++ r ++ "): void"
                   end in
  parameters <- (match type with
                 | setter => buildParameters sig
                 | getter => Ok []
                 end) ;;
  summary <- summaryOf extractCommentParts sig ;;
  Ok (VObj [("name", VStr (accessor_name type));
            ("kind", VStr (match type with
                           | getter => "GetSignature"
                           | setter => "SetSignature"
                           end));
            ("signature", VStr signature);
            ("parameters", VArr parameters);
            ("returnType",
              VObj [("type", match type with
                             | getter => returnType
                             | setter => VStr "void"
                             end);
                    ("typeRaw", sigType)]);
            ("documentation", VObj [("summary", summary)])]).

Definition buildIndexSignatureString (indexSig : value) : result string :=
  parameters <- get "parameters" indexSig ;;
  params <- map_method (fun p =>
              name <- get "name" p ;;
              n <- to_string name ;;
              type <- get "type" p ;;
              t <- typeString type ;;
              Ok (VStr (n ++ ": " ++ t))) parameters ;;
  joined <- join ", " params ;;
  type <- get "type" indexSig ;;
  returnType <- typeString type ;;
  Ok ("[" ++ joined ++ "]: " ++ returnType).

End SignatureBuilder.

(* ================================================================== *)
(** * extractor.ts *)
(* ================================================================== *)

Module Extractor.
Import JS Str.

Definition typeToString : value -> result value := TypeConverter.render.
Definition extractCommentParts := CommentParser.extractCommentParts.

(** [x ? extractCommentParts(x) : undefined] *)
Definition partsOrUndefined (x : value) : result value :=
  if truthy x then s <- extractCommentParts x ;; Ok (VStr s) else Ok VUndef.

(** [v.toString()] *)
Definition toString_method (v : value) : result string :=
  match v with
  | VUndef | VNull => Throw
  | _ => to_string v
  end.

(** [v?.toString()] *)
Definition toString_opt (v : value) : result value :=
  match v with
  | VUndef | VNull => Ok VUndef
  | _ => s <- to_string v ;; Ok (VStr s)
  end.

Definition extractDocumentation (reflection : value) : result value :=
  c <- get "comment" reflection ;;
  let comment := or_else c (VObj []) in
  summaryParts <- get "summary" comment ;;
  summary <- extractCommentParts summaryParts ;;
  descriptionParts <- get "description" comment ;;
  description <- extractCommentParts descriptionParts ;;
  remarksParts <- get "remarks" comment ;;
  remarks <- extractCommentParts remarksParts ;;
  flags <- get "flags" reflection ;;
  isDeprecated <- get_opt "isDeprecated" flags ;;
  deprecatedParts <- get "deprecated" comment ;;
  message <- partsOrUndefined deprecatedParts ;;
  licenseParts <- get "license" comment ;;
  license <- partsOrUndefined licenseParts ;;
  copyrightParts <- get "copyright" comment ;;
  copyright <- partsOrUndefined copyrightParts ;;
  author <- CommentParser.extractAuthorTags comment ;;
  sinceParts <- get "since" comment ;;
  since <- partsOrUndefined sinceParts ;;
  Ok (VObj [("summary", VStr summary);
            ("description", VStr description);
            ("remarks", VStr remarks);
            ("deprecated",
              VObj [("isDeprecated", or_else isDeprecated (VBool false));
                    ("message", message)]);
            ("license", license);
            ("copyright", copyright);
            ("author", VArr author);
            ("since", since)]).

(** [t ? { type: typeToString(t, tp), typeRaw: t } : undefined] *)
Definition typeDefinition (t : value) : result value :=
  if truthy t then
    s <- typeToString t ;; Ok (VObj [("type", s); ("typeRaw", t)])
  else Ok VUndef.

Definition extractTypeParameters (typeParams : value) : result (list value) :=
  if negb (truthy typeParams) then Ok [] else
  map_method (fun tp =>
    name <- get "name" tp ;;
    type <- get "type" tp ;;
    constraint <- typeDefinition type ;;
    d <- get "default" tp ;;
    default <- typeDefinition d ;;
    description <- SignatureBuilder.summaryOf extractCommentParts tp ;;
    Ok (VObj [("name", name);
              ("constraint", constraint);
              ("default", default);
              ("description", description)])) typeParams.

(** [list?.map((t) => typeToString(t, project))] *)
Definition typeStrings (list : value) : result value :=
  match list with
  | VUndef | VNull => Ok VUndef
  | _ => l <- map_method typeToString list ;; Ok (VArr l)
  end.

Definition extractTypeInformation (reflection : value) : result value :=
  type <- get "type" reflection ;;
  typeStr <- (if truthy type then typeToString type else Ok VUndef) ;;
  tps <- get "typeParameters" reflection ;;
  typeParameters <- extractTypeParameters tps ;;
  ext <- get "extendedTypes" reflection ;;
  extendedTypes <- typeStrings ext ;;
  impl <- get "implementedTypes" reflection ;;
  implementedTypes <- typeStrings impl ;;
  Ok (VObj [("type", typeStr);
            ("typeRaw", type);
            ("typeParameters", VArr typeParameters);
            ("extendedTypes", extendedTypes);
            ("implementedTypes", implementedTypes)]).

Definition extractParameters (reflection : value) : result (list value) :=
  parameters <- get "parameters" reflection ;;
  if negb (truthy parameters) then Ok [] else
  map_method (SignatureBuilder.parameterDetail extractCommentParts) parameters.

Definition resolveTypeName (typeRef : value) : result value :=
  name <- get "name" typeRef ;; Ok (or_else name (VStr "unknown")).

(** [r ? { name: resolveTypeName(r, project), id: r.id?.toString() } : undefined] *)
Definition referenceDetail (r : value) : result value :=
  if truthy r then
    name <- resolveTypeName r ;;
    i <- get "id" r ;;
    id <- toString_opt i ;;
    Ok (VObj [("name", name); ("id", id)])
  else Ok VUndef.

(** The record pushed for one overload by the first loop of
    extractSignatures *)
Definition overloadDetail (reflection sig : value) : result value :=
  name <- get "name" sig ;;
  kind <- get "kind" sig ;;
  signature <- SignatureBuilder.buildSignatureString reflection sig ;;
  tps <- get "typeParameters" sig ;;
  typeParameters <- extractTypeParameters tps ;;
  parameters <- extractParameters sig ;;
  type <- get "type" sig ;;
  returnTypeStr <- (if truthy type then typeToString type else Ok (VStr "void")) ;;
  summary <- SignatureBuilder.summaryOf extractCommentParts sig ;;
  ow <- get "overwrites" sig ;;
  overwrites <- referenceDetail ow ;;
  ih <- get "inheritedFrom" sig ;;
  inheritedFrom <- referenceDetail ih ;;
  io <- get "implementationOf" sig ;;
  implementationOf <- referenceDetail io ;;
  comment <- get "comment" sig ;;
  descriptionParts <- get_opt "description" comment ;;
  description <- partsOrUndefined descriptionParts ;;
  Ok (VObj [("name", name);
            ("kind", kind);
            ("signature", VStr signature);
            ("typeParameters", VArr typeParameters);
            ("parameters", VArr parameters);
            ("returnType",
              VObj [("type", returnTypeStr);
                    ("typeRaw", type);
                    ("description", summary)]);
            ("overwrites", overwrites);
            ("inheritedFrom", inheritedFrom);
            ("implementationOf", implementationOf);
            ("documentation",
              VObj [("summary", summary); ("description", description)])]).

(** The record pushed for one index signature by the last loop *)
Definition indexDetail (indexSig : value) : result value :=
  kind <- get "kind" indexSig ;;
  signature <- SignatureBuilder.buildIndexSignatureString indexSig ;;
  parameters <- extractParameters indexSig ;;
  type <- get "type" indexSig ;;
  returnTypeStr <- typeToString type ;;
  summary <- SignatureBuilder.summaryOf extractCommentParts indexSig ;;
  Ok (VObj [("name", VStr "__index");
            ("kind", kind);
            ("signature", VStr signature);
            ("parameters", VArr parameters);
            ("returnType", VObj [("type", returnTypeStr); ("typeRaw", type)]);
            ("documentation", VObj [("summary", summary)])]).

Definition extractSignatures (reflection : value) : result (list value) :=
  sigs <- get "signatures" reflection ;;
  overloads <- (if truthy sigs then
                  l <- iterate sigs ;; mapM (overloadDetail reflection) l
                else Ok []) ;;
  getSignature <- get "getSignature" reflection ;;
  getters <- (if truthy getSignature then
                g <- SignatureBuilder.buildGetSetSignature getSignature
                       SignatureBuilder.getter ;;
                Ok [g]
              else Ok []) ;;
  setSignature <- get "setSignature" reflection ;;
  setters <- (if truthy setSignature then
                g <- SignatureBuilder.buildGetSetSignature setSignature
                       SignatureBuilder.setter ;;
                Ok [g]
              else Ok []) ;;
  indexSignatures <- get "indexSignatures" reflection ;;
  indexes <- (if truthy indexSignatures then
                l <- iterate indexSignatures ;; mapM indexDetail l
              else Ok []) ;;
  Ok (overloads ++ getters ++ setters ++ indexes)%list.

(** TagsDetail of types.ts; [customTags] is the object used as a map from
    tag name to the list of rendered contents. *)
Record TagsDetail : Type := mkTags {
  examples : list value;
  examples_md : list value;
  tutorials : list value;
  seeTags : list value;
  throwsTags : list value;
  returnsTags : list value;
  paramTags : list value;
  typeparamTags : list value;
  customTags : list (string * value)
}.

Definition emptyTags : TagsDetail := mkTags [] [] [] [] [] [] [] [] [].

(** One turn of the [for (const tag of comment.blockTags)] loop of
    extractAllTags: the [switch (tag.tag)]. *)
Definition categorize (tags : TagsDetail) (tag : value) : result TagsDetail :=
  t <- get "tag" tag ;;
  content <- get "content" tag ;;
  if is_str t "@example" then
    text <- extractCommentParts content ;;
    let example := VObj [("text", VStr text);
                         ("isCode", VBool (CommentParser.isCodeExample text));
                         ("language", VStr (CommentParser.detectLanguage text))] in
    let codeBlocks := map VStr (CommentParser.extractCodeBlocks text) in
    Ok (mkTags (examples tags ++ [example]) (examples_md tags ++ codeBlocks)
          (tutorials tags) (seeTags tags) (throwsTags tags) (returnsTags tags)
          (paramTags tags) (typeparamTags tags) (customTags tags))%list
  else if is_str t "@tutorial" || is_str t "@tutorials" then
    text <- extractCommentParts content ;;
    Ok (mkTags (examples tags) (examples_md tags)
          (tutorials tags ++ [VStr text]) (seeTags tags) (throwsTags tags)
          (returnsTags tags) (paramTags tags) (typeparamTags tags)
          (customTags tags))%list
  else if is_str t "@see" then
    text <- extractCommentParts content ;;
    Ok (mkTags (examples tags) (examples_md tags) (tutorials tags)
          (seeTags tags ++ [VStr text]) (throwsTags tags) (returnsTags tags)
          (paramTags tags) (typeparamTags tags) (customTags tags))%list
  else if is_str t "@throws" || is_str t "@throw" then
    text <- extractCommentParts content ;;
    Ok (mkTags (examples tags) (examples_md tags) (tutorials tags)
          (seeTags tags) (throwsTags tags ++ [VStr text]) (returnsTags tags)
          (paramTags tags) (typeparamTags tags) (customTags tags))%list
  else if is_str t "@returns" || is_str t "@return" then
    typeExpression <- get "typeExpression" tag ;;
    type <- (if truthy typeExpression then typeToString typeExpression
             else Ok VUndef) ;;
    description <- extractCommentParts content ;;
    let entry := VObj [("type", type); ("typeRaw", typeExpression);
                       ("description", VStr description)] in
    Ok (mkTags (examples tags) (examples_md tags) (tutorials tags)
          (seeTags tags) (throwsTags tags) (returnsTags tags ++ [entry])
          (paramTags tags) (typeparamTags tags) (customTags tags))%list
  else if is_str t "@param" then
    name <- get "name" tag ;;
    typeExpression <- get "typeExpression" tag ;;
    type <- (if truthy typeExpression then typeToString typeExpression
             else Ok VUndef) ;;
    description <- extractCommentParts content ;;
    let entry := VObj [("paramName", name); ("type", type);
                       ("typeRaw", typeExpression);
                       ("description", VStr description)] in
    Ok (mkTags (examples tags) (examples_md tags) (tutorials tags)
          (seeTags tags) (throwsTags tags) (returnsTags tags)
          (paramTags tags ++ [entry]) (typeparamTags tags) (customTags tags))%list
  else if is_str t "@typeParam" || is_str t "@template" then
    name <- get "name" tag ;;
    description <- extractCommentParts content ;;
    let entry := VObj [("paramName", name); ("description", VStr description)] in
    Ok (mkTags (examples tags) (examples_md tags) (tutorials tags)
          (seeTags tags) (throwsTags tags) (returnsTags tags)
          (paramTags tags) (typeparamTags tags ++ [entry]) (customTags tags))%list
  else
    key <- to_string t ;;
    text <- extractCommentParts content ;;
    custom <- push_to key (VStr text) (customTags tags) ;;
    Ok (mkTags (examples tags) (examples_md tags) (tutorials tags)
          (seeTags tags) (throwsTags tags) (returnsTags tags)
          (paramTags tags) (typeparamTags tags) custom).

Fixpoint categorizeAll (tags : TagsDetail) (blockTags : list value)
  : result TagsDetail :=
  match blockTags with
  | [] => Ok tags
  | tag :: rest => tags' <- categorize tags tag ;; categorizeAll tags' rest
  end.

Definition extractAllTags (reflection : value) : result TagsDetail :=
  c <- get "comment" reflection ;;
  let comment := or_else c (VObj []) in
  blockTags <- get "blockTags" comment ;;
  if negb (truthy blockTags) then Ok emptyTags else
  l <- iterate blockTags ;;
  categorizeAll emptyTags l.

Definition extractModifiers (reflection : value) : result value :=
  f <- get "flags" reflection ;;
  let flags := or_else f (VObj []) in
  isAbstract <- get "isAbstract" flags ;;
  isAsync <- get "isAsync" flags ;;
  isConst <- get "isConst" flags ;;
  isReadonly <- get "isReadonly" flags ;;
  isOptional <- get "isOptional" flags ;;
  isStatic <- get "isStatic" flags ;;
  isPrivate <- get "isPrivate" flags ;;
  isProtected <- get "isProtected" flags ;;
  isPublic <- get "isPublic" flags ;;
  isExternal <- get "isExternal" flags ;;
  Ok (VObj [("isAbstract", isAbstract); ("isAsync", isAsync);
            ("isConst", isConst); ("isReadonly", isReadonly);
            ("isOptional", isOptional); ("isStatic", isStatic);
            ("isPrivate", isPrivate); ("isProtected", isProtected);
            ("isPublic", isPublic); ("isExternal", isExternal)]).

Definition extractSourceInfo (reflection : value) : result value :=
  sources <- get "sources" reflection ;;
  source <- (match sources with
             | VUndef | VNull => Ok VUndef
             | _ => index 0 sources
             end) ;;
  fileName <- get_opt "fileName" source ;;
  line <- get_opt "line" source ;;
  character <- get_opt "character" source ;;
  url <- get_opt "url" source ;;
  Ok (VObj [("filename", or_else fileName (VStr "unknown"));
            ("lineStart", line);
            ("lineEnd", character);
            ("url", url)]).

Definition getReflectionName (id : value) : value := VStr "unknown".
Definition getReflectionKind (id : value) : value := VStr "unknown".

Definition extractHierarchy (reflection : value) : result value :=
  parent <- get "parent" reflection ;;
  parentId <- toString_opt parent ;;
  children <- get "children" reflection ;;
  childrenIds <- (match children with
                  | VUndef | VNull => Ok VUndef
                  | _ =>
                      l <- map_method (fun c =>
                             i <- get "id" c ;; toString_opt i) children ;;
                      Ok (VArr l)
                  end) ;;
  module <- get "module" reflection ;;
  moduleIdRaw <- get_opt "id" module ;;
  moduleId <- toString_opt moduleIdRaw ;;
  moduleName <- get_opt "name" module ;;
  Ok (VObj [("parentId", parentId);
            ("parentName",
              if truthy parent then getReflectionName parent else VUndef);
            ("parentKind",
              if truthy parent then getReflectionKind parent else VUndef);
            ("childrenIds", childrenIds);
            ("moduleId", moduleId);
            ("moduleName", moduleName)]).

(** [tokens.filter((t) => t && t.length > 0)] *)
Definition keepToken (t : value) : result bool :=
  if truthy t then len <- get "length" t ;; gt_zero len else Ok false.

(** The tokens pushed by the [forEach] over the block tags *)
Definition tagTokens (tag : value) : result (list value) :=
  t <- get "tag" tag ;;
  if is_str t "@example" || is_str t "@tutorial" then
    content <- get "content" tag ;;
    text <- extractCommentParts content ;;
    Ok (map VStr (firstn 5 (split_ws text)))
  else Ok [].

Definition generateSearchTokens (reflection fullPath : value)
  : result (list value) :=
  name <- get "name" reflection ;;
  kind <- get "kind" reflection ;;
  let tokens := [name; fullPath; kind] in
  doc <- extractDocumentation reflection ;;
  summary <- get "summary" doc ;;
  s <- to_string summary ;;
  let summaryTokens := map VStr (firstn 10 (split_ws s)) in
  let tokens := (tokens ++ summaryTokens)%list in
  comment <- get "comment" reflection ;;
  blockTags <- get_opt "blockTags" comment ;;
  tokens <- (if truthy blockTags then
               pushed <- map_method tagTokens blockTags ;;
               Ok (tokens ++ concat pushed)%list
             else Ok tokens) ;;
  filterM keepToken tokens.

(** ExtractedDocumentation of types.ts *)
Record ExtractedDocumentation : Type := mkDoc {
  id : string;
  name : value;
  kind : value;
  fullPath : value;
  documentation : value;
  types : value;
  signatures : list value;
  parameters : list value;
  tags : TagsDetail;
  hierarchy : value;
  source : value;
  modifiers : value;
  defaultValue : value;
  searchTokens : list value;
  rawJSON : value
}.

Definition extractAllDocumentation (reflection path : value)
  : result ExtractedDocumentation :=
  name <- get "name" reflection ;;
  fullPath <- (if truthy path then
                 p <- to_string path ;;
                 n <- to_string name ;;
                 Ok (VStr (p ++ "." ++ n))
               else Ok name) ;;
  i <- get "id" reflection ;;
  id <- toString_method i ;;
  kind <- get "kind" reflection ;;
  documentation <- extractDocumentation reflection ;;
  types <- extractTypeInformation reflection ;;
  signatures <- extractSignatures reflection ;;
  parameters <- extractParameters reflection ;;
  tags <- extractAllTags reflection ;;
  hierarchy <- extractHierarchy reflection ;;
  source <- extractSourceInfo reflection ;;
  modifiers <- extractModifiers reflection ;;
  defaultValue <- get "defaultValue" reflection ;;
  searchTokens <- generateSearchTokens reflection fullPath ;;
  Ok (mkDoc id name kind fullPath documentation types signatures parameters
        tags hierarchy source modifiers defaultValue searchTokens reflection).

End Extractor.

(* ================================================================== *)
(** * processor.ts *)
(* ================================================================== *)

Module Processor.
Import JS Str Extractor.

(** What the walk has done so far: the records pushed to [this.allDocs] and
    the names printed by [console.warn], both oldest first. *)
Record state : Type := mkState {
  allDocs : list ExtractedDocumentation;
  warnings : list string
}.

Definition push (doc : ExtractedDocumentation) (st : state) : state :=
  mkState (allDocs st ++ [doc])%list (warnings st).

Definition warn (name : string) (st : state) : state :=
  mkState (allDocs st) (warnings st ++ [name])%list.

(** How a statement ends: normally, or by an exception that is still in
    flight. The state is kept in both cases, since the pushes made before
    the exception stay. *)
Definition completion : Type := result unit.

(** The [catch] block: [console.warn(`... ${reflection.name}:`, error)] *)
Definition handler (reflection : value) (st : state) : state * completion :=
  match (name <- get "name" reflection ;; to_string name) with
  | Ok n => (warn n st, Ok tt)
  | Throw => (st, Throw)
  | OutOfFuel => (st, OutOfFuel)
  | Unmodelled => (st, Unmodelled)
  end.

Definition raise {A} (st : state) (r : result A) : state * completion :=
  match r with
  | Ok _ => (st, Ok tt)
  | Throw => (st, Throw)
  | OutOfFuel => (st, OutOfFuel)
  | Unmodelled => (st, Unmodelled)
  end.

Section Walk.

(** The recursive call [this.processReflections(children, project, path)] *)
Variable recurse : value -> value -> state -> state * completion.

(** [reflection.children && reflection.children.length > 0] *)
Definition hasChildren (reflection : value) : result bool :=
  children <- get "children" reflection ;;
  if truthy children then len <- get "length" children ;; gt_zero len
  else Ok false.

(** One turn of the loop: the [try] block and its [catch]. *)
Definition visit (parentPath reflection : value) (st : state)
  : state * completion :=
  match extractAllDocumentation reflection parentPath with
  | Ok doc =>
      let st1 := push doc st in
      let '(st2, c) :=
        match hasChildren reflection with
        | Ok true => recurse (field_of "children" reflection) (fullPath doc) st1
        | Ok false => (st1, Ok tt)
        | r => raise st1 r
        end in
      match c with
      | Throw => handler reflection st2
      | _ => (st2, c)
      end
  | Throw => handler reflection st
  | r => raise st r
  end.

(** [for (const reflection of reflections)] *)
Fixpoint loop (parentPath : value) (l : list value) (st : state)
  : state * completion :=
  match l with
  | [] => (st, Ok tt)
  | reflection :: rest =>
      let '(st', c) := visit parentPath reflection st in
      match c with
      | Ok _ => loop parentPath rest st'
      | _ => (st', c)
      end
  end.

Definition processReflections_body (reflections parentPath : value) (st : state)
  : state * completion :=
  match iterate reflections with
  | Ok l => loop parentPath l st
  | r => raise st r
  end.

End Walk.

(** processReflections: every call spends one unit of [fuel]. *)
Fixpoint processReflections (fuel : nat) (reflections parentPath : value)
    (st : state) : state * completion :=
  match fuel with
  | O => (st, OutOfFuel)
  | S fuel' =>
      processReflections_body (processReflections fuel') reflections parentPath st
  end.

(** [s.toLowerCase()] on a search token: only strings have the method. *)
Definition toLowerCase_method (token : value) : result string :=
  match token with
  | VStr s => Ok (toLowerCase s)
  | _ => Throw
  end.

(** The inner loop of buildSearchIndex over [doc.searchTokens] *)
Fixpoint indexTokens (id : string) (tokens : list value)
    (index : list (string * value)) : result (list (string * value)) :=
  match tokens with
  | [] => Ok index
  | token :: rest =>
      lower <- toLowerCase_method token ;;
      index' <- push_to ("token:" ++ lower) (VStr id) index ;;
      indexTokens id rest index'
  end.

Definition indexDoc (index : list (string * value)) (doc : ExtractedDocumentation)
  : result (list (string * value)) :=
  let index := set_prop ("id:" ++ id doc)
                 (VObj [("name", name doc); ("kind", kind doc);
                        ("fullPath", fullPath doc)]) index in
  p <- to_string (fullPath doc) ;;
  let index := set_prop ("path:" ++ p) (VStr (id doc)) index in
  indexTokens (id doc) (searchTokens doc) index.

Fixpoint indexDocs (docs : list ExtractedDocumentation)
    (index : list (string * value)) : result (list (string * value)) :=
  match docs with
  | [] => Ok index
  | doc :: rest => index' <- indexDoc index doc ;; indexDocs rest index'
  end.

Definition buildSearchIndex (docs : list ExtractedDocumentation)
  : result (list (string * value)) :=
  indexDocs docs [].

End Processor.

(* ================================================================== *)
(** * Well-formed Type Expression trees (spec.md, section 3) *)
(* ================================================================== *)

Module TypeExpression.
Import JS TypeConverter.

Definition is_string (v : value) : bool :=
  match v with VStr _ => true | _ => false end.

(** A string-valued field that may be missing *)
Definition opt_string (v : value) : bool :=
  match v with VUndef | VStr _ => true | _ => false end.

(** A value that string interpolation can print: anything but an object
    that carries an own [toString], or an array that holds one *)
Definition printable (v : value) : bool :=
  match to_string v with
  | Ok _ => true
  | _ => false
  end.

(** JSON data none of whose objects has an array-index key: JavaScript
    prints such keys ahead of the others, an order that [JSON_stringify]
    does not model. *)
Definition plain_props (plain : value -> bool)
  : list (string * value) -> bool :=
  fix go (l : list (string * value)) : bool :=
    match l with
    | [] => true
    | (k, v) :: r => negb (is_index_key k) && plain v && go r
    end.

Fixpoint plain_json (v : value) : bool :=
  match v with
  | VArr l => forallb plain_json l
  | VObj ps => plain_props plain_json ps
  | _ => true
  end.

(** The payload of a literal: a primitive; a signed big integer, given by
    its sign under [negative] and its digits under [value], whose digits can
    be printed; or any other array or object, which is dumped as JSON. *)
Definition literal_ok (v : value) : bool :=
  match v with
  | VUndef | VNull | VBool _ | VNum _ | VStr _ => true
  | VArr _ | VObj _ =>
      match field_of "negative" v, field_of "value" v with
      | VUndef, _ | _, VUndef => plain_json v
      | _, digits => printable digits
      end
  end.

(** [wf t]: every node of [t] carries the list payload its tag asks for, and
    each of its textual fields is a string or is missing. The wrapped type
    expressions may be missing too. A node with an unrecognized tag is well
    formed. One node is kept out: a predicate that has no name, no truthy
    [asserts] and no target type, for which handlePredicate returns
    [undefined]. *)
Inductive wf : value -> Prop :=
| wf_undefined : wf VUndef
| wf_null : wf VNull
| wf_plain_string (s : string) : wf (VStr s)
| wf_intrinsic ps :
    classify (field "type" ps) = CIntrinsic ->
    opt_string (field "name" ps) = true ->
    wf (VObj ps)
| wf_reference ps :
    classify (field "type" ps) = CReference ->
    opt_string (field "name" ps) = true ->
    field "typeArguments" ps = VUndef ->
    wf (VObj ps)
| wf_reference_args ps args :
    classify (field "type" ps) = CReference ->
    opt_string (field "name" ps) = true ->
    field "typeArguments" ps = VArr args ->
    Forall wf args ->
    wf (VObj ps)
| wf_array ps :
    classify (field "type" ps) = CArray ->
    wf (field "elementType" ps) ->
    wf (VObj ps)
| wf_union ps members :
    classify (field "type" ps) = CUnion ->
    field "types" ps = VArr members ->
    Forall wf members ->
    wf (VObj ps)
| wf_intersection ps members :
    classify (field "type" ps) = CIntersection ->
    field "types" ps = VArr members ->
    Forall wf members ->
    wf (VObj ps)
| wf_literal ps :
    classify (field "type" ps) = CLiteral ->
    literal_ok (field "value" ps) = true ->
    wf (VObj ps)
| wf_tuple ps elements :
    classify (field "type" ps) = CTuple ->
    field "elements" ps = VArr elements ->
    Forall wf elements ->
    wf (VObj ps)
| wf_namedTupleMember ps :
    classify (field "type" ps) = CNamedTupleMember ->
    opt_string (field "name" ps) = true ->
    wf (field "element" ps) ->
    wf (VObj ps)
| wf_reflection_bare ps :
    classify (field "type" ps) = CReflection ->
    truthy (field "declaration" ps) = false ->
    wf (VObj ps)
| wf_reflection_object ps decl children :
    classify (field "type" ps) = CReflection ->
    field "declaration" ps = VObj decl ->
    field "children" decl = VArr children ->
    Forall (fun child => exists cps, child = VObj cps
                         /\ opt_string (field "name" cps) = true
                         /\ wf (field "type" cps)) children ->
    wf (VObj ps)
| wf_reflection_function ps decl sig others :
    classify (field "type" ps) = CReflection ->
    field "declaration" ps = VObj decl ->
    field "children" decl = VUndef ->
    field "signatures" decl = VArr (VObj sig :: others) ->
    field "parameters" sig = VUndef ->
    wf (field "type" sig) ->
    wf (VObj ps)
| wf_reflection_function_params ps decl sig others params :
    classify (field "type" ps) = CReflection ->
    field "declaration" ps = VObj decl ->
    field "children" decl = VUndef ->
    field "signatures" decl = VArr (VObj sig :: others) ->
    field "parameters" sig = VArr params ->
    Forall (fun p => exists pps, p = VObj pps
                     /\ opt_string (field "name" pps) = true
                     /\ wf (field "type" pps)) params ->
    wf (field "type" sig) ->
    wf (VObj ps)
| wf_reflection_empty ps decl :
    classify (field "type" ps) = CReflection ->
    field "declaration" ps = VObj decl ->
    field "children" decl = VUndef ->
    field "signatures" decl = VUndef ->
    wf (VObj ps)
| wf_optional ps :
    classify (field "type" ps) = COptional ->
    wf (field "elementType" ps) ->
    wf (VObj ps)
| wf_rest ps :
    classify (field "type" ps) = CRest ->
    wf (field "elementType" ps) ->
    wf (VObj ps)
| wf_conditional ps :
    classify (field "type" ps) = CConditional ->
    wf (field "checkType" ps) ->
    wf (field "extendsType" ps) ->
    wf (field "trueType" ps) ->
    wf (field "falseType" ps) ->
    wf (VObj ps)
| wf_inferred ps :
    classify (field "type" ps) = CInferred ->
    opt_string (field "name" ps) = true ->
    wf (field "constraint" ps) ->
    wf (VObj ps)
| wf_indexedAccess ps :
    classify (field "type" ps) = CIndexedAccess ->
    wf (field "objectType" ps) ->
    wf (field "indexType" ps) ->
    wf (VObj ps)
| wf_mapped ps :
    classify (field "type" ps) = CMapped ->
    opt_string (field "parameter" ps) = true ->
    opt_string (field "readonlyModifier" ps) = true ->
    opt_string (field "optionalModifier" ps) = true ->
    wf (field "parameterType" ps) ->
    wf (field "templateType" ps) ->
    wf (field "nameType" ps) ->
    wf (VObj ps)
| wf_typeOperator ps :
    classify (field "type" ps) = CTypeOperator ->
    opt_string (field "operator" ps) = true ->
    wf (field "target" ps) ->
    wf (VObj ps)
| wf_query ps :
    classify (field "type" ps) = CQuery ->
    wf (field "queryType" ps) ->
    wf (VObj ps)
| wf_templateLiteral ps tail :
    classify (field "type" ps) = CTemplateLiteral ->
    opt_string (field "head" ps) = true ->
    field "tail" ps = VArr tail ->
    Forall (fun pair => exists t s, pair = VArr [t; s]
                        /\ opt_string s = true /\ wf t) tail ->
    wf (VObj ps)
| wf_predicate ps :
    classify (field "type" ps) = CPredicate ->
    opt_string (field "name" ps) = true ->
    is_string (field "name" ps) || truthy (field "asserts" ps)
    || truthy (field "targetType" ps) = true ->
    wf (field "targetType" ps) ->
    wf (VObj ps)
| wf_unrecognized ps :
    classify (field "type" ps) = CDefault ->
    opt_string (field "name" ps) = true ->
    wf (VObj ps).

End TypeExpression.

(* ================================================================== *)
(** * What the search index holds (spec.md, section 6) *)
(* ================================================================== *)

Module IndexSpec.
Import JS Str Extractor.

(** A record as types.ts declares it: the full path and the search tokens
    are strings. *)
Definition typed (d : ExtractedDocumentation) : Prop :=
  (exists p, fullPath d = VStr p)
  /\ Forall (fun t => exists s, t = VStr s) (searchTokens d).

Definition pathOf (d : ExtractedDocumentation) : string :=
  match fullPath d with VStr p => p | _ => EmptyString end.

Definition strings (l : list value) : list string :=
  flat_map (fun t => match t with VStr s => [s] | _ => [] end) l.

(** The entry under ["id:" + id] *)
Definition entryOf (d : ExtractedDocumentation) : value :=
  VObj [("name", name d); ("kind", kind d); ("fullPath", fullPath d)].

(** The last record, in processing order, that satisfies [p] *)
Definition last_where (p : ExtractedDocumentation -> bool)
    (docs : list ExtractedDocumentation) : option ExtractedDocumentation :=
  find p (rev docs).

(** The ids appended under ["token:" + k] by one record, one for each of
    its tokens that lowercases to [k], and by a collection of records in
    processing order *)
Definition idsOfRecord (k : string) (d : ExtractedDocumentation) : list string :=
  flat_map (fun t => if toLowerCase t =? k then [id d] else [])
    (strings (searchTokens d)).

Definition idsOf (k : string) (docs : list ExtractedDocumentation) : list string :=
  flat_map (idsOfRecord k) docs.

(** The list under a token key after [ids] have been pushed to what was
    there *)
Definition extend_ids (o : option value) (ids : list string) : option value :=
  match ids with
  | [] => o
  | _ => Some (VArr ((match o with Some (VArr l) => l | _ => [] end)
                     ++ map VStr ids)%list)
  end.

(** Only arrays are stored under the token keys. *)
Definition arrays_under_tokens (index : list (string * value)) : Prop :=
  forall k v, lookup ("token:" ++ k) index = Some v -> exists l, v = VArr l.

End IndexSpec.

(* ================================================================== *)
(** * The signature format (spec.md, section 4.3) *)
(* ================================================================== *)

Module SignatureSpec.
Import JS.

(** A parameter as the specification sees it: its name, its rendered type,
    the rest and optional flags, and the default value when one is set. *)
Record Param : Type := mkParam {
  p_name : string;
  p_type : string;
  p_rest : bool;
  p_optional : bool;
  p_default : option string
}.

(** [[...]name[?]: type[ = default]] *)
Definition parameterText (p : Param) : string :=
  (if p_rest p then "..." else EmptyString)
  ++ p_name p
  ++ (if p_optional p then "?" else EmptyString)
  ++ ": " ++ p_type p
  ++ (match p_default p with
      | Some d => " = " ++ d
      | None => EmptyString
      end).

Definition parameterClause (ps : list Param) : string :=
  String.concat ", " (map parameterText ps).

(** ["{name}{typeParams}({params}): {returnType}"] *)
Definition signatureText (name typeParams : string) (ps : list Param)
    (returnType : string) : string :=
  name ++ typeParams ++ "(" ++ parameterClause ps ++ "): " ++ returnType.

(** The parameter node [v] of the input carries the parameter [p]: the
    flags sit under [flags], a flag is set when it is truthy, and the default
    value is set when it is a non-empty string. *)
Definition encodes (p : Param) (v : value) : Prop :=
  exists pps,
    v = VObj pps
    /\ field "name" pps = VStr (p_name p)
    /\ SignatureBuilder.typeString (field "type" pps) = Ok (p_type p)
    /\ truthy (field_opt "isRest" (field "flags" pps)) = p_rest p
    /\ truthy (field_opt "isOptional" (field "flags" pps)) = p_optional p
    /\ match p_default p with
       | Some d => field "defaultValue" pps = VStr d /\ d <> EmptyString
       | None => truthy (field "defaultValue" pps) = false
       end.

End SignatureSpec.

(* ================================================================== *)
(** * Block tags and search tokens (spec.md, section 4.4) *)
(* ================================================================== *)

Module TagSpec.
Import JS Str Extractor.

(** The tag names that extractAllTags has a case for *)
Definition recognized_names : list string :=
  ["@example"; "@tutorial"; "@tutorials"; "@see"; "@throws"; "@throw";
   "@returns"; "@return"; "@param"; "@typeParam"; "@template"].

Definition recognized (k : string) : bool :=
  existsb (String.eqb k) recognized_names.

(** [tag.tag === k] *)
Definition named (k : string) (tag : value) : bool :=
  is_str (field_of "tag" tag) k.

(** The rendered content of a block tag *)
Definition contentText (tag : value) : string :=
  match extractCommentParts (field_of "content" tag) with
  | Ok d => d
  | _ => EmptyString
  end.

(** A block tag that generateSearchTokens can read: an object whose
    content renders when it is an @example or a @tutorial tag *)
Definition tokenizable (tag : value) : Prop :=
  exists tps, tag = VObj tps
              /\ (named "@example" tag || named "@tutorial" tag = true ->
                  exists d, extractCommentParts (field "content" tps) = Ok d).

(** A block tag that extractAllTags can file: its tag name is a string that
    is not the name of a property inherited from [Object.prototype], its
    content renders, and so does its type expression when it has one. *)
Definition acceptable (tag : value) : Prop :=
  exists tps t,
    tag = VObj tps
    /\ field "tag" tps = VStr t
    /\ inherited t = false
    /\ (exists d, extractCommentParts (field "content" tps) = Ok d)
    /\ (truthy (field "typeExpression" tps) = true ->
        exists r, typeToString (field "typeExpression" tps) = Ok r).

(** What is read off an entry of [paramTags] *)
Definition paramEntry (e : value) : value * value :=
  (field_of "paramName" e, field_of "description" e).

(** The custom-tag lists are arrays. *)
Definition arrays_only (custom : list (string * value)) : Prop :=
  forall k v, lookup k custom = Some v -> exists l, v = VArr l.

(** The list under a custom tag name after [texts] have been pushed *)
Definition extend (o : option value) (texts : list value) : option value :=
  match texts with
  | [] => o
  | _ => Some (VArr ((match o with Some (VArr l) => l | _ => [] end)
                     ++ texts)%list)
  end.

(** A JSON value that is not an array or an object. A name, a path or a
    kind of this sort gives a token when it is a string: a number, a boolean
    and null have no positive [length], and the token filter drops them as it
    drops the empty string. *)
Definition scalar (v : value) : bool :=
  match v with
  | VArr _ | VObj _ => false
  | _ => true
  end.

(** The string that a scalar contributes, empty for what is not a string *)
Definition textOf (v : value) : string :=
  match v with
  | VStr s => s
  | _ => EmptyString
  end.

(** The search tokens, in the words of the specification: name, full path
    and kind, the first ten white-space separated pieces of the summary, the
    first five pieces of the text of every @example or @tutorial block tag;
    then the empty ones are dropped. *)
Definition searchTokensOf (name path kind summary : string)
    (blockTags : list value) : list string :=
  filter (fun t => negb (t =? EmptyString))
    ([name; path; kind]
     ++ firstn 10 (split_ws summary)
     ++ flat_map (fun tag =>
          if named "@example" tag || named "@tutorial" tag
          then firstn 5 (split_ws (contentText tag))
          else []) blockTags)%list.

End TagSpec.

(* ================================================================== *)
(** * Sample inputs *)
(* ================================================================== *)

Module Samples.
Import JS.

Definition intrinsic (name : string) : value :=
  VObj [("type", VStr "intrinsic"); ("name", VStr name)].

Definition union_of (members : list value) : value :=
  VObj [("type", VStr "union"); ("types", VArr members)].

Definition sample_tree : value :=
  VObj [("type", VStr "tuple");
        ("elements",
          VArr [union_of [intrinsic "string"; VObj [("type", VStr "mystery")]];
                VObj [("type", VStr "array")];
                VObj [("type", VStr "templateLiteral"); ("head", VStr "id-");
                      ("tail", VArr [VArr [intrinsic "number"; VStr "px"]])]])].

(** A comment text made of one plain part *)
Definition text (s : string) : value :=
  VArr [VObj [("kind", VStr "text"); ("text", VStr s)]].

Definition declaration (id : Z) (name kind : string)
    (more : list (string * value)) : value :=
  VObj (("id", VNum id) :: ("name", VStr name) :: ("kind", VStr kind) :: more).

(** Three siblings: the second has no [id], so [reflection.id.toString()]
    throws while its record is assembled; the third has one child. *)
Definition first_sibling : value :=
  declaration 1 "alpha" "Function"
    [("comment", VObj [("summary", text "Adds two numbers")])].

Definition second_sibling : value :=
  VObj [("name", VStr "broken"); ("kind", VStr "Class");
        ("children", VArr [declaration 7 "lost" "Method" []])].

Definition third_sibling : value :=
  declaration 3 "gamma" "Class"
    [("children", VArr [declaration 4 "delta" "Method" []])].

(** The declaration [f] with one signature: a parameter [x] of intrinsic
    type number, neither optional nor rest, and return type void *)
Definition f_declaration : list (string * value) := [("name", VStr "f")].

Definition f_signature : list (string * value) :=
  [("parameters",
     VArr [VObj [("name", VStr "x"); ("type", intrinsic "number");
                 ("isOptional", VBool false); ("isRest", VBool false)]]);
   ("type", intrinsic "void")].

(** A signature that uses every part of the parameter format *)
Definition g_signature : list (string * value) :=
  [("parameters",
     VArr [VObj [("name", VStr "first"); ("type", intrinsic "string")];
           VObj [("name", VStr "count"); ("type", intrinsic "number");
                 ("flags", VObj [("isOptional", VBool true)]);
                 ("defaultValue", VStr "1")];
           VObj [("name", VStr "more");
                 ("type", VObj [("type", VStr "array");
                                ("elementType", intrinsic "string")]);
                 ("flags", VObj [("isRest", VBool true)])]]);
   ("type", intrinsic "void")].

(** A method whose only overload has no [type] field *)
Definition untyped_overload : list (string * value) :=
  [("name", VStr "delta");
   ("parameters", VArr [VObj [("name", VStr "x"); ("type", intrinsic "number")]])].

Definition untyped_method : list (string * value) :=
  [("id", VNum 4); ("name", VStr "delta"); ("kind", VStr "Method");
   ("signatures", VArr [VObj untyped_overload])].

(** The block tags of the specification example: a @param tag named [x]
    and a tag with the unrecognized name @custom *)
Definition example_tags : list value :=
  [VObj [("tag", VStr "@param"); ("name", VStr "x"); ("content", text "the x")];
   VObj [("tag", VStr "@custom"); ("content", text "hello")]].

(** A documented function with a summary and an @example tag *)
Definition documented : list (string * value) :=
  [("id", VNum 9); ("name", VStr "add"); ("kind", VStr "Function");
   ("comment",
     VObj [("summary", text " Adds  two numbers");
           ("blockTags",
             VArr [VObj [("tag", VStr "@example");
                         ("content", text "add(1, 2) gives 3 and no more")];
                   VObj [("tag", VStr "@see"); ("content", text "sub")]])])].

(** Records as the walk leaves them, reduced to what the index reads *)
Definition record (id name path : string) (tokens : list string)
  : Extractor.ExtractedDocumentation :=
  Extractor.mkDoc id (VStr name) (VStr "Function") (VStr path)
    VUndef VUndef [] [] Extractor.emptyTags VUndef VUndef VUndef VUndef
    (map VStr tokens) VUndef.

Definition sample_records : list Extractor.ExtractedDocumentation :=
  [record "1" "Foo" "Foo" ["Foo"; "Foo"; "Function"];
   record "2" "foo" "lib.foo" ["foo"; "lib.foo"; "Function"]].

(** Two records that share their full path *)
Definition twin (id : Z) : value := declaration id "dup" "Function" [].

End Samples.

(* ================================================================== *)
(** * Outcomes of a run *)
(* ================================================================== *)

Module Outcome.
Import JS.

(** The run ended the way JavaScript code ends, with a value or with an
    exception: the model neither ran out of fuel nor left its fragment. *)
Definition settled {A} (r : result A) : Prop :=
  r <> OutOfFuel /\ r <> Unmodelled.

(** The run ended with a value. *)
Definition returns {A} (r : result A) : bool :=
  match r with
  | Ok _ => true
  | _ => false
  end.

(** What [join] prints for one element of the array *)
Definition piece (v : value) : result string :=
  match v with
  | VUndef | VNull => Ok EmptyString
  | _ => to_string v
  end.

End Outcome.

(* ================================================================== *)
(** * Comment parts and block tags *)
(* ================================================================== *)

Module CommentSpec.
Import JS Str.

(** The parts that the private extractCommentParts of signature-builder.ts
    renders: all but the inline tags and the code spans *)
Definition plainPart (part : value) : bool :=
  negb (is_str (field_of "kind" part) "inline-tag"
        || is_str (field_of "kind" part) "code-span").

(** A block tag whose content renders when its name is [k] *)
Definition readable (k : string) (tag : value) : Prop :=
  exists tps,
    tag = VObj tps
    /\ (is_str (field "tag" tps) k = true ->
        exists d, CommentParser.extractCommentParts (field "content" tps) = Ok d).

(** The rendered contents of the @author tags, in the order of the tags *)
Definition authorsOf (tags : list value) : list value :=
  map (fun tag => VStr (TagSpec.contentText tag))
      (filter (TagSpec.named "@author") tags).

(** The first and the last character of a string *)
Definition first_char (s : string) : option ascii :=
  match s with
  | EmptyString => None
  | String c _ => Some c
  end.

Fixpoint last_char (s : string) : option ascii :=
  match s with
  | EmptyString => None
  | String c r =>
      match last_char r with
      | Some d => Some d
      | None => Some c
      end
  end.

(** No character, or one that is not white space *)
Definition bare (o : option ascii) : bool :=
  match o with
  | Some c => negb (is_ws c)
  | None => true
  end.

(** A string that neither starts nor ends with white space: it is empty,
    or its first and its last character are not white space. *)
Definition trimmed (s : string) : Prop :=
  bare (first_char s) = true /\ bare (last_char s) = true.

Definition text_part (s : string) : value :=
  VObj [("kind", VStr "text"); ("text", VStr s)].

Definition code_part (s : string) : value :=
  VObj [("kind", VStr "code"); ("text", VStr s)].

Definition link_part (text target : string) : value :=
  VObj [("kind", VStr "inline-tag"); ("tag", VStr "@link");
        ("text", VStr text); ("target", VStr target)].

Definition author_tags : list value :=
  [VObj [("tag", VStr "@author"); ("content", VArr [text_part "Ada"])];
   VObj [("tag", VStr "@see"); ("content", VArr [text_part "other"])];
   VObj [("tag", VStr "@author");
         ("content", VArr [text_part "Grace "; code_part "gh"])]].

End CommentSpec.

(* ================================================================== *)
(** * The text of the composite type expressions *)
(* ================================================================== *)

Module TypeFormat.
Import JS.

(** [v || d] for a name that is a string or is missing *)
Definition nameOr (d : string) (v : value) : string :=
  match v with
  | VStr s => if s =? EmptyString then d else s
  | _ => d
  end.

(** [name<arg, ...>], the bare name when there are no arguments *)
Definition referenceText (name : string) (args : list string) : string :=
  match args with
  | [] => name
  | _ => name ++ "<" ++ String.concat ", " args ++ ">"
  end.

(** [{ name: type; ... }] *)
Definition memberText (m : string * string) : string :=
  fst m ++ ": " ++ snd m.

Definition objectText (members : list (string * string)) : string :=
  "{ " ++ String.concat "; " (map memberText members) ++ " }".

(** The node [child] is a member with the name and the type text of [m];
    a member without a type has the type text any. *)
Definition member (child : value) (m : string * string) : Prop :=
  exists cps,
    child = VObj cps
    /\ field "name" cps = VStr (fst m)
    /\ if truthy (field "type" cps)
       then TypeConverter.render (field "type" cps) = Ok (VStr (snd m))
       else snd m = "any".

(** One interpolation of a template literal and the text after it *)
Definition spanText (sp : string * string) : string :=
  "${" ++ fst sp ++ "}" ++ snd sp.

Definition templateText (head : string) (spans : list (string * string)) : string :=
  "`" ++ head ++ String.concat EmptyString (map spanText spans) ++ "`".

Definition span (pair : value) (sp : string * string) : Prop :=
  exists t,
    pair = VArr [t; VStr (snd sp)]
    /\ TypeConverter.render t = Ok (VStr (fst sp)).

Definition array_of (e : value) : value :=
  VObj [("type", VStr "array"); ("elementType", e)].

Definition reference_to (name : string) (args : list value) : value :=
  VObj [("type", VStr "reference"); ("name", VStr name);
        ("typeArguments", VArr args)].

(** A function shape with the given call signatures *)
Definition function_shape (signatures : list value) : value :=
  VObj [("type", VStr "reflection");
        ("declaration", VObj [("signatures", VArr signatures)])].

Definition object_shape (children : list value) : value :=
  VObj [("type", VStr "reflection");
        ("declaration", VObj [("children", VArr children)])].

Definition template (head : string) (tail : list value) : value :=
  VObj [("type", VStr "templateLiteral"); ("head", VStr head);
        ("tail", VArr tail)].

End TypeFormat.

(* ================================================================== *)
(** * Type parameter lists and index signatures *)
(* ================================================================== *)

Module SignatureShapes.
Import JS.

(** A type parameter: its name, the text of its constraint and the text of
    its default, when it has them *)
Record TypeParam : Type := mkTypeParam {
  tp_name : string;
  tp_constraint : option string;
  tp_default : option string
}.

(** [name[ extends constraint][ = default]] *)
Definition typeParameterText (tp : TypeParam) : string :=
  tp_name tp
  ++ (match tp_constraint tp with
      | Some c => " extends " ++ c
      | None => EmptyString
      end)
  ++ (match tp_default tp with
      | Some d => " = " ++ d
      | None => EmptyString
      end).

(** [<T, ...>], nothing at all for no type parameter *)
Definition typeParameterClause (tps : list TypeParam) : string :=
  match tps with
  | [] => EmptyString
  | _ => "<" ++ String.concat ", " (map typeParameterText tps) ++ ">"
  end.

(** The field [v] holds the type expression whose text is [o], or holds
    nothing *)
Definition carries (o : option string) (v : value) : Prop :=
  match o with
  | Some s => truthy v = true /\ SignatureBuilder.typeString v = Ok s
  | None => truthy v = false
  end.

Definition encodesTypeParam (tp : TypeParam) (v : value) : Prop :=
  exists tpps,
    v = VObj tpps
    /\ field "name" tpps = VStr (tp_name tp)
    /\ carries (tp_constraint tp) (field "type" tpps)
    /\ carries (tp_default tp) (field "default" tpps).

(** A parameter of an index signature with its name and the text of its
    type *)
Definition indexParameter (v : value) (m : string * string) : Prop :=
  exists pps,
    v = VObj pps
    /\ field "name" pps = VStr (fst m)
    /\ SignatureBuilder.typeString (field "type" pps) = Ok (snd m).

(** [[name: type, ...]: returnType] *)
Definition indexSignatureText (params : list (string * string))
    (returnType : string) : string :=
  "[" ++ String.concat ", " (map TypeFormat.memberText params) ++ "]: "
  ++ returnType.

Definition type_parameters : list value :=
  [VObj [("name", VStr "K"); ("type", Samples.intrinsic "string")];
   VObj [("name", VStr "V"); ("default", Samples.intrinsic "unknown")];
   VObj [("name", VStr "W"); ("type", Samples.intrinsic "object");
         ("default", Samples.intrinsic "never")]].

Definition index_signature : list (string * value) :=
  [("parameters",
     VArr [VObj [("name", VStr "key"); ("type", Samples.intrinsic "string")]]);
   ("type", Samples.intrinsic "number")].

End SignatureShapes.

(* ================================================================== *)
(** * What a record is read from *)
(* ================================================================== *)

Module ExtractionShapes.
Import JS Extractor.

(** The number of texts filed under a custom tag name *)
Definition weight (v : value) : nat :=
  match v with
  | VArr l => List.length l
  | _ => 0
  end.

Fixpoint customCount (custom : list (string * value)) : nat :=
  match custom with
  | [] => 0
  | (_, v) :: r => weight v + customCount r
  end.

(** The number of entries of a TagsDetail, the code blocks of the examples
    apart *)
Definition filed (tags : TagsDetail) : nat :=
  List.length (examples tags) + List.length (tutorials tags)
  + List.length (seeTags tags) + List.length (throwsTags tags)
  + List.length (returnsTags tags) + List.length (paramTags tags)
  + List.length (typeparamTags tags) + customCount (customTags tags).

(** The elements that a loop over [v] visits when [v] is truthy *)
Definition listOf (v : value) : list value :=
  if truthy v then
    match iterate v with
    | Ok l => l
    | _ => []
    end
  else [].

(** The block tags of the comment of a reflection *)
Definition blockTagsOf (rps : list (string * value)) : list value :=
  listOf (field_opt "blockTags" (field "comment" rps)).

(** The names of the signature records of a reflection: its overloads, its
    getter, its setter, its index signatures *)
Definition signatureNames (rps : list (string * value)) : list value :=
  (map (field_of "name") (listOf (field "signatures" rps))
   ++ (if truthy (field "getSignature" rps) then [VStr "getter"] else [])
   ++ (if truthy (field "setSignature" rps) then [VStr "setter"] else [])
   ++ map (fun _ => VStr "__index") (listOf (field "indexSignatures" rps)))%list.

(** A property with a getter, a setter and one call signature *)
(** The first entry of [sources], the value of [reflection.sources?.[0]] *)
Definition firstSource (rps : list (string * value)) : value :=
  match field "sources" rps with
  | VUndef | VNull => VUndef
  | sources => match index 0 sources with Ok x => x | _ => VUndef end
  end.

(** The documentation of a declaration that has no comment *)
Definition bareDocumentation (isDeprecated : value) : value :=
  VObj [("summary", VStr EmptyString);
        ("description", VStr EmptyString);
        ("remarks", VStr EmptyString);
        ("deprecated",
          VObj [("isDeprecated", or_else isDeprecated (VBool false));
                ("message", VUndef)]);
        ("license", VUndef);
        ("copyright", VUndef);
        ("author", VArr []);
        ("since", VUndef)].

Definition accessor_property : list (string * value) :=
  [("id", VNum 5); ("name", VStr "size"); ("kind", VStr "Accessor");
   ("signatures",
     VArr [VObj [("name", VStr "size"); ("type", Samples.intrinsic "number")]]);
   ("getSignature", VObj [("type", Samples.intrinsic "number")]);
   ("setSignature",
     VObj [("type", Samples.intrinsic "number");
           ("parameters",
             VArr [VObj [("name", VStr "n");
                         ("type", Samples.intrinsic "number")]])]);
   ("indexSignatures", VArr [VObj SignatureShapes.index_signature])].

End ExtractionShapes.

(* ================================================================== *)
(** * What the walk is asked to leave (spec.md, section 4.5) *)
(* ================================================================== *)

Module WalkSpec.
Import JS Extractor Processor.




End WalkSpec.

(* ================================================================== *)
(** * Forests of plain declarations *)
(* ================================================================== *)

Module Forest.
Import JS Extractor Processor.

(** [st'] holds what [st] holds, in the same order, and maybe more after
    it. *)
Definition grows (st st' : state) : Prop :=
  (exists docs, allDocs st' = (allDocs st ++ docs)%list)
  /\ (exists names, warnings st' = (warnings st ++ names)%list).

(** A declaration that has an id, a name, a kind and children, and nothing
    else *)
Inductive tree : Type :=
| Node (id : Z) (name kind : string) (children : list tree).

Fixpoint encode (t : tree) : value :=
  match t with
  | Node i n k children =>
      VObj [("id", VNum i); ("name", VStr n); ("kind", VStr k);
            ("children", VArr (map encode children))]
  end.

(** [path ? `${path}.${name}` : name] on strings *)
Definition dotted (path n : string) : string :=
  if path =? EmptyString then n else path ++ "." ++ n.

(** The id and the full path of every node below [path], a node before its
    children and the children in their order *)
Fixpoint flatten (path : string) (t : tree) : list (string * value) :=
  match t with
  | Node i n k children =>
      (Z_to_string i, VStr (dotted path n))
      :: flat_map (flatten (dotted path n)) children
  end.

Definition key (d : ExtractedDocumentation) : string * value :=
  (Extractor.id d, fullPath d).

Definition library : list tree :=
  [Node 1 "Stack" "Class"
     [Node 2 "push" "Method" []; Node 3 "pop" "Method" []];
   Node 4 "version" "Variable" []].

End Forest.

(* ================================================================== *)
(** * The three name spaces of the search index *)
(* ================================================================== *)

Module IndexShapes.
Import JS.

(** An entry of the index: a summary object under an [id:] key, an id under
    a [path:] key, a non-empty list under a [token:] key *)
Definition entry_ok (kv : string * value) : Prop :=
  (String.prefix "id:" (fst kv) = true /\ exists ps, snd kv = VObj ps)
  \/ (String.prefix "path:" (fst kv) = true /\ exists s, snd kv = VStr s)
  \/ (String.prefix "token:" (fst kv) = true
      /\ exists l, snd kv = VArr l /\ l <> []).

Definition string_tokens (d : Extractor.ExtractedDocumentation) : Prop :=
  Forall (fun t => exists s, t = VStr s) (Extractor.searchTokens d).

End IndexShapes.

(* ================================================================== *)
(** * cli.ts *)
(* ================================================================== *)

Module Cli.

(** The object that parseArgs builds. [outputPath] is [None] when it is
    [undefined]: the value of [args[++i]] past the end of the arguments. *)
Record options : Type := mkOptions {
  inputPath : string;
  outputPath : option string;
  includeRawJSON : bool;
  pretty : bool
}.

(** How parseArgs ends: by printing the usage and leaving with status 0, by
    reporting the missing file and leaving with status 1, or by returning
    the options. *)
Inductive outcome : Type :=
| Usage
| NotFound (path : string)
| Run (o : options).

Definition is_output (a : string) : bool := (a =? "-o") || (a =? "--output").
Definition is_help (a : string) : bool := (a =? "-h") || (a =? "--help").

(** The loop [for (let i = 1; i < args.length; i++)] over the arguments
    that are left: the case for -o and --output consumes the argument after
    it. *)
Fixpoint parseOptions (args : list string) (o : options) : outcome :=
  match args with
  | [] => Run o
  | a :: rest =>
      if is_output a then
        match rest with
        | [] => Run (mkOptions (inputPath o) None (includeRawJSON o) (pretty o))
        | v :: rest' =>
            parseOptions rest'
              (mkOptions (inputPath o) (Some v) (includeRawJSON o) (pretty o))
        end
      else if a =? "--raw" then
        parseOptions rest (mkOptions (inputPath o) (outputPath o) true (pretty o))
      else if a =? "--compact" then
        parseOptions rest
          (mkOptions (inputPath o) (outputPath o) (includeRawJSON o) false)
      else if is_help a then Usage
      else parseOptions rest o
  end.

Section ParseArgs.

(** [fs.existsSync] *)
Variable existsSync : string -> bool.

(** [args] is [process.argv.slice(2)]. *)
Definition parseArgs (args : list string) : outcome :=
  match args with
  | [] => Usage
  | first :: rest =>
      if is_help first then Usage
      else if negb (existsSync first) then NotFound first
      else parseOptions rest (mkOptions first (Some "./extracted-docs") false true)
  end.

End ParseArgs.

(** An argument that neither takes a value nor asks for the usage *)
Definition plain (a : string) : bool := negb (is_output a || is_help a).

(** The options after the flags among [l] have been seen *)
Definition flagged (o : options) (l : list string) : options :=
  mkOptions (inputPath o) (outputPath o)
    (includeRawJSON o || existsb (fun a => a =? "--raw") l)
    (pretty o && negb (existsb (fun a => a =? "--compact") l)).

Definition with_output (out : option string) (o : options) : options :=
  mkOptions (inputPath o) out (includeRawJSON o) (pretty o).

(** A file system that holds the one file [file] *)
Definition only (file : string) : string -> bool :=
  fun path => path =? file.

End Cli.

(* ================================================================== *)
(** * Properties *)
(* ================================================================== *)

Module JSFacts.
Import JS.

(** ** What a value can hand out is no deeper than the value *)

Lemma In_list_max_depth (l : list value) (x : value) :
  In x l -> depth x <= list_max_depth depth l.
Proof.
  induction l as [|y r IH]; simpl; [tauto|].
  intros [-> | H]; [|specialize (IH H)]; lia.
Qed.

Lemma lookup_depth (k : string) (ps : list (string * value)) (x : value) :
  lookup k ps = Some x -> depth x <= props_max_depth depth ps.
Proof.
  induction ps as [|[k' v] r IH]; simpl; [discriminate|].
  destruct (k' =? k); [intros [= ->]|intros H; specialize (IH H)]; lia.
Qed.

Lemma field_depth (k : string) (ps : list (string * value)) :
  depth (field k ps) < depth (VObj ps).
Proof.
  unfold field. destruct (lookup k ps) eqn:E; simpl; [|lia].
  apply lookup_depth in E. lia.
Qed.

Lemma elem_depth (l : list value) (x : value) :
  In x l -> depth x < depth (VArr l).
Proof. intros H. apply In_list_max_depth in H. simpl. lia. Qed.

Lemma get_depth (k : string) (v x : value) :
  get k v = Ok x -> depth x <= Nat.pred (depth v).
Proof.
  destruct v as [| |b|n|s|l|ps]; simpl; try discriminate; intros [= <-].
  - simpl; lia.
  - simpl; lia.
  - destruct (k =? "length"); simpl; lia.
  - destruct (k =? "length"); simpl; lia.
  - pose proof (field_depth k ps) as H. simpl in H. lia.
Qed.

Lemma nth_depth (i : nat) (l : list value) :
  depth (nth i l VUndef) <= list_max_depth depth l.
Proof.
  destruct (nth_in_or_default i l VUndef) as [H | ->]; [|simpl; lia].
  now apply In_list_max_depth.
Qed.

Lemma index_depth (i : nat) (v x : value) :
  index i v = Ok x -> depth x <= Nat.pred (depth v).
Proof.
  destruct v; simpl; try discriminate; intros [= <-]; simpl; try lia.
  - destruct (String.get i s); simpl; lia.
  - apply nth_depth.
  - pose proof (field_depth (Z_to_string (Z.of_nat i)) props) as H.
    simpl in H. lia.
Qed.

Lemma chars_depth (s : string) : list_max_depth depth (chars s) = 0.
Proof. induction s; simpl; auto. Qed.

Lemma iterate_depth (v : value) (l : list value) :
  iterate v = Ok l -> list_max_depth depth l <= Nat.pred (depth v).
Proof.
  destruct v; simpl; try discriminate; intros [= <-]; simpl; try lia.
  rewrite chars_depth. lia.
Qed.

Lemma destructure2_depth (v a b : value) :
  destructure2 v = Ok (a, b) ->
  depth a <= Nat.pred (depth v) /\ depth b <= Nat.pred (depth v).
Proof.
  unfold destructure2. destruct (iterate v) as [l| | |] eqn:E; simpl; try discriminate.
  intros [= <- <-]. apply iterate_depth in E.
  pose proof (nth_depth 0 l). pose proof (nth_depth 1 l). lia.
Qed.

Lemma mapM_ext {A B} (f g : A -> result B) (l : list A) :
  (forall x, In x l -> f x = g x) -> mapM f l = mapM g l.
Proof.
  induction l as [|x r IH]; simpl; intros H; [reflexivity|].
  rewrite (H x) by auto. rewrite IH by auto. reflexivity.
Qed.

Lemma map_method_ext {B} (f g : value -> result B) (v : value) :
  (forall x, depth x <= Nat.pred (depth v) -> f x = g x) ->
  map_method f v = map_method g v.
Proof.
  destruct v; simpl; try reflexivity. intros H. apply mapM_ext.
  intros x Hx. apply H. now apply In_list_max_depth.
Qed.

Lemma lookup_set_prop_eq (k : string) (v : value) (ps : list (string * value)) :
  lookup k (set_prop k v ps) = Some v.
Proof.
  induction ps as [|[k' v'] r IH]; simpl.
  - now rewrite String.eqb_refl.
  - destruct (k' =? k) eqn:E; simpl; now rewrite E.
Qed.

Lemma lookup_set_prop_neq (k k' : string) (v : value) (ps : list (string * value)) :
  k <> k' -> lookup k' (set_prop k v ps) = lookup k' ps.
Proof.
  intros H. induction ps as [|[k0 v0] r IH]; simpl.
  - destruct (k =? k') eqn:E; [apply String.eqb_eq in E; contradiction|reflexivity].
  - destruct (k0 =? k) eqn:E; simpl.
    + apply String.eqb_eq in E. subst k0.
      destruct (k =? k') eqn:E2; [apply String.eqb_eq in E2; contradiction|reflexivity].
    + destruct (k0 =? k'); auto.
Qed.

Lemma get_opt_field_opt (k : string) (v : value) :
  get_opt k v = Ok (field_opt k v).
Proof. unfold field_opt. destruct v; reflexivity. Qed.

(** ** The primitive operations need no fuel *)

Lemma halts_bind {A B} (m : result A) (k : A -> result B) :
  halts m -> (forall a, m = Ok a -> halts (k a)) -> halts (bind m k).
Proof.
  unfold halts. destruct m; simpl; auto; intros; congruence.
Qed.

Lemma get_halts (k : string) (v : value) : halts (get k v).
Proof. unfold halts. destruct v; discriminate. Qed.

Lemma index_halts (i : nat) (v : value) : halts (index i v).
Proof. unfold halts. destruct v; discriminate. Qed.

Lemma iterate_halts (v : value) : halts (iterate v).
Proof. unfold halts. destruct v; discriminate. Qed.

Lemma destructure2_halts (v : value) : halts (destructure2 v).
Proof.
  unfold destructure2. apply halts_bind; [apply iterate_halts|].
  intros; discriminate.
Qed.

Lemma gt_zero_halts (v : value) : halts (gt_zero v).
Proof.
  unfold halts. destruct v as [| |b|n|s|l|ps]; simpl; try discriminate.
  - destruct (s =? EmptyString); discriminate.
  - destruct l; discriminate.
  - destruct (has_key "toString" ps); discriminate.
Qed.

Lemma join_with_halts (toStr : value -> result string) (sep : string)
    (l : list value) :
  (forall x, In x l -> halts (toStr x)) -> halts (join_with toStr sep l).
Proof.
  induction l as [|v r IH]; intros H; [discriminate|].
  cbn [join_with]. apply halts_bind.
  - destruct v; try discriminate; apply H; now left.
  - intros s _. destruct r as [|w r]; [discriminate|].
    apply halts_bind; [|intros; discriminate].
    apply IH. intros x Hx. apply H. now right.
Qed.

Lemma to_string_halts (v : value) : halts (to_string v).
Proof.
  enough (H : forall n v, depth v <= n -> halts (to_string v))
    by (apply (H (depth v)); lia).
  clear v. induction n as [|n IH]; intros v Hd;
    destruct v as [| |b|z|s|l|ps]; try discriminate;
    try (destruct b; discriminate);
    try (simpl in Hd; lia);
    try (cbn [to_string]; destruct (has_key "toString" ps); discriminate).
  cbn [to_string]. apply join_with_halts. intros x Hx. apply IH.
  apply elem_depth in Hx. lia.
Qed.

Lemma join_halts (sep : string) (l : list value) : halts (join sep l).
Proof. apply join_with_halts. intros; apply to_string_halts. Qed.

Lemma json_elems_halts (str : value -> result string) (l : list value) :
  (forall x, In x l -> halts (str x)) -> halts (json_elems str l).
Proof.
  induction l as [|v r IH]; intros H; [discriminate|].
  cbn [json_elems]. apply halts_bind.
  - destruct v; try discriminate; apply H; now left.
  - intros s _. destruct r as [|w r]; [discriminate|].
    apply halts_bind; [|intros; discriminate].
    apply IH. intros x Hx. apply H. now right.
Qed.

Lemma json_props_halts (str : value -> result string)
    (ps : list (string * value)) (seen : list string) :
  (forall k x, In (k, x) ps -> halts (str x)) -> halts (json_props str ps seen).
Proof.
  revert seen. induction ps as [|[k v] r IH]; intros seen H; [discriminate|].
  cbn [json_props].
  assert (Hr : forall seen', halts (json_props str r seen')).
  { intros seen'. apply IH. intros k' x Hx. apply (H k' x). now right. }
  destruct (existsb (String.eqb k) seen); [apply Hr|].
  destruct (is_index_key k); [discriminate|].
  assert (Hv : halts (str v)) by (apply (H k v); now left).
  destruct v; try apply Hr;
    (apply halts_bind; [exact Hv|intros ? _]);
    (apply halts_bind; [apply Hr|intros; discriminate]).
Qed.

Lemma In_props_depth (ps : list (string * value)) (k : string) (x : value) :
  In (k, x) ps -> depth x < depth (VObj ps).
Proof.
  cbn [depth]. induction ps as [|[k' v] r IH]; simpl; [tauto|].
  intros [[= <- <-] | H]; [|specialize (IH H)]; lia.
Qed.

Lemma JSON_stringify_halts (v : value) : halts (JSON_stringify v).
Proof.
  enough (H : forall n v, depth v <= n -> halts (JSON_stringify v))
    by (apply (H (depth v)); lia).
  clear v. induction n as [|n IH]; intros v Hd;
    destruct v as [| |b|z|s|l|ps]; try discriminate;
    try (destruct b; discriminate);
    try (simpl in Hd; lia).
  - cbn [JSON_stringify]. apply halts_bind; [|intros; discriminate].
    apply json_elems_halts. intros x Hx. apply IH.
    apply elem_depth in Hx. lia.
  - cbn [JSON_stringify]. apply halts_bind; [|intros; discriminate].
    apply json_props_halts. intros k x Hx. apply IH.
    apply In_props_depth in Hx. lia.
Qed.

Lemma mapM_halts {A B} (f : A -> result B) (l : list A) :
  (forall x, In x l -> halts (f x)) -> halts (mapM f l).
Proof.
  induction l as [|x r IH]; intros H; [discriminate|].
  cbn [mapM]. apply halts_bind; [apply H; now left|intros y _].
  apply halts_bind; [|intros; discriminate].
  apply IH. intros z Hz. apply H. now right.
Qed.

Lemma map_method_halts {B} (f : value -> result B) (v : value) :
  (forall x, depth x <= Nat.pred (depth v) -> halts (f x)) ->
  halts (map_method f v).
Proof.
  destruct v; try discriminate. intros H. apply mapM_halts.
  intros x Hx. apply H. apply In_list_max_depth in Hx. simpl. lia.
Qed.

Lemma bind_assoc {A B C} (m : result A) (k1 : A -> result B) (k2 : B -> result C) :
  bind (bind m k1) k2 = bind m (fun x => bind (k1 x) k2).
Proof. now destruct m. Qed.

Lemma bind_map_method_ext {B C} (f g : value -> result B) (v : value)
    (k1 k2 : list B -> result C) :
  (forall x, depth x <= Nat.pred (depth v) -> f x = g x) ->
  (forall l, k1 l = k2 l) ->
  bind (map_method f v) k1 = bind (map_method g v) k2.
Proof.
  intros H K. rewrite (map_method_ext f g v H).
  destruct (map_method g v); simpl; auto.
Qed.

End JSFacts.

Module TypeConverterFacts.
Import JS JSFacts TypeConverter TypeExpression Samples.

(** ** The recursion of typeToString only descends into its argument *)

Section Descent.

Variables f g : value -> result value.
Variable n : nat.
Hypothesis agree : forall u, depth u < n -> f u = g u.

Lemma interpolate_ext (x : value) :
  depth x < n -> interpolate f x = interpolate g x.
Proof. intros H. unfold interpolate. now rewrite agree. Qed.

Lemma templateTail_ext (elems : list value) (acc : string) :
  list_max_depth depth elems < n ->
  templateTail f acc elems = templateTail g acc elems.
Proof.
  revert acc. induction elems as [|e r IH]; simpl; intros acc H; [reflexivity|].
  destruct (destructure2 e) as [[a b]| | |] eqn:E; simpl; try reflexivity.
  apply destructure2_depth in E.
  rewrite (interpolate_ext a) by lia.
  destruct (interpolate g a); simpl; try reflexivity.
  destruct (to_string b); simpl; try reflexivity.
  apply IH. lia.
Qed.

(** One step of the comparison of the two bodies: the same operation heads
    both sides, or the two sides differ in the recursive call only. *)
Ltac descend :=
  cbn [bind];
  match goal with
  | |- ?x = ?x => reflexivity
  | |- f ?x = g ?x => apply agree; cbn [depth] in *; lia
  | |- bind (get ?k ?v) _ = bind (get ?k ?v) _ =>
      let E := fresh "E" in
      destruct (get k v) eqn:E; [apply get_depth in E|..]
  | |- bind (index ?i ?v) _ = bind (index ?i ?v) _ =>
      let E := fresh "E" in
      destruct (index i v) eqn:E; [apply index_depth in E|..]
  | |- bind (iterate ?v) _ = bind (iterate ?v) _ =>
      let E := fresh "E" in
      destruct (iterate v) eqn:E; [apply iterate_depth in E|..]
  | |- bind (interpolate f ?x) _ = bind (interpolate g ?x) _ =>
      rewrite (interpolate_ext x) by (cbn [depth] in *; lia);
      destruct (interpolate g x)
  | |- bind (f ?x) _ = bind (g ?x) _ =>
      rewrite (agree x) by (cbn [depth] in *; lia); destruct (g x)
  | |- bind (templateTail f ?a ?l) _ = bind (templateTail g ?a ?l) _ =>
      rewrite (templateTail_ext l a) by (cbn [depth] in *; lia);
      destruct (templateTail g a l)
  | |- bind (map_method f ?v) _ = bind (map_method g ?v) _ =>
      rewrite (map_method_ext f g v)
        by (intros; apply agree; cbn [depth] in *; lia);
      destruct (map_method g v)
  | |- bind (map_method _ ?v) _ = bind (map_method _ ?v) _ =>
      apply bind_map_method_ext; [intros ? ?|intros ?]; cbv beta
  | |- bind (bind _ _) _ = _ => rewrite !bind_assoc
  | |- bind ?m _ = bind ?m _ => destruct m
  | |- bind (if ?b then _ else _) _ = _ => destruct b
  | |- bind (match ?v with VUndef => _ | _ => _ end) _ = _ => destruct v
  | |- (if ?b then _ else _) = (if ?b then _ else _) => destruct b
  end.

Lemma handleReferenceType_ext (type : value) :
  depth type <= n -> 0 < depth type ->
  handleReferenceType f type = handleReferenceType g type.
Proof. intros H H0. unfold handleReferenceType. repeat descend. Qed.

Lemma handleReflectionType_ext (type : value) :
  depth type <= n -> 0 < depth type ->
  handleReflectionType f type = handleReflectionType g type.
Proof.
  intros H H0. unfold handleReflectionType, renderProperty, renderParameter.
  repeat descend.
Qed.

Lemma handleConditionalType_ext (type : value) :
  depth type <= n -> 0 < depth type ->
  handleConditionalType f type = handleConditionalType g type.
Proof. intros H H0. unfold handleConditionalType. repeat descend. Qed.

Lemma handleInferredType_ext (type : value) :
  depth type <= n -> 0 < depth type ->
  handleInferredType f type = handleInferredType g type.
Proof. intros H H0. unfold handleInferredType. repeat descend. Qed.

Lemma handleMappedType_ext (type : value) :
  depth type <= n -> 0 < depth type ->
  handleMappedType f type = handleMappedType g type.
Proof. intros H H0. unfold handleMappedType. repeat descend. Qed.

Lemma handleTemplateLiteral_ext (type : value) :
  depth type <= n -> 0 < depth type ->
  handleTemplateLiteral f type = handleTemplateLiteral g type.
Proof. intros H H0. unfold handleTemplateLiteral. repeat descend. Qed.

Lemma handlePredicate_ext (type : value) :
  depth type <= n -> 0 < depth type ->
  handlePredicate f type = handlePredicate g type.
Proof. intros H H0. unfold handlePredicate. repeat descend. Qed.

Lemma typeToString_body_ext (type : value) :
  depth type <= n ->
  typeToString_body f type = typeToString_body g type.
Proof.
  intros H. unfold typeToString_body.
  destruct type as [| |b|z|s|l|ps]; try reflexivity.
  assert (H0 : 0 < depth (VObj ps)) by (simpl; lia).
  cbn [truthy negb get bind].
  destruct (classify (field "type" ps));
      auto using handleReferenceType_ext, handleReflectionType_ext,
        handleConditionalType_ext, handleInferredType_ext,
        handleMappedType_ext, handleTemplateLiteral_ext, handlePredicate_ext;
      pose proof (field_depth "elementType" ps);
      pose proof (field_depth "types" ps);
      pose proof (field_depth "elements" ps);
      pose proof (field_depth "element" ps);
      pose proof (field_depth "objectType" ps);
      pose proof (field_depth "indexType" ps);
      pose proof (field_depth "target" ps);
      pose proof (field_depth "queryType" ps);
      repeat descend.
Qed.

End Descent.

(** With enough fuel the answer no longer depends on the fuel. *)
Lemma typeToString_fuel (n m : nat) (type : value) :
  depth type < n -> depth type < m ->
  typeToString n type = typeToString m type.
Proof.
  revert m type. induction n as [|n IH]; intros m type Hn Hm; [lia|].
  destruct m as [|m]; [lia|]. simpl.
  apply typeToString_body_ext with (n := depth type); [|lia].
  intros u Hu. apply IH; lia.
Qed.

(** [render] satisfies the recursive equation of the source function. *)
Lemma render_unfold (type : value) :
  render type = typeToString_body render type.
Proof.
  unfold render at 1. simpl.
  apply typeToString_body_ext with (n := depth type); [|lia].
  intros u Hu. unfold render. apply typeToString_fuel; lia.
Qed.

Lemma typeToString_render (n : nat) (type : value) :
  depth type < n -> typeToString n type = render type.
Proof. intros H. unfold render. apply typeToString_fuel; lia. Qed.

(** ** Termination: above the depth of its argument typeToString does not
    run out of fuel *)

Lemma stringifyLiteral_halts (v : value) : halts (stringifyLiteral v).
Proof.
  destruct v as [| |b|z|s|l|ps]; try discriminate;
    try apply to_string_halts.
  - cbn [stringifyLiteral get bind].
    destruct (String.eqb "negative" "length"), (String.eqb "value" "length");
      try apply JSON_stringify_halts.
    all: cbn match; try apply JSON_stringify_halts.
    all: apply halts_bind; [apply to_string_halts|intros; discriminate].
  - cbn [stringifyLiteral get bind].
    destruct (field "negative" ps), (field "value" ps);
      try apply JSON_stringify_halts;
      (apply halts_bind; [apply to_string_halts|intros; discriminate]).
Qed.

Section Halting.

Variable f : value -> result value.
Variable n : nat.
Hypothesis f_halts : forall u, depth u < n -> halts (f u).

Lemma interpolate_halts (x : value) : depth x < n -> halts (interpolate f x).
Proof.
  intros H. unfold interpolate. apply halts_bind; [now apply f_halts|].
  intros; apply to_string_halts.
Qed.

Lemma templateTail_halts (elems : list value) (acc : string) :
  list_max_depth depth elems < n -> halts (templateTail f acc elems).
Proof.
  revert acc. induction elems as [|e r IH]; intros acc H; [discriminate|].
  cbn [templateTail list_max_depth] in *.
  apply halts_bind; [apply destructure2_halts|]. intros [a b] E.
  apply destructure2_depth in E.
  apply halts_bind; [apply interpolate_halts; lia|intros t _].
  apply halts_bind; [apply to_string_halts|intros s _].
  apply IH. lia.
Qed.

(** One step through a body: the operation at the head halts, and the rest
    is looked at for each of its answers. *)
Ltac halt :=
  cbv beta;
  match goal with
  | |- halts (Ok _) => discriminate
  | |- halts Throw => discriminate
  | |- halts (get _ _) => apply get_halts
  | |- halts (join _ _) => apply join_halts
  | |- halts (f ?x) => apply f_halts; cbn [depth] in *; lia
  | |- halts (bind (get ?k ?v) _) =>
      let a := fresh "a" in
      let E := fresh "E" in
      apply halts_bind; [apply get_halts|intros a E; apply get_depth in E]
  | |- halts (bind (index ?i ?v) _) =>
      let a := fresh "a" in
      let E := fresh "E" in
      apply halts_bind; [apply index_halts|intros a E; apply index_depth in E]
  | |- halts (bind (iterate ?v) _) =>
      let a := fresh "a" in
      let E := fresh "E" in
      apply halts_bind; [apply iterate_halts|intros a E; apply iterate_depth in E]
  | |- halts (bind (to_string _) _) =>
      apply halts_bind; [apply to_string_halts|intros ? _]
  | |- halts (bind (join _ _) _) =>
      apply halts_bind; [apply join_halts|intros ? _]
  | |- halts (bind (gt_zero _) _) =>
      apply halts_bind; [apply gt_zero_halts|intros ? _]
  | |- halts (bind (stringifyLiteral _) _) =>
      apply halts_bind; [apply stringifyLiteral_halts|intros ? _]
  | |- halts (bind (interpolate f ?x) _) =>
      apply halts_bind;
      [apply interpolate_halts; cbn [depth] in *; lia|intros ? _]
  | |- halts (bind (f ?x) _) =>
      apply halts_bind; [apply f_halts; cbn [depth] in *; lia|intros ? _]
  | |- halts (bind (templateTail f _ _) _) =>
      apply halts_bind;
      [apply templateTail_halts; cbn [depth] in *; lia|intros ? _]
  | |- halts (bind (map_method _ _) _) =>
      apply halts_bind;
      [apply map_method_halts; intros ? ?|intros ? _]
  | |- halts (bind (bind _ _) _) => rewrite bind_assoc
  | |- halts (bind (Ok _) _) => cbn [bind]
  | |- halts (bind (if ?b then _ else _) _) => destruct b
  | |- halts (bind (match ?v with VUndef => _ | _ => _ end) _) => destruct v
  | |- halts (if ?b then _ else _) => destruct b
  end.

Lemma typeToString_body_halts (type : value) :
  depth type <= n -> halts (typeToString_body f type).
Proof.
  intros H. unfold typeToString_body.
  destruct type as [| |b|z|s|l|ps]; try discriminate.
  - destruct b; discriminate.
  - destruct (negb (truthy (VNum z))); discriminate.
  - destruct (negb (truthy (VStr s))); discriminate.
  - assert (H0 : 0 < depth (VObj ps)) by (simpl; lia).
    cbn [truthy negb get bind].
    pose proof (field_depth "elementType" ps).
    pose proof (field_depth "types" ps).
    pose proof (field_depth "elements" ps).
    pose proof (field_depth "element" ps).
    pose proof (field_depth "objectType" ps).
    pose proof (field_depth "indexType" ps).
    pose proof (field_depth "target" ps).
    pose proof (field_depth "queryType" ps).
    destruct (classify (field "type" ps));
      unfold handleReferenceType, handleReflectionType, renderProperty,
        renderParameter, handleConditionalType, handleInferredType,
        handleMappedType, handleTemplateLiteral, handlePredicate;
      repeat halt.
Qed.

End Halting.

Lemma typeToString_halts (fuel : nat) (type : value) :
  depth type < fuel -> halts (typeToString fuel type).
Proof.
  revert type. induction fuel as [|fuel IH]; intros type H; [lia|].
  cbn [typeToString].
  apply typeToString_body_halts with (n := fuel); [exact IH|lia].
Qed.

Lemma render_halts (type : value) : halts (render type).
Proof. apply typeToString_halts. lia. Qed.

(** ** Joining rendered strings *)

Lemma join_strings (sep : string) (ss : list string) :
  join sep (map VStr ss) = Ok (String.concat sep ss).
Proof.
  unfold join. induction ss as [|x r IH]; [reflexivity|].
  cbn [map join_with to_string bind].
  destruct r as [|y r]; [reflexivity|].
  cbn [map] in *. rewrite IH. reflexivity.
Qed.

Lemma mapM_strings (f : value -> result value) (l : list value) (ss : list string) :
  Forall2 (fun m s => f m = Ok (VStr s)) l ss ->
  mapM f l = Ok (map VStr ss).
Proof.
  induction 1 as [|m s l ss Hm _ IH]; [reflexivity|].
  simpl. rewrite Hm, IH. reflexivity.
Qed.


Lemma is_string_inv (v : value) :
  is_string v = true -> exists s, v = VStr s.
Proof. destruct v; try discriminate; eauto. Qed.


(** ** Totality on well-formed trees *)







Section Total.

Variable f : value -> result value.
Variable n : nat.
Hypothesis f_total :
  forall v, depth v < n -> wf v -> exists s, f v = Ok (VStr s).










Ltac string_field H :=
  let s := fresh "s" in
  apply is_string_inv in H; destruct H as [s H]; rewrite H;
  cbn [to_string truthy bind].



End Total.




(** Why a predicate needs a name, an [asserts] flag or a target type:
    without all three handlePredicate hands back [type.name], which is
    [undefined]. An inferred node without a name prints the word, and a
    literal that is neither a primitive nor a big integer is dumped. *)
Example nameless_nodes :
  render (VObj [("type", VStr "predicate")]) = Ok VUndef
  /\ ~ wf (VObj [("type", VStr "predicate")])
  /\ render (VObj [("type", VStr "inferred")]) = Ok (VStr "infer undefined")
  /\ wf (VObj [("type", VStr "inferred")])
  /\ wf (VObj [("type", VStr "literal");
               ("value", VObj [("a", VNum 1)])]).
Proof.
  split; [reflexivity|]. split.
  - intros H. inversion H; discriminate.
  - split; [reflexivity|]. split.
    + apply wf_inferred; [reflexivity|reflexivity|apply wf_undefined].
    + now apply wf_literal.
Qed.



(** What the sample tree renders to *)
Example sample_tree_render :
  render sample_tree = Ok (VStr "[string | unknown, any[], `id-${number}px`]").
Proof. reflexivity. Qed.

Lemma members_render (fuel : nat) (members rs : list value) :
  list_max_depth depth members < fuel ->
  Forall2 (fun m r => typeToString fuel m = Ok r) members rs ->
  mapM render members = Ok rs.
Proof.
  intros Hd HF. revert Hd.
  induction HF as [|m r l rs' Hm _ IH]; intros Hd; [reflexivity|].
  cbn [list_max_depth] in Hd. cbn [mapM].
  rewrite <- (typeToString_render fuel m) by lia.
  rewrite Hm, IH by lia. reflexivity.
Qed.

(** C6: a union (an intersection) with a member list renders as the renders
    of its members joined with " | " (" & "), one per member and in the order
    of the list: nothing is sorted and nothing is dropped. When the members
    render to the strings [ss], the result is [ss] concatenated with the
    separator. *)
Theorem C6_union_intersection_join
    (fuel : nat) (ps : list (string * value))
    (members rs : list value) (sep : string) :
  depth (VObj ps) < fuel ->
  field "types" ps = VArr members ->
  Forall2 (fun m r => typeToString fuel m = Ok r) members rs ->
  (classify (field "type" ps) = CUnion /\ sep = " | ")
  \/ (classify (field "type" ps) = CIntersection /\ sep = " & ") ->
  typeToString fuel (VObj ps) = (s <- join sep rs ;; Ok (VStr s))
  /\ forall ss, rs = map VStr ss ->
       typeToString fuel (VObj ps) = Ok (VStr (String.concat sep ss)).
Proof.
  intros Hd Ht HF Hsep.
  assert (Hm : mapM render members = Ok rs).
  { apply members_render with (fuel := fuel); [|assumption].
    pose proof (field_depth "types" ps) as Hf. rewrite Ht in Hf.
    cbn [depth] in *. lia. }
  assert (E : typeToString fuel (VObj ps) = (s <- join sep rs ;; Ok (VStr s))).
  { rewrite (typeToString_render fuel (VObj ps) Hd), render_unfold.
    unfold typeToString_body. cbn [truthy negb get bind].
    destruct Hsep as [[-> ->] | [-> ->]]; rewrite Ht; cbn [map_method];
      rewrite Hm; reflexivity. }
  split; [exact E|].
  intros ss ->. rewrite E, join_strings. reflexivity.
Qed.

(** C6 at the union of the members A, B, A *)
Lemma C6_union_intersection_join_witness :
  typeToString 4 (union_of [intrinsic "A"; intrinsic "B"; intrinsic "A"])
  = Ok (VStr "A | B | A").
Proof.
  refine (proj2 (C6_union_intersection_join 4
            [("type", VStr "union");
             ("types", VArr [intrinsic "A"; intrinsic "B"; intrinsic "A"])]
            [intrinsic "A"; intrinsic "B"; intrinsic "A"]
            [VStr "A"; VStr "B"; VStr "A"] " | "
            _ eq_refl _ (or_introl (conj eq_refl eq_refl)))
          ["A"; "B"; "A"] eq_refl).
  - vm_compute. lia.
  - repeat constructor.
Defined.

(** C8 (as stated, refuted): a node with an unrecognized tag whose name
    field is present but empty renders as "unknown", not as its name. *)
Lemma C8_empty_name_counterexample :
  let ps := [("type", VStr "custom"); ("name", VStr EmptyString)] in
  classify (field "type" ps) = CDefault
  /\ lookup "name" ps = Some (VStr EmptyString)
  /\ render (VObj ps) = Ok (VStr "unknown")
  /\ render (VObj ps) <> Ok (VStr EmptyString).
Proof. cbv zeta. repeat split; try reflexivity. discriminate. Qed.

(** C8 (amended): typeToString of an absent input returns "any"; for a node
    whose tag is not one of the recognized variants it returns the node's
    name when that is truthy (present and neither empty nor zero, false or
    null), and "unknown" otherwise. *)
Theorem C8_absent_and_unrecognized (fuel : nat) (ps : list (string * value)) :
  classify (field "type" ps) = CDefault ->
  typeToString (S fuel) VUndef = Ok (VStr "any")
  /\ typeToString (S fuel) (VObj ps) =
     Ok (if truthy (field "name" ps) then field "name" ps else VStr "unknown").
Proof.
  intros H. split; [reflexivity|].
  cbn [typeToString]. unfold typeToString_body.
  cbn [truthy negb get bind]. rewrite H. reflexivity.
Qed.

(** C8 at an unrecognized node with a name and at one without *)
Lemma C8_absent_and_unrecognized_witness :
  typeToString 1 VUndef = Ok (VStr "any")
  /\ typeToString 1 (VObj [("type", VStr "custom"); ("name", VStr "Widget")])
     = Ok (VStr "Widget")
  /\ typeToString 1 (VObj [("type", VStr "custom")]) = Ok (VStr "unknown").
Proof.
  split; [|split].
  - exact (proj1 (C8_absent_and_unrecognized 0 [("type", VStr "custom")] eq_refl)).
  - exact (proj2 (C8_absent_and_unrecognized 0
             [("type", VStr "custom"); ("name", VStr "Widget")] eq_refl)).
  - exact (proj2 (C8_absent_and_unrecognized 0 [("type", VStr "custom")] eq_refl)).
Defined.

(** C10 (as stated, refuted): the empty string is a plain string input, and
    typeToString returns "any" for it, not the input. *)
Lemma C10_empty_string_counterexample :
  render (VStr EmptyString) = Ok (VStr "any")
  /\ render (VStr EmptyString) <> Ok (VStr EmptyString).
Proof. split; [reflexivity|discriminate]. Qed.

(** C10 (amended): typeToString returns every non-empty plain string input
    unchanged; the empty string is falsy and renders as "any". *)
Theorem C10_plain_string (fuel : nat) (s : string) :
  typeToString (S fuel) (VStr s)
  = Ok (VStr (if s =? EmptyString then "any" else s)).
Proof.
  cbn [typeToString]. unfold typeToString_body. cbn [truthy].
  destruct (s =? EmptyString); reflexivity.
Qed.

End TypeConverterFacts.

(** ** No function of the extractor needs fuel *)

Module HaltingFacts.
Import JS JSFacts TypeConverter TypeConverterFacts.

Lemma get_opt_halts (k : string) (v : value) : halts (get_opt k v).
Proof. destruct v; try discriminate; apply get_halts. Qed.

Lemma filterM_halts {A} (f : A -> result bool) (l : list A) :
  (forall x, In x l -> halts (f x)) -> halts (filterM f l).
Proof.
  induction l as [|x r IH]; intros H; [discriminate|].
  cbn [filterM]. apply halts_bind; [apply H; now left|intros y _].
  apply halts_bind; [|intros; discriminate].
  apply IH. intros z Hz. apply H. now right.
Qed.

Lemma push_to_halts (k : string) (x : value) (ps : list (string * value)) :
  halts (push_to k x ps).
Proof.
  unfold push_to. destruct (lookup k ps) as [[| |b|z|s|l|qs]|];
    try discriminate.
  - destruct b; discriminate.
  - destruct (truthy (VNum z)); discriminate.
  - destruct (truthy (VStr s)); discriminate.
  - destruct (inherited k); discriminate.
Qed.

Create HintDb halts.

#[export] Hint Resolve get_halts get_opt_halts index_halts iterate_halts
  to_string_halts join_halts gt_zero_halts render_halts push_to_halts : halts.

(** One step through the body of a function that calls no recursive one *)
Ltac halting :=
  repeat (cbv beta;
    match goal with
    | |- halts (Ok _) => discriminate
    | |- halts Throw => discriminate
    | |- halts (bind (bind _ _) _) => rewrite bind_assoc
    | |- halts (bind (Ok _) _) => cbn [bind]
    | |- halts (bind (if ?b then _ else _) _) => destruct b
    | |- halts (bind (match ?v with VUndef => _ | _ => _ end) _) => destruct v
    | |- halts (bind (match ?a with
                      | SignatureBuilder.getter => _
                      | SignatureBuilder.setter => _
                      end) _) => destruct a
    | |- halts (bind (map_method _ _) _) =>
        apply halts_bind; [apply map_method_halts; intros ? _|intros ? _]
    | |- halts (bind (filter_method _ ?v) _) =>
        apply halts_bind;
        [destruct v; try discriminate; apply filterM_halts; intros ? _
        |intros ? _]
    | |- halts (bind (mapM _ _) _) =>
        apply halts_bind; [apply mapM_halts; intros ? _|intros ? _]
    | |- halts (bind _ _) =>
        apply halts_bind; [solve [auto with halts]|intros ? _]
    | |- halts (if ?b then _ else _) => destruct b
    | |- halts (match ?v with VUndef => _ | _ => _ end) => destruct v
    | |- halts (map_method _ _) => apply map_method_halts; intros ? _
    | |- halts (mapM _ _) => apply mapM_halts; intros ? _
    | |- halts (filterM _ _) => apply filterM_halts; intros ? _
    | |- halts _ => solve [auto with halts]
    end).

Lemma parseInlineTag_halts (tag : value) : halts (CommentParser.parseInlineTag tag).
Proof. unfold CommentParser.parseInlineTag. halting. Qed.

#[export] Hint Resolve parseInlineTag_halts : halts.

Lemma renderPart_halts (part : value) : halts (CommentParser.renderPart part).
Proof. unfold CommentParser.renderPart. halting. Qed.

#[export] Hint Resolve renderPart_halts : halts.

Lemma extractCommentParts_halts (parts : value) :
  halts (CommentParser.extractCommentParts parts).
Proof. unfold CommentParser.extractCommentParts. halting. Qed.

#[export] Hint Resolve extractCommentParts_halts : halts.

Lemma extractAuthorTags_halts (comment : value) :
  halts (CommentParser.extractAuthorTags comment).
Proof. unfold CommentParser.extractAuthorTags. halting. Qed.

#[export] Hint Resolve extractAuthorTags_halts : halts.

Lemma sb_typeToString_halts (x : value) : halts (SignatureBuilder.typeToString x).
Proof. apply render_halts. Qed.

#[export] Hint Resolve sb_typeToString_halts : halts.

Lemma typeString_halts (x : value) : halts (SignatureBuilder.typeString x).
Proof. unfold SignatureBuilder.typeString. halting. Qed.

#[export] Hint Resolve typeString_halts : halts.

Lemma typeParameter_halts (tp : value) : halts (SignatureBuilder.typeParameter tp).
Proof. unfold SignatureBuilder.typeParameter. halting. Qed.

#[export] Hint Resolve typeParameter_halts : halts.

Lemma buildTypeParameterString_halts (v : value) :
  halts (SignatureBuilder.buildTypeParameterString v).
Proof. unfold SignatureBuilder.buildTypeParameterString. halting. Qed.

Lemma parameter_halts (p : value) : halts (SignatureBuilder.parameter p).
Proof. unfold SignatureBuilder.parameter. halting. Qed.

#[export] Hint Resolve buildTypeParameterString_halts parameter_halts : halts.

Lemma buildParameterString_halts (v : value) :
  halts (SignatureBuilder.buildParameterString v).
Proof. unfold SignatureBuilder.buildParameterString. halting. Qed.

#[export] Hint Resolve buildParameterString_halts : halts.

Lemma buildSignatureString_halts (d sig : value) :
  halts (SignatureBuilder.buildSignatureString d sig).
Proof. unfold SignatureBuilder.buildSignatureString. halting. Qed.

Lemma sb_extractCommentParts_halts (parts : value) :
  halts (SignatureBuilder.extractCommentParts parts).
Proof. unfold SignatureBuilder.extractCommentParts. halting. Qed.

#[export] Hint Resolve buildSignatureString_halts sb_extractCommentParts_halts
  : halts.

Lemma summaryOf_halts (extract : value -> result string) (x : value) :
  (forall v, halts (extract v)) -> halts (SignatureBuilder.summaryOf extract x).
Proof. intros H. unfold SignatureBuilder.summaryOf. halting. Qed.

Lemma parameterDetail_halts (extract : value -> result string) (p : value) :
  (forall v, halts (extract v)) ->
  halts (SignatureBuilder.parameterDetail extract p).
Proof.
  intros H. pose proof (fun x => summaryOf_halts extract x H).
  unfold SignatureBuilder.parameterDetail. halting.
Qed.

Lemma buildParameters_halts (r : value) : halts (SignatureBuilder.buildParameters r).
Proof.
  pose proof (fun p => parameterDetail_halts _ p sb_extractCommentParts_halts).
  unfold SignatureBuilder.buildParameters. halting.
Qed.

#[export] Hint Resolve buildParameters_halts : halts.

Lemma buildGetSetSignature_halts (sig : value) (a : SignatureBuilder.accessor) :
  halts (SignatureBuilder.buildGetSetSignature sig a).
Proof.
  pose proof (fun x => summaryOf_halts _ x sb_extractCommentParts_halts).
  unfold SignatureBuilder.buildGetSetSignature. halting.
Qed.

Lemma buildIndexSignatureString_halts (sig : value) :
  halts (SignatureBuilder.buildIndexSignatureString sig).
Proof. unfold SignatureBuilder.buildIndexSignatureString. halting. Qed.

#[export] Hint Resolve buildGetSetSignature_halts
  buildIndexSignatureString_halts : halts.

Import Extractor.

Lemma ex_typeToString_halts (x : value) : halts (Extractor.typeToString x).
Proof. apply render_halts. Qed.

Lemma ex_extractCommentParts_halts (x : value) :
  halts (Extractor.extractCommentParts x).
Proof. apply extractCommentParts_halts. Qed.

#[export] Hint Resolve ex_typeToString_halts ex_extractCommentParts_halts
  : halts.

Lemma ex_summaryOf_halts (x : value) :
  halts (SignatureBuilder.summaryOf Extractor.extractCommentParts x).
Proof. apply summaryOf_halts, ex_extractCommentParts_halts. Qed.

Lemma ex_parameterDetail_halts (p : value) :
  halts (SignatureBuilder.parameterDetail Extractor.extractCommentParts p).
Proof. apply parameterDetail_halts, ex_extractCommentParts_halts. Qed.

#[export] Hint Resolve ex_summaryOf_halts ex_parameterDetail_halts : halts.

Lemma partsOrUndefined_halts (x : value) : halts (partsOrUndefined x).
Proof. unfold partsOrUndefined. halting. Qed.

Lemma toString_method_halts (v : value) : halts (toString_method v).
Proof. destruct v; try discriminate; apply to_string_halts. Qed.

Lemma toString_opt_halts (v : value) : halts (toString_opt v).
Proof. destruct v; try discriminate; cbn [toString_opt]; halting. Qed.

#[export] Hint Resolve partsOrUndefined_halts toString_method_halts
  toString_opt_halts : halts.

Lemma extractDocumentation_halts (r : value) : halts (extractDocumentation r).
Proof. unfold extractDocumentation. halting. Qed.

Lemma typeDefinition_halts (t : value) : halts (typeDefinition t).
Proof. unfold typeDefinition. halting. Qed.

#[export] Hint Resolve extractDocumentation_halts typeDefinition_halts : halts.

Lemma extractTypeParameters_halts (v : value) : halts (extractTypeParameters v).
Proof. unfold extractTypeParameters. halting. Qed.

Lemma typeStrings_halts (v : value) : halts (typeStrings v).
Proof. unfold typeStrings. halting. Qed.

#[export] Hint Resolve extractTypeParameters_halts typeStrings_halts : halts.

Lemma extractTypeInformation_halts (r : value) : halts (extractTypeInformation r).
Proof. unfold extractTypeInformation. halting. Qed.

Lemma extractParameters_halts (r : value) : halts (extractParameters r).
Proof. unfold extractParameters. halting. Qed.

Lemma resolveTypeName_halts (r : value) : halts (resolveTypeName r).
Proof. unfold resolveTypeName. halting. Qed.

#[export] Hint Resolve extractTypeInformation_halts extractParameters_halts
  resolveTypeName_halts : halts.

Lemma referenceDetail_halts (r : value) : halts (referenceDetail r).
Proof. unfold referenceDetail. halting. Qed.

#[export] Hint Resolve referenceDetail_halts : halts.

Lemma overloadDetail_halts (r sig : value) : halts (overloadDetail r sig).
Proof. unfold overloadDetail. halting. Qed.

Lemma indexDetail_halts (sig : value) : halts (indexDetail sig).
Proof. unfold indexDetail. halting. Qed.

#[export] Hint Resolve overloadDetail_halts indexDetail_halts : halts.

Lemma extractSignatures_halts (r : value) : halts (extractSignatures r).
Proof. unfold extractSignatures. halting. Qed.

Lemma categorize_halts (tags : TagsDetail) (tag : value) :
  halts (categorize tags tag).
Proof. unfold categorize. halting. Qed.

#[export] Hint Resolve extractSignatures_halts categorize_halts : halts.

Lemma categorizeAll_halts (l : list value) (tags : TagsDetail) :
  halts (categorizeAll tags l).
Proof.
  revert tags. induction l as [|t l IH]; intros tags; [discriminate|].
  cbn [categorizeAll]. apply halts_bind; [apply categorize_halts|].
  intros; apply IH.
Qed.

#[export] Hint Resolve categorizeAll_halts : halts.

Lemma extractAllTags_halts (r : value) : halts (extractAllTags r).
Proof. unfold extractAllTags. halting. Qed.

Lemma extractModifiers_halts (r : value) : halts (extractModifiers r).
Proof. unfold extractModifiers. halting. Qed.

Lemma extractSourceInfo_halts (r : value) : halts (extractSourceInfo r).
Proof. unfold extractSourceInfo. halting. Qed.

Lemma extractHierarchy_halts (r : value) : halts (extractHierarchy r).
Proof. unfold extractHierarchy. halting. Qed.

Lemma keepToken_halts (t : value) : halts (keepToken t).
Proof. unfold keepToken. halting. Qed.

Lemma tagTokens_halts (t : value) : halts (tagTokens t).
Proof. unfold tagTokens. halting. Qed.

#[export] Hint Resolve extractAllTags_halts extractModifiers_halts
  extractSourceInfo_halts extractHierarchy_halts keepToken_halts
  tagTokens_halts : halts.

Lemma generateSearchTokens_halts (r p : value) : halts (generateSearchTokens r p).
Proof. unfold generateSearchTokens. halting. Qed.

#[export] Hint Resolve generateSearchTokens_halts : halts.

Lemma extractAllDocumentation_halts (r p : value) :
  halts (extractAllDocumentation r p).
Proof. unfold extractAllDocumentation. halting. Qed.

End HaltingFacts.

Module SignatureBuilderFacts.
Import JS JSFacts TypeConverterFacts SignatureBuilder SignatureSpec Samples.

Lemma append_assoc (a b c : string) : (a ++ b) ++ c = a ++ (b ++ c).
Proof. induction a as [|x a IH]; simpl; [reflexivity|now rewrite IH]. Qed.

Lemma append_nil_r (a : string) : a ++ EmptyString = a.
Proof. induction a as [|x a IH]; simpl; [reflexivity|now rewrite IH]. Qed.

Lemma parameter_encoded (p : Param) (v : value) :
  encodes p v -> parameter v = Ok (VStr (parameterText p)).
Proof.
  intros (pps & -> & Hn & Ht & Hr & Ho & Hd).
  unfold parameter, parameterText. cbn [get bind].
  rewrite !get_opt_field_opt. cbn [bind]. rewrite Hn, Hr, Ho, Ht.
  cbn [to_string bind].
  destruct (p_default p) as [d|].
  - destruct Hd as [Hd Hne]. rewrite Hd. cbn [truthy to_string bind].
    apply String.eqb_neq in Hne. rewrite Hne. cbn [negb bind].
    destruct (p_rest p), (p_optional p); cbn [append];
      rewrite ?append_assoc; reflexivity.
  - rewrite Hd.
    destruct (p_rest p), (p_optional p); cbn [append];
      rewrite ?append_assoc, ?append_nil_r; reflexivity.
Qed.

Lemma parameters_encoded (ps : list Param) (params : list value) :
  Forall2 encodes ps params ->
  buildParameterString (VArr params) = Ok (parameterClause ps).
Proof.
  intros HF. unfold buildParameterString, parameterClause.
  cbn [truthy negb get bind]. change ("length" =? "length") with true.
  cbn iota.
  destruct HF as [|p v ps params Hp HF]; [reflexivity|].
  cbn [is_zero List.length]. 
  replace (Z.of_nat (S (List.length params)) =? 0)%Z with false
    by (symmetry; apply Z.eqb_neq; lia).
  cbn [map_method].
  assert (Hm : mapM parameter (v :: params)
               = Ok (map VStr (map parameterText (p :: ps)))).
  { apply mapM_strings. constructor.
    - now apply parameter_encoded.
    - clear Hp. induction HF as [|q w qs ws Hq _ IH]; constructor; auto.
      now apply parameter_encoded. }
  rewrite Hm. cbn [bind]. apply join_strings.
Qed.

(** C4: the signature string is the name, the type-parameter clause, the
    parameter clause in parentheses, a colon and the return type. The
    parameter clause is empty when the list is absent or empty, and
    otherwise joins with ", " one text per parameter, made of the rest
    marker, the name, the optional marker, the type and the default clause,
    in that order, each marker or clause present exactly when its flag or
    field is set. *)
Theorem C4_signature_format
    (dps sps : list (string * value)) (name typeParams returnType : string)
    (ps : list Param) :
  field "name" dps = VStr name ->
  buildTypeParameterString (field "typeParameters" sps) = Ok typeParams ->
  typeString (field "type" sps) = Ok returnType ->
  (ps = [] /\ truthy (field "parameters" sps) = false)
  \/ (exists params, field "parameters" sps = VArr params
                     /\ Forall2 encodes ps params) ->
  buildParameterString (field "parameters" sps) = Ok (parameterClause ps)
  /\ buildSignatureString (VObj dps) (VObj sps)
     = Ok (signatureText name typeParams ps returnType).
Proof.
  intros Hn Htp Hr Hps.
  assert (Hc : buildParameterString (field "parameters" sps)
               = Ok (parameterClause ps)).
  { destruct Hps as [[-> Hf] | (params & -> & HF)].
    - unfold buildParameterString. now rewrite Hf.
    - now apply parameters_encoded. }
  split; [exact Hc|].
  unfold buildSignatureString, signatureText. cbn [get bind].
  rewrite Htp, Hc, Hr, Hn. reflexivity.
Qed.

(** C4 at the declaration f of the specification *)
Lemma C4_signature_format_witness :
  buildParameterString (field "parameters" f_signature) = Ok "x: number"
  /\ buildSignatureString (VObj f_declaration) (VObj f_signature)
     = Ok "f(x: number): void".
Proof.
  apply (C4_signature_format f_declaration f_signature "f" EmptyString "void"
           [mkParam "x" "number" false false None]).
  - reflexivity.
  - reflexivity.
  - reflexivity.
  - right. eexists. split; [reflexivity|].
    repeat constructor. eexists. repeat split; reflexivity.
Defined.

(** The rest marker, the optional marker and the default clause at work *)
Example g_signature_string :
  buildSignatureString (VObj [("name", VStr "g")]) (VObj g_signature)
  = Ok "g(first: string, count?: number = 1, ...more: string[]): void".
Proof. reflexivity. Qed.

End SignatureBuilderFacts.

Module ExtractorFacts.
Import JS JSFacts TypeConverterFacts Extractor TagSpec Samples.

(** ** Signatures *)

Lemma mapM_nth_error {A B} (f : A -> result B) (l : list A) (l' : list B)
    (i : nat) (x : A) :
  mapM f l = Ok l' -> nth_error l i = Some x ->
  exists y, nth_error l' i = Some y /\ f x = Ok y.
Proof.
  revert l' i. induction l as [|a r IH]; intros l' i Hm Hx.
  - destruct i; discriminate.
  - cbn [mapM] in Hm. destruct (f a) as [b| | |] eqn:Ea; try discriminate.
    cbn [bind] in Hm. destruct (mapM f r) as [bs| | |] eqn:Er; try discriminate.
    injection Hm as <-. destruct i as [|i].
    + injection Hx as <-. exists b. now split.
    + cbn [nth_error] in *. now apply IH.
Qed.

Ltac run H :=
  repeat (cbn [bind] in H;
          match type of H with
          | bind ?m _ = Ok _ =>
              let E := fresh "E" in
              destruct m eqn:E; [|discriminate..]
          end);
  cbn [bind] in H.

Lemma overloadDetail_untyped (reflection : value)
    (sps : list (string * value)) (rec : value) :
  lookup "type" sps = None ->
  overloadDetail reflection (VObj sps) = Ok rec ->
  field_of "type" (field_of "returnType" rec) = VStr "void"
  /\ exists prefix, field_of "signature" rec = VStr (prefix ++ ": any").
Proof.
  intros Ht H. unfold overloadDetail in H.
  assert (Hf : field "type" sps = VUndef) by (unfold field; now rewrite Ht).
  cbn [get bind] in H. rewrite Hf in H. cbn [truthy] in H. run H.
  injection H as <-. split; [reflexivity|].
  match goal with
  | E : SignatureBuilder.buildSignatureString _ _ = Ok _ |- _ =>
      unfold SignatureBuilder.buildSignatureString in E;
      cbn [get bind] in E; rewrite Hf in E;
      change (SignatureBuilder.typeString VUndef) with (@Ok string "any") in E;
      run E; injection E as <-
  end.
  match goal with
  | |- context [VStr (?n ++ ?tp ++ String "(" (?ps ++ "): any"))] =>
      exists (n ++ tp ++ "(" ++ ps ++ ")")
  end.
  change (field_of "signature" (VObj ?l)) with (field "signature" l).
  cbv [field lookup String.eqb Ascii.eqb Bool.eqb]. cbn iota. f_equal.
  rewrite !SignatureBuilderFacts.append_assoc. reflexivity.
Qed.

(** C9: for an overload that has no [type] field, the record that
    extractSignatures builds holds "void" in [returnType.type] while its
    [signature] string ends in ": any". *)
Theorem C9_untyped_overload_disagrees
    (rps sps : list (string * value)) (sigs recs : list value) (i : nat) :
  field "signatures" rps = VArr sigs ->
  nth_error sigs i = Some (VObj sps) ->
  lookup "type" sps = None ->
  extractSignatures (VObj rps) = Ok recs ->
  exists rec prefix,
    nth_error recs i = Some rec
    /\ field_of "type" (field_of "returnType" rec) = VStr "void"
    /\ field_of "signature" rec = VStr (prefix ++ ": any").
Proof.
  intros Hs Hi Ht H. unfold extractSignatures in H.
  cbn [get bind] in H. rewrite Hs in H. cbn [truthy iterate bind] in H.
  destruct (mapM (overloadDetail (VObj rps)) sigs) as [overloads| | |] eqn:Em;
    cbn [bind] in H; try discriminate.
  run H. injection H as <-.
  destruct (mapM_nth_error _ _ _ _ _ Em Hi) as (rec & Hrec & Hd).
  destruct (overloadDetail_untyped _ _ _ Ht Hd) as [Hv [prefix Hp]].
  exists rec, prefix. split; [|now split].
  rewrite nth_error_app1; [assumption|].
  apply nth_error_Some. congruence.
Qed.

(** C9 at a method whose overload has no type *)
Lemma C9_untyped_overload_disagrees_witness :
  exists recs rec,
    extractSignatures (VObj untyped_method) = Ok recs
    /\ nth_error recs 0 = Some rec
    /\ field_of "type" (field_of "returnType" rec) = VStr "void"
    /\ field_of "signature" rec = VStr "delta(x: number): any".
Proof.
  destruct (extractSignatures (VObj untyped_method)) as [recs| | |] eqn:E;
    try (vm_compute in E; discriminate).
  destruct (C9_untyped_overload_disagrees untyped_method untyped_overload
              [VObj untyped_overload] recs 0 eq_refl eq_refl eq_refl E)
    as (rec & prefix & Hn & Hv & Hp).
  exists recs, rec. split; [reflexivity|]. split; [exact Hn|]. split; [exact Hv|].
  vm_compute in E. injection E as <-. cbn [nth_error] in Hn.
  injection Hn as <-. reflexivity.
Defined.

(** ** Tag categorization *)

Lemma extend_app (o : option value) (a b : list value) :
  extend (extend o a) b = extend o (a ++ b).
Proof.
  destruct a as [|x a]; [reflexivity|].
  destruct b as [|y b].
  - now rewrite app_nil_r.
  - cbn [extend app]. f_equal. f_equal. now rewrite <- app_assoc.
Qed.

Lemma push_custom (k : string) (x : value) (custom : list (string * value)) :
  arrays_only custom -> inherited k = false ->
  exists custom',
    push_to k x custom = Ok custom'
    /\ arrays_only custom'
    /\ forall k', lookup k' custom'
         = if k =? k' then extend (lookup k' custom) [x] else lookup k' custom.
Proof.
  intros Hinv Hk. unfold push_to. rewrite Hk.
  assert (Hset : forall v l, v = VArr l ->
            arrays_only (set_prop k v custom)
            /\ forall k', lookup k' (set_prop k v custom)
                 = if k =? k' then Some v else lookup k' custom).
  { intros v l ->. split.
    - intros k' w. destruct (String.eqb_spec k k') as [<-|Hne].
      + rewrite lookup_set_prop_eq. intros [= <-]. eauto.
      + rewrite lookup_set_prop_neq by assumption. apply Hinv.
    - intros k'. destruct (String.eqb_spec k k') as [<-|Hne].
      + apply lookup_set_prop_eq.
      + now apply lookup_set_prop_neq. }
  destruct (lookup k custom) as [v|] eqn:E.
  - destruct (Hinv k v E) as [l ->].
    destruct (Hset (VArr (l ++ [x])) _ eq_refl) as [Ha Hl].
    eexists. split; [reflexivity|]. split; [exact Ha|].
    intros k'. rewrite Hl. destruct (String.eqb_spec k k') as [<-|]; [|reflexivity].
    now rewrite E.
  - destruct (Hset (VArr [x]) _ eq_refl) as [Ha Hl].
    eexists. split; [reflexivity|]. split; [exact Ha|].
    intros k'. rewrite Hl. destruct (String.eqb_spec k k') as [<-|]; [|reflexivity].
    now rewrite E.
Qed.

Lemma recognized_false (k n : string) :
  recognized k = false -> In n recognized_names -> (n =? k) = false.
Proof.
  unfold recognized. intros H Hn.
  destruct (String.eqb_spec n k) as [->|]; [|reflexivity].
  rewrite <- H. symmetry. apply existsb_exists.
  exists k. split; [assumption|apply String.eqb_refl].
Qed.

Ltac name_case t lit :=
  destruct (String.eqb_spec t lit) as [->|?]; cbn [orb].

Ltac recognized_branch Hd Hinv :=
  rewrite ?Hd; cbn [bind];
  eexists; split; [reflexivity|];
  cbn [customTags paramTags]; split; [exact Hinv|]; split;
  [ rewrite ?map_app; cbn [map]; rewrite ?app_nil_r; reflexivity
  | let k := fresh "k" in
    let Hk := fresh "Hk" in
    intros k Hk;
    rewrite (recognized_false k _ Hk) by (cbn; tauto); reflexivity ].

Lemma categorize_spec (tags : TagsDetail) (tag : value) :
  acceptable tag -> arrays_only (customTags tags) ->
  exists tags',
    categorize tags tag = Ok tags'
    /\ arrays_only (customTags tags')
    /\ map paramEntry (paramTags tags')
       = (map paramEntry (paramTags tags)
          ++ (if named "@param" tag
              then [(field_of "name" tag, VStr (contentText tag))]
              else []))%list
    /\ forall k, recognized k = false ->
         lookup k (customTags tags')
         = extend (lookup k (customTags tags))
             (if named k tag then [VStr (contentText tag)] else []).
Proof.
  intros (tps & t & -> & Ht & Hin & [d Hd] & Hty) Hinv.
  assert (Hc : contentText (VObj tps) = d).
  { unfold contentText, field_of. cbn [get]. now rewrite Hd. }
  assert (Hx : exists r, (if truthy (field "typeExpression" tps)
                          then typeToString (field "typeExpression" tps)
                          else Ok VUndef) = Ok r).
  { destruct (truthy (field "typeExpression" tps)); [now apply Hty|eauto]. }
  destruct Hx as [r Hr].
  unfold categorize, named, field_of. cbn [get bind]. rewrite Ht, Hc.
  cbn [is_str].
  name_case t "@example"; [recognized_branch Hd Hinv|].
  name_case t "@tutorial"; [recognized_branch Hd Hinv|].
  name_case t "@tutorials"; [recognized_branch Hd Hinv|].
  name_case t "@see"; [recognized_branch Hd Hinv|].
  name_case t "@throws"; [recognized_branch Hd Hinv|].
  name_case t "@throw"; [recognized_branch Hd Hinv|].
  name_case t "@returns"; [rewrite Hr; recognized_branch Hd Hinv|].
  name_case t "@return"; [rewrite Hr; recognized_branch Hd Hinv|].
  name_case t "@param"; [rewrite Hr; recognized_branch Hd Hinv|].
  name_case t "@typeParam"; [recognized_branch Hd Hinv|].
  name_case t "@template"; [recognized_branch Hd Hinv|].
  cbn [to_string bind]. rewrite Hd. cbn [bind].
  destruct (push_custom t (VStr d) (customTags tags) Hinv Hin)
    as (custom' & -> & Hinv' & Hl).
  cbn [bind]. eexists. split; [reflexivity|].
  cbn [customTags paramTags]. split; [exact Hinv'|]. split.
  - now rewrite app_nil_r.
  - intros k _. rewrite Hl. destruct (t =? k); reflexivity.
Qed.

Lemma categorizeAll_spec (blockTags : list value) (tags : TagsDetail) :
  Forall acceptable blockTags -> arrays_only (customTags tags) ->
  exists tags',
    categorizeAll tags blockTags = Ok tags'
    /\ map paramEntry (paramTags tags')
       = (map paramEntry (paramTags tags)
          ++ map (fun tag => (field_of "name" tag, VStr (contentText tag)))
               (filter (named "@param") blockTags))%list
    /\ forall k, recognized k = false ->
         lookup k (customTags tags')
         = extend (lookup k (customTags tags))
             (map (fun tag => VStr (contentText tag))
                (filter (named k) blockTags)).
Proof.
  intros Ha. revert tags.
  induction Ha as [|tag rest Htag _ IH]; intros tags Hinv.
  - exists tags. split; [reflexivity|]. split; [now rewrite app_nil_r|].
    reflexivity.
  - cbn [categorizeAll].
    destruct (categorize_spec tags tag Htag Hinv) as (t1 & -> & Hinv1 & Hp1 & Hc1).
    cbn [bind].
    destruct (IH t1 Hinv1) as (t2 & -> & Hp2 & Hc2).
    exists t2. split; [reflexivity|]. split.
    + rewrite Hp2, Hp1, <- app_assoc. f_equal. cbn [filter].
      destruct (named "@param" tag); reflexivity.
    + intros k Hk. rewrite (Hc2 k Hk), (Hc1 k Hk), extend_app. f_equal.
      cbn [filter]. destruct (named k tag); reflexivity.
Qed.

(** C5 (the code at its failing input): the custom-tag branch is written as
    a map from arbitrary tag names to lists, [if (!m[k]) m[k] = [];
    m[k].push(text)], but the map is the object literal [{}]. A block tag
    named "constructor" is not among the recognized names, and filing it
    throws: [m["constructor"]] is the function inherited from
    Object.prototype, which is truthy and has no [push]. *)
Lemma C5_inherited_name_counterexample :
  recognized "constructor" = false
  /\ extractAllTags
       (VObj [("comment",
                VObj [("blockTags",
                        VArr [VObj [("tag", VStr "constructor");
                                    ("content", text "built by hand")]])])])
     = Throw.
Proof. split; reflexivity. Qed.

(** C5 off the defect: for every block-tag list whose tags render and carry
    no tag name inherited from Object.prototype (constructor, toString,
    __proto__ and the like; no name that starts with "@" is one),
    categorization succeeds; [paramTags] holds one entry for each @param tag,
    in order, with the name of the tag as [paramName] and its rendered
    content as [description]; and for every tag name [k] outside the
    recognized set, the custom-tag mapping holds under the literal key [k]
    the rendered contents of the tags named [k], in order, and has no such
    key when there is no such tag. *)
Theorem C5_tag_categorization
    (rps cps : list (string * value)) (blockTags : list value) :
  field "comment" rps = VObj cps ->
  field "blockTags" cps = VArr blockTags ->
  Forall acceptable blockTags ->
  exists tags,
    extractAllTags (VObj rps) = Ok tags
    /\ map paramEntry (paramTags tags)
       = map (fun tag => (field_of "name" tag, VStr (contentText tag)))
           (filter (named "@param") blockTags)
    /\ forall k, recognized k = false ->
         lookup k (customTags tags)
         = match filter (named k) blockTags with
           | [] => None
           | ts => Some (VArr (map (fun tag => VStr (contentText tag)) ts))
           end.
Proof.
  intros Hc Hb Ha.
  destruct (categorizeAll_spec blockTags emptyTags Ha) as (tags & Ht & Hp & Hk).
  { intros k v H. discriminate. }
  exists tags. split; [|split].
  - unfold extractAllTags. cbn [get bind]. rewrite Hc.
    unfold or_else. cbn [truthy get bind]. rewrite Hb.
    cbn [truthy negb iterate bind]. exact Ht.
  - exact Hp.
  - intros k Hr. rewrite (Hk k Hr). cbn [emptyTags customTags lookup].
    now destruct (filter (named k) blockTags).
Qed.

(** C5 at the block tags of the specification: @param x and @custom *)
Lemma C5_tag_categorization_witness :
  exists tags,
    extractAllTags
      (VObj [("comment", VObj [("blockTags", VArr example_tags)])]) = Ok tags
    /\ map paramEntry (paramTags tags) = [(VStr "x", VStr "the x")]
    /\ lookup "@custom" (customTags tags) = Some (VArr [VStr "hello"]).
Proof.
  destruct (C5_tag_categorization
              [("comment", VObj [("blockTags", VArr example_tags)])]
              [("blockTags", VArr example_tags)] example_tags
              eq_refl eq_refl) as (tags & Ht & Hp & Hk).
  - repeat apply Forall_cons; try apply Forall_nil;
      eexists _, _; (split; [reflexivity|]); (split; [reflexivity|]);
      (split; [reflexivity|]); (split; [eexists; reflexivity|]);
      intros H; discriminate H.
  - exists tags. split; [exact Ht|]. split; [exact Hp|].
    exact (Hk "@custom" eq_refl).
Defined.

(** ** Search tokens *)

Import Str.

Lemma keep_strings (l : list string) :
  filterM keepToken (map VStr l)
  = Ok (map VStr (filter (fun t => negb (t =? EmptyString)) l)).
Proof.
  induction l as [|s l IH]; [reflexivity|].
  cbn [map filterM filter]. rewrite IH.
  unfold keepToken. cbn [truthy get bind].
  destruct s as [|c s]; [reflexivity|].
  cbn [String.eqb negb]. change ("length" =? "length") with true.
  cbn iota. cbn [gt_zero bind String.length].
  replace (0 <? Z.of_nat (S (String.length s)))%Z with true
    by (symmetry; apply Z.ltb_lt; lia).
  reflexivity.
Qed.

Lemma tagTokens_spec (blockTags : list value) :
  Forall tokenizable blockTags ->
  mapM tagTokens blockTags
  = Ok (map (fun tag =>
               map VStr (if named "@example" tag || named "@tutorial" tag
                         then firstn 5 (split_ws (contentText tag))
                         else [])) blockTags).
Proof.
  induction 1 as [|tag rest (tps & -> & Hd) _ IH]; [reflexivity|].
  cbn [mapM map]. rewrite IH.
  unfold tagTokens at 1. unfold named, contentText, field_of in *.
  cbn [get bind] in *.
  destruct (is_str (field "tag" tps) "@example"
            || is_str (field "tag" tps) "@tutorial").
  - destruct (Hd eq_refl) as [d ->]. reflexivity.
  - reflexivity.
Qed.

Lemma concat_map_strings {A} (f : A -> list string) (l : list A) :
  concat (map (fun x => map VStr (f x)) l) = map VStr (flat_map f l).
Proof.
  induction l as [|x l IH]; [reflexivity|].
  cbn [map concat flat_map]. now rewrite IH, map_app.
Qed.

Lemma keepToken_scalar (v : value) :
  scalar v = true ->
  keepToken v = Ok (negb (textOf v =? EmptyString))
  /\ (textOf v <> EmptyString -> v = VStr (textOf v)).
Proof.
  destruct v as [| |b|z|s|l|ps]; try discriminate; intros _;
    (split; [|cbn [textOf]; congruence]); unfold keepToken;
    cbn [truthy textOf get bind gt_zero String.eqb negb]; try reflexivity.
  - destruct b; reflexivity.
  - destruct (negb (z =? 0)%Z); reflexivity.
  - destruct s as [|c s]; [reflexivity|].
    cbn [String.eqb negb]. change ("length" =? "length") with true.
    cbn iota. cbn [gt_zero bind String.length].
    replace (0 <? Z.of_nat (S (String.length s)))%Z with true
      by (symmetry; apply Z.ltb_lt; lia).
    reflexivity.
Qed.

Lemma keep_scalars (vs : list value) (l : list string) :
  Forall (fun v => scalar v = true) vs ->
  filterM keepToken (vs ++ map VStr l)%list
  = Ok (map VStr (filter (fun t => negb (t =? EmptyString))
                    (map textOf vs ++ l)%list)).
Proof.
  induction 1 as [|v vs Hv _ IH]; [apply keep_strings|].
  destruct (keepToken_scalar v Hv) as [Hk Hs].
  cbn [app map filterM filter]. rewrite Hk, IH. cbn [bind].
  destruct (textOf v =? EmptyString) eqn:E; cbn [negb map]; [reflexivity|].
  rewrite <- Hs; [reflexivity|]. intros Ht. rewrite Ht in E. discriminate.
Qed.

(** C7 (as stated, refuted): the kind of a declaration is not always among
    its search tokens. TypeDoc writes the kind of a reflection as a number;
    a number has no [length], so the filter [t && t.length > 0] drops it
    with the empty tokens. *)
Lemma C7_numeric_kind_counterexample :
  generateSearchTokens
    (VObj [("id", VNum 9); ("name", VStr "add"); ("kind", VNum 64)])
    (VStr "math.add")
  = Ok [VStr "add"; VStr "math.add"].
Proof. reflexivity. Qed.

(** C7 (amended): for a declaration whose name, full path and kind are
    scalars, the search tokens are its name, its full path and its kind,
    each where it is a string, the first ten white-space separated pieces of
    its rendered summary and, for every @example or @tutorial block tag in
    order, the first five pieces of the rendered text of the tag; the empty
    strings are then dropped, and with them a name, path or kind that is a
    number, a boolean or null. Nothing else is removed, reordered or
    changed in case. *)
Theorem C7_search_tokens
    (rps : list (string * value)) (path : value) (summary : string)
    (doc : value) (blockTags : list value) :
  scalar (field "name" rps) = true ->
  scalar path = true ->
  scalar (field "kind" rps) = true ->
  extractDocumentation (VObj rps) = Ok doc ->
  field_of "summary" doc = VStr summary ->
  (field_opt "blockTags" (field "comment" rps) = VArr blockTags
   /\ Forall tokenizable blockTags)
  \/ (truthy (field_opt "blockTags" (field "comment" rps)) = false
      /\ blockTags = []) ->
  generateSearchTokens (VObj rps) path
  = Ok (map VStr (searchTokensOf (textOf (field "name" rps)) (textOf path)
                    (textOf (field "kind" rps)) summary blockTags)).
Proof.
  intros Hn Hp Hk Hd Hs Hb. unfold generateSearchTokens.
  cbn [get bind]. rewrite Hd. cbn [bind].
  assert (Hg : get "summary" doc = Ok (VStr summary)).
  { unfold field_of in Hs. destruct doc; try discriminate Hs;
      cbn [get] in *; now rewrite Hs. }
  rewrite Hg. cbn [bind to_string]. rewrite get_opt_field_opt. cbn [bind].
  unfold searchTokensOf.
  assert (Hv : Forall (fun v => scalar v = true)
                 [field "name" rps; path; field "kind" rps])
    by (repeat constructor; assumption).
  destruct Hb as [[-> Ht] | [Hf ->]].
  - cbn [truthy map_method]. rewrite (tagTokens_spec blockTags Ht).
    cbn [bind]. rewrite concat_map_strings, <- app_assoc, <- map_app.
    exact (keep_scalars _ _ Hv).
  - rewrite Hf. cbn [bind flat_map]. rewrite app_nil_r.
    exact (keep_scalars _ _ Hv).
Qed.

(** C7 at a function with a summary that starts with a blank, an @example
    tag and a @see tag, once with its kind as a string and once, as TypeDoc
    writes it, as a number *)
Lemma C7_search_tokens_witness :
  generateSearchTokens (VObj documented) (VStr "math.add")
  = Ok (map VStr ["add"; "math.add"; "Function"; "Adds"; "two"; "numbers";
                  "add(1,"; "2)"; "gives"; "3"; "and"])
  /\ generateSearchTokens (VObj (("kind", VNum 64) :: documented))
       (VStr "math.add")
     = Ok (map VStr ["add"; "math.add"; "Adds"; "two"; "numbers";
                     "add(1,"; "2)"; "gives"; "3"; "and"]).
Proof.
  assert (Ht : Forall tokenizable
                 [VObj [("tag", VStr "@example");
                        ("content", text "add(1, 2) gives 3 and no more")];
                  VObj [("tag", VStr "@see"); ("content", text "sub")]]).
  { repeat apply Forall_cons; try apply Forall_nil;
      eexists; (split; [reflexivity|]); intros H;
      try discriminate H; eexists; reflexivity. }
  split.
  - destruct (extractDocumentation (VObj documented)) as [doc| | |] eqn:E;
      try (vm_compute in E; discriminate).
    refine (eq_trans
              (C7_search_tokens documented (VStr "math.add")
                 " Adds  two numbers" doc _
                 eq_refl eq_refl eq_refl E _ (or_introl (conj eq_refl Ht))) _).
    + vm_compute in E. injection E as <-. reflexivity.
    + reflexivity.
  - destruct (extractDocumentation (VObj (("kind", VNum 64) :: documented)))
      as [doc| | |] eqn:E; try (vm_compute in E; discriminate).
    refine (eq_trans
              (C7_search_tokens (("kind", VNum 64) :: documented)
                 (VStr "math.add") " Adds  two numbers" doc _
                 eq_refl eq_refl eq_refl E _ (or_introl (conj eq_refl Ht))) _).
    + vm_compute in E. injection E as <-. reflexivity.
    + reflexivity.
Defined.

End ExtractorFacts.

Module ProcessorFacts.
Import JS JSFacts HaltingFacts Extractor Processor Samples.

Section Loop.

Variable recurse : value -> value -> state -> state * completion.

Lemma loop_app (path : value) (l1 l2 : list value) (st : state) :
  loop recurse path (l1 ++ l2) st =
  let '(st1, c) := loop recurse path l1 st in
  match c with
  | Ok _ => loop recurse path l2 st1
  | _ => (st1, c)
  end.
Proof.
  revert st. induction l1 as [|r l1 IH]; intros st; [reflexivity|].
  cbn [app loop]. destruct (visit recurse path r st) as [st' [[]| | |]];
    [apply IH|reflexivity..].
Qed.


End Loop.

(** ** The walk only descends into its argument *)

Lemma hasChildren_object (r : value) :
  hasChildren r = Ok true -> exists ps, r = VObj ps.
Proof.
  destruct r as [| |b|z|s|l|ps]; try discriminate; eauto.
  all: unfold hasChildren; cbn [get bind];
    try (destruct (String.eqb "children" "length")); discriminate.
Qed.

Lemma children_depth (ps : list (string * value)) :
  depth (field_of "children" (VObj ps)) < depth (VObj ps).
Proof. unfold field_of. cbn [get]. apply field_depth. Qed.

Lemma visit_ext (rec1 rec2 : value -> value -> state -> state * completion)
    (path r : value) (st : state) :
  (forall c p s, depth c < depth r -> rec1 c p s = rec2 c p s) ->
  visit rec1 path r st = visit rec2 path r st.
Proof.
  intros H. unfold visit.
  destruct (extractAllDocumentation r path) as [doc| | |]; try reflexivity.
  destruct (hasChildren r) as [[|]| | |] eqn:E; try reflexivity.
  destruct (hasChildren_object r E) as [ps ->].
  rewrite H by apply children_depth. reflexivity.
Qed.

Lemma loop_ext (rec1 rec2 : value -> value -> state -> state * completion)
    (path : value) (l : list value) (st : state) :
  (forall r c p s, In r l -> depth c < depth r -> rec1 c p s = rec2 c p s) ->
  loop rec1 path l st = loop rec2 path l st.
Proof.
  revert st. induction l as [|r l IH]; intros st H; [reflexivity|].
  cbn [loop]. rewrite (visit_ext rec1 rec2 path r st)
    by (intros; apply (H r); [now left|assumption]).
  destruct (visit rec2 path r st) as [st' [[]| | |]]; try reflexivity.
  apply IH. intros r' c p s Hr. apply H. now right.
Qed.

(** With enough fuel the walk no longer depends on the fuel. *)
Lemma processReflections_fuel (n m : nat) (reflections path : value) (st : state) :
  depth reflections < n -> depth reflections < m ->
  processReflections n reflections path st
  = processReflections m reflections path st.
Proof.
  revert m reflections path st.
  induction n as [|n IH]; intros m r path st Hn Hm; [lia|].
  destruct m as [|m]; [lia|].
  cbn [processReflections]. unfold processReflections_body.
  destruct (iterate r) as [l| | |] eqn:E; try reflexivity.
  apply iterate_depth in E. apply loop_ext.
  intros x c p s Hx Hc. apply In_list_max_depth in Hx. apply IH; lia.
Qed.

Lemma handler_halts (r : value) (st : state) : halts (snd (handler r st)).
Proof.
  unfold handler.
  destruct (name <- get "name" r ;; to_string name) eqn:E; try discriminate.
  exfalso. revert E. apply halts_bind; [apply get_halts|].
  intros; apply to_string_halts.
Qed.

Lemma hasChildren_halts (r : value) : halts (hasChildren r).
Proof. unfold hasChildren. halting. Qed.

Lemma visit_halts (rec : value -> value -> state -> state * completion)
    (path r : value) (st : state) :
  (forall c p s, depth c < depth r -> halts (snd (rec c p s))) ->
  halts (snd (visit rec path r st)).
Proof.
  intros H. unfold visit.
  pose proof (extractAllDocumentation_halts r path) as He.
  destruct (extractAllDocumentation r path) as [doc| | |];
    [|apply handler_halts|now elim He|discriminate].
  pose proof (hasChildren_halts r) as Hc.
  destruct (hasChildren r) as [[|]| | |] eqn:E;
    [| discriminate | apply handler_halts | now elim Hc | discriminate].
  destruct (hasChildren_object r E) as [ps ->].
  specialize (H (field_of "children" (VObj ps)) (fullPath doc) (push doc st)
                (children_depth ps)).
  destruct (rec _ _ _) as [st2 [[]| | |]]; cbn [snd] in *;
    try discriminate; [apply handler_halts|now elim H].
Qed.

Lemma loop_halts (rec : value -> value -> state -> state * completion)
    (path : value) (l : list value) (st : state) :
  (forall r c p s, In r l -> depth c < depth r -> halts (snd (rec c p s))) ->
  halts (snd (loop rec path l st)).
Proof.
  revert st. induction l as [|r l IH]; intros st H; [discriminate|].
  cbn [loop].
  pose proof (visit_halts rec path r st
                (fun c p s Hc => H r c p s (or_introl eq_refl) Hc)) as Hv.
  destruct (visit rec path r st) as [st' [[]| | |]]; cbn [snd] in *;
    try discriminate; [|now elim Hv].
  apply IH. intros r' c p s Hr. apply H. now right.
Qed.

(** With fuel above the depth of the forest the walk ends, normally or by
    an exception that nothing caught. *)
Lemma processReflections_halts (fuel : nat) (reflections path : value)
    (st : state) :
  depth reflections < fuel ->
  halts (snd (processReflections fuel reflections path st)).
Proof.
  revert reflections path st.
  induction fuel as [|fuel IH]; intros r path st Hd; [lia|].
  cbn [processReflections]. unfold processReflections_body.
  pose proof (iterate_halts r) as Hi.
  destruct (iterate r) as [l| | |] eqn:E;
    [|discriminate|now elim Hi|discriminate].
  apply iterate_depth in E. apply loop_halts.
  intros x c p s Hx Hc. apply In_list_max_depth in Hx. apply IH. lia.
Qed.

(** The three siblings of the specification: the records of the first and
    of the third node and of the child of the third, in the order of the
    walk, and one warning for the second. *)
Example three_siblings_walk :
  let '(st, c) := processReflections 3
                    (VArr [first_sibling; second_sibling; third_sibling])
                    (VStr EmptyString) (mkState [] []) in
  c = Ok tt
  /\ map fullPath (allDocs st) = [VStr "alpha"; VStr "gamma"; VStr "gamma.delta"]
  /\ map id (allDocs st) = ["1"; "3"; "4"]
  /\ warnings st = ["broken"].
Proof. vm_compute. repeat split; reflexivity. Qed.

(** ** The search index *)

Import Str IndexSpec.

Lemma extend_ids_app (o : option value) (a b : list string) :
  extend_ids (extend_ids o a) b = extend_ids o (a ++ b).
Proof.
  destruct a as [|x a]; [reflexivity|].
  destruct b as [|y b].
  - now rewrite app_nil_r.
  - cbn [extend_ids app]. f_equal. f_equal.
    cbn [map]. rewrite map_app. cbn [map].
    now rewrite <- app_assoc.
Qed.

Lemma find_snoc {A} (p : A -> bool) (l : list A) (x : A) :
  find p (l ++ [x]) =
  match find p l with
  | Some y => Some y
  | None => if p x then Some x else None
  end.
Proof.
  induction l as [|y r IH]; simpl; [reflexivity|].
  destruct (p y); auto.
Qed.

Lemma last_where_cons (p : ExtractedDocumentation -> bool)
    (d : ExtractedDocumentation) (docs : list ExtractedDocumentation) :
  last_where p (d :: docs) =
  match last_where p docs with
  | Some y => Some y
  | None => if p d then Some d else None
  end.
Proof. unfold last_where. cbn [rev]. apply find_snoc. Qed.

Lemma token_key_own (k : string) : inherited ("token:" ++ k) = false.
Proof. reflexivity. Qed.

Lemma push_token (k i : string) (index : list (string * value)) :
  arrays_under_tokens index ->
  exists index',
    push_to ("token:" ++ k) (VStr i) index = Ok index'
    /\ lookup ("token:" ++ k) index'
       = extend_ids (lookup ("token:" ++ k) index) [i]
    /\ forall key, key <> "token:" ++ k -> lookup key index' = lookup key index.
Proof.
  intros Hinv. unfold push_to.
  destruct (lookup ("token:" ++ k) index) as [v|] eqn:E.
  - destruct (Hinv k v E) as [l ->].
    eexists. split; [reflexivity|]. split.
    + now rewrite lookup_set_prop_eq.
    + intros key Hk. apply lookup_set_prop_neq. congruence.
  - rewrite token_key_own.
    eexists. split; [reflexivity|]. split.
    + now rewrite lookup_set_prop_eq.
    + intros key Hk. apply lookup_set_prop_neq. congruence.
Qed.

Lemma indexTokens_spec (i : string) (tokens : list value)
    (index : list (string * value)) :
  Forall (fun t => exists s, t = VStr s) tokens ->
  arrays_under_tokens index ->
  exists index',
    indexTokens i tokens index = Ok index'
    /\ arrays_under_tokens index'
    /\ (forall key, (forall k, key <> "token:" ++ k) ->
          lookup key index' = lookup key index)
    /\ (forall k, lookup ("token:" ++ k) index'
          = extend_ids (lookup ("token:" ++ k) index)
              (flat_map (fun t => if toLowerCase t =? k then [i] else [])
                 (strings tokens))).
Proof.
  intros Ht. revert index.
  induction Ht as [|t tokens [s ->] _ IH]; intros index Hinv.
  - exists index. repeat split; auto.
  - cbn [indexTokens toLowerCase_method bind].
    destruct (push_token (toLowerCase s) i index Hinv) as (ix1 & -> & Hk & Ho).
    cbn [bind].
    assert (Hinv1 : arrays_under_tokens ix1).
    { intros k v Hv.
      destruct (String.eqb_spec (toLowerCase s) k) as [<-|Hne].
      - rewrite Hk in Hv. cbn [extend_ids] in Hv. injection Hv as <-. eauto.
      - rewrite Ho in Hv; [eauto|].
        intros Heq. apply Hne. cbn in Heq. now injection Heq. }
    destruct (IH ix1 Hinv1) as (ix2 & -> & Hinv2 & Hother & Htok).
    exists ix2. split; [reflexivity|]. split; [assumption|]. split.
    + intros key Hkey. rewrite Hother by assumption. apply Ho, Hkey.
    + intros k. rewrite Htok. cbn [strings flat_map app].
      fold (strings tokens).
      destruct (String.eqb_spec (toLowerCase s) k) as [<-|Hne].
      * rewrite Hk. rewrite extend_ids_app. reflexivity.
      * rewrite Ho; [reflexivity|].
        intros Heq. apply Hne. cbn in Heq. now injection Heq.
Qed.

Lemma indexDoc_spec (d : ExtractedDocumentation) (index : list (string * value)) :
  typed d -> arrays_under_tokens index ->
  exists index',
    indexDoc index d = Ok index'
    /\ arrays_under_tokens index'
    /\ (forall i, lookup ("id:" ++ i) index'
          = if id d =? i then Some (entryOf d) else lookup ("id:" ++ i) index)
    /\ (forall p, lookup ("path:" ++ p) index'
          = if pathOf d =? p then Some (VStr (id d))
            else lookup ("path:" ++ p) index)
    /\ (forall k, lookup ("token:" ++ k) index'
          = extend_ids (lookup ("token:" ++ k) index) (idsOfRecord k d)).
Proof.
  intros [[p Hp] Ht] Hinv. unfold indexDoc. rewrite Hp. cbn [to_string bind].
  set (ix1 := set_prop ("id:" ++ id d) _ index).
  set (ix2 := set_prop ("path:" ++ p) _ ix1).
  assert (Hinv2 : arrays_under_tokens ix2).
  { intros k v. unfold ix2, ix1.
    rewrite !lookup_set_prop_neq by (cbn; discriminate). apply Hinv. }
  destruct (indexTokens_spec (id d) (searchTokens d) ix2 Ht Hinv2)
    as (ix3 & -> & Hinv3 & Hother & Htok).
  exists ix3. split; [reflexivity|]. split; [assumption|]. split; [|split].
  - intros i. rewrite Hother by (intros k; cbn; discriminate).
    unfold ix2. rewrite lookup_set_prop_neq by (cbn; discriminate).
    unfold ix1. destruct (String.eqb_spec (id d) i) as [<-|Hne].
    + rewrite lookup_set_prop_eq. unfold entryOf. now rewrite Hp.
    + apply lookup_set_prop_neq. intros Heq. apply Hne.
      cbn in Heq. now injection Heq.
  - intros q. rewrite Hother by (intros k; cbn; discriminate).
    unfold pathOf. rewrite Hp. unfold ix2.
    destruct (String.eqb_spec p q) as [<-|Hne].
    + now rewrite lookup_set_prop_eq.
    + rewrite lookup_set_prop_neq.
      * unfold ix1. apply lookup_set_prop_neq. cbn. discriminate.
      * intros Heq. apply Hne. cbn in Heq. now injection Heq.
  - intros k. rewrite Htok. unfold ix2, ix1.
    rewrite !lookup_set_prop_neq by (cbn; discriminate). reflexivity.
Qed.

Lemma indexDocs_spec (docs : list ExtractedDocumentation)
    (index : list (string * value)) :
  Forall typed docs -> arrays_under_tokens index ->
  exists index',
    indexDocs docs index = Ok index'
    /\ (forall i, lookup ("id:" ++ i) index'
          = match last_where (fun d => id d =? i) docs with
            | Some d => Some (entryOf d)
            | None => lookup ("id:" ++ i) index
            end)
    /\ (forall p, lookup ("path:" ++ p) index'
          = match last_where (fun d => pathOf d =? p) docs with
            | Some d => Some (VStr (id d))
            | None => lookup ("path:" ++ p) index
            end)
    /\ (forall k, lookup ("token:" ++ k) index'
          = extend_ids (lookup ("token:" ++ k) index) (idsOf k docs)).
Proof.
  intros Ht. revert index.
  induction Ht as [|d docs Hd _ IH]; intros index Hinv.
  - exists index. repeat split; auto.
  - cbn [indexDocs].
    destruct (indexDoc_spec d index Hd Hinv) as (ix1 & -> & Hinv1 & Hi & Hp & Hk).
    cbn [bind].
    destruct (IH ix1 Hinv1) as (ix2 & -> & Hi2 & Hp2 & Hk2).
    exists ix2. split; [reflexivity|]. split; [|split].
    + intros i. rewrite Hi2, last_where_cons, Hi.
      destruct (last_where _ docs); [reflexivity|].
      destruct (id d =? i); reflexivity.
    + intros p. rewrite Hp2, last_where_cons, Hp.
      destruct (last_where _ docs); [reflexivity|].
      destruct (pathOf d =? p); reflexivity.
    + intros k. rewrite Hk2, Hk, extend_ids_app. reflexivity.
Qed.

(** C3 (as stated, refuted): the walk over two sibling declarations with
    different ids and the same name leaves two records with the same full
    path. The index maps ["path:dup"] to the id of the second record only, so
    the first record is not found under its full path. (Under ["token:dup"]
    each of the two ids stands twice, once for the name and once for the
    full path of its record.) *)
Lemma C3_shared_path_counterexample :
  let st := fst (processReflections 2 (VArr [twin 1; twin 2])
                   (VStr EmptyString) (mkState [] [])) in
  map (fun d => (id d, fullPath d)) (allDocs st)
    = [("1", VStr "dup"); ("2", VStr "dup")]
  /\ exists index,
       buildSearchIndex (allDocs st) = Ok index
       /\ lookup "path:dup" index = Some (VStr "2")
       /\ lookup "path:dup" index <> Some (VStr "1")
       /\ lookup "token:dup" index
          = Some (VArr [VStr "1"; VStr "1"; VStr "2"; VStr "2"]).
Proof.
  cbv zeta. split; [vm_compute; reflexivity|].
  eexists. split; [vm_compute; reflexivity|].
  split; [vm_compute; reflexivity|].
  split; [vm_compute; discriminate|]. vm_compute. reflexivity.
Qed.

(** C3 (amended): for every collection of extracted records whose full
    paths and search tokens are strings, the index is built without error
    and holds, under ["id:" + id], the name, kind and full path of the last
    record with that id; under ["path:" + fullPath], the id of the last
    record with that full path; and under ["token:" + k], the ids of the
    records that have a search token whose lowercase form is [k], one id for
    each such token, in processing order. A key that no record gives rise
    to is absent. *)
Theorem C3_search_index (docs : list ExtractedDocumentation) :
  Forall typed docs ->
  exists index,
    buildSearchIndex docs = Ok index
    /\ (forall i, lookup ("id:" ++ i) index
          = option_map entryOf (last_where (fun d => id d =? i) docs))
    /\ (forall p, lookup ("path:" ++ p) index
          = option_map (fun d => VStr (id d))
              (last_where (fun d => pathOf d =? p) docs))
    /\ (forall k, lookup ("token:" ++ k) index
          = match idsOf k docs with
            | [] => None
            | ids => Some (VArr (map VStr ids))
            end).
Proof.
  intros Ht.
  destruct (indexDocs_spec docs [] Ht) as (index & Hb & Hi & Hp & Hk).
  { intros k v H. discriminate. }
  exists index. split; [exact Hb|]. split; [|split].
  - intros i. rewrite Hi. now destruct (last_where _ docs).
  - intros p. rewrite Hp. now destruct (last_where _ docs).
  - intros k. rewrite Hk. now destruct (idsOf k docs).
Qed.

Lemma sample_records_typed : Forall typed sample_records.
Proof.
  repeat apply Forall_cons; try apply Forall_nil;
    (split; [eexists; reflexivity|]);
    repeat apply Forall_cons; try apply Forall_nil; eexists; reflexivity.
Qed.

(** C3 at two records whose names differ in case only *)
Lemma C3_search_index_witness :
  exists index,
    buildSearchIndex sample_records = Ok index
    /\ lookup "id:2" index
       = Some (VObj [("name", VStr "foo"); ("kind", VStr "Function");
                     ("fullPath", VStr "lib.foo")])
    /\ lookup "path:lib.foo" index = Some (VStr "2")
    /\ lookup "token:foo" index = Some (VArr [VStr "1"; VStr "1"; VStr "2"])
    /\ lookup "token:bar" index = None.
Proof.
  destruct (C3_search_index sample_records sample_records_typed)
    as (index & Hb & Hi & Hp & Hk).
  exists index. split; [exact Hb|]. split; [|split; [|split]].
  - exact (Hi "2").
  - exact (Hp "lib.foo").
  - exact (Hk "foo").
  - exact (Hk "bar").
Defined.

End ProcessorFacts.

(* ================================================================== *)
(** * Runs that end with a value or an exception *)
(* ================================================================== *)

Module OutcomeFacts.
Import JS JSFacts Outcome.

Ltac settle := split; discriminate.

Lemma settled_cases {A} (r : result A) :
  settled r -> (exists a, r = Ok a) \/ r = Throw.
Proof.
  destruct r; intros [H1 H2]; try congruence; [left; eauto | now right].
Qed.

Lemma settled_bind {A B} (m : result A) (k : A -> result B) :
  settled m -> (forall a, m = Ok a -> settled (k a)) -> settled (bind m k).
Proof.
  destruct m; simpl; intros [H1 H2] Hk; try congruence.
  - now apply Hk.
  - settle.
Qed.

Lemma get_settled (k : string) (v : value) : settled (get k v).
Proof. destruct v; settle. Qed.

Lemma get_opt_settled (k : string) (v : value) : settled (get_opt k v).
Proof. destruct v; settle. Qed.

Lemma iterate_settled (v : value) : settled (iterate v).
Proof. destruct v; settle. Qed.

Lemma join_with_settled (toStr : value -> result string) (sep : string)
    (l : list value) :
  (forall x, In x l -> settled (toStr x)) -> settled (join_with toStr sep l).
Proof.
  induction l as [|v r IH]; intros H; [settle|].
  cbn [join_with]. apply settled_bind.
  - destruct v; try settle; apply H; now left.
  - intros s _. destruct r as [|w r]; [settle|].
    apply settled_bind; [|intros; settle].
    apply IH. intros x Hx. apply H. now right.
Qed.

Lemma to_string_settled (v : value) : settled (to_string v).
Proof.
  enough (H : forall n v, depth v <= n -> settled (to_string v))
    by (apply (H (depth v)); lia).
  clear v. induction n as [|n IH]; intros v Hd;
    destruct v as [| |b|z|s|l|ps]; try settle;
    try (destruct b; settle);
    try (simpl in Hd; lia);
    try (cbn [to_string]; destruct (has_key "toString" ps); settle).
  cbn [to_string]. apply join_with_settled. intros x Hx. apply IH.
  apply elem_depth in Hx. lia.
Qed.

Lemma join_settled (sep : string) (l : list value) : settled (join sep l).
Proof. apply join_with_settled. intros; apply to_string_settled. Qed.

Lemma piece_settled (v : value) : settled (piece v).
Proof. destruct v; try settle; apply to_string_settled. Qed.

Lemma mapM_settled {A B} (f : A -> result B) (l : list A) :
  (forall x, In x l -> settled (f x)) -> settled (mapM f l).
Proof.
  induction l as [|x r IH]; intros H; [settle|].
  cbn [mapM]. apply settled_bind; [apply H; now left|intros y _].
  apply settled_bind; [|intros; settle].
  apply IH. intros z Hz. apply H. now right.
Qed.

(** A run that is followed by a throw throws. *)
Lemma bind_throw {A B} (m : result A) :
  settled m -> bind m (fun _ => @Throw B) = Throw.
Proof. destruct m; intros [H1 H2]; try congruence; reflexivity. Qed.

Lemma Ok_inj {A} (a b : A) : Ok a = Ok b -> a = b.
Proof. now intros [= ->]. Qed.

Lemma bind_ret {A} (m : result A) : bind m (fun a => Ok a) = m.
Proof. now destruct m. Qed.

Lemma string_append_assoc (a b c : string) : (a ++ b) ++ c = a ++ (b ++ c).
Proof. induction a; simpl; congruence. Qed.

Lemma string_append_nil (a : string) : a ++ EmptyString = a.
Proof. induction a; simpl; congruence. Qed.

(** [join] with the empty separator prints the elements one after the
    other. *)
Lemma join_empty_cons (v : value) (r : list value) :
  join EmptyString (v :: r)
  = (s <- piece v ;; t <- join EmptyString r ;; Ok (s ++ t)).
Proof.
  unfold join. cbn [join_with].
  change (match v with
          | VUndef | VNull => Ok EmptyString
          | _ => to_string v
          end) with (piece v).
  destruct (piece v) as [s| | |]; cbn [bind]; try reflexivity.
  destruct r as [|w r]; [cbn; now rewrite string_append_nil|].
  reflexivity.
Qed.

Lemma mapM_app {A B} (f : A -> result B) (l1 l2 : list A) :
  mapM f (l1 ++ l2)%list
  = (a <- mapM f l1 ;; b <- mapM f l2 ;; Ok (a ++ b)%list).
Proof.
  induction l1 as [|x l1 IH]; cbn [mapM app bind].
  - now rewrite bind_ret.
  - destruct (f x) as [y| | |]; cbn [bind]; try reflexivity.
    rewrite IH. destruct (mapM f l1); cbn [bind]; try reflexivity.
    destruct (mapM f l2); reflexivity.
Qed.

Lemma join_empty_app (l1 l2 : list value) (s1 s2 : string) :
  join EmptyString l1 = Ok s1 -> join EmptyString l2 = Ok s2 ->
  join EmptyString (l1 ++ l2)%list = Ok (s1 ++ s2).
Proof.
  revert s1. induction l1 as [|v l1 IH]; intros s1 H1 H2.
  - cbn in H1. injection H1 as <-. exact H2.
  - cbn [app]. rewrite join_empty_cons in *.
    destruct (piece v) as [s| | |]; cbn [bind] in *; try discriminate.
    destruct (join EmptyString l1) as [t| | |]; cbn [bind] in *;
      try discriminate.
    injection H1 as <-. rewrite (IH t eq_refl H2). cbn [bind].
    now rewrite string_append_assoc.
Qed.

End OutcomeFacts.

(* ================================================================== *)
(** * comment-parser.ts: further properties *)
(* ================================================================== *)

Module CommentParserFacts.
Import JS JSFacts Outcome OutcomeFacts Str CommentParser CommentSpec.

Create HintDb settled.

#[export] Hint Resolve get_settled get_opt_settled iterate_settled
  to_string_settled join_settled piece_settled : settled.

Ltac settling :=
  repeat (cbv beta;
    match goal with
    | |- settled (Ok _) => settle
    | |- settled Throw => settle
    | |- settled (bind (bind _ _) _) => rewrite bind_assoc
    | |- settled (bind _ _) =>
        apply settled_bind; [solve [auto with settled]|intros ? _]
    | |- settled (if ?b then _ else _) => destruct b
    | |- settled _ => solve [auto with settled]
    end).

Lemma parseInlineTag_settled (tag : value) : settled (parseInlineTag tag).
Proof. unfold parseInlineTag. settling. Qed.

#[export] Hint Resolve parseInlineTag_settled : settled.

Lemma renderPart_settled (part : value) : settled (renderPart part).
Proof. unfold renderPart. settling. Qed.

(** The arrow function of the private copy in signature-builder.ts *)
Lemma private_part_settled (part : value) :
  settled (kind <- get "kind" part ;;
           if is_str kind "text" then get "text" part
           else if is_str kind "code" then
             text <- get "text" part ;;
             s <- to_string text ;;
             Ok (VStr ("`" ++ s ++ "`"))
           else Ok (VStr EmptyString)).
Proof. settling. Qed.

(** X1: the text of a comment is the concatenation of the texts of its
    parts: when two lists of parts render, the list made of both renders to
    the two texts one after the other. *)
Theorem extractCommentParts_app (a b : list value) (sa sb : string) :
  extractCommentParts (VArr a) = Ok sa ->
  extractCommentParts (VArr b) = Ok sb ->
  extractCommentParts (VArr (a ++ b)%list) = Ok (sa ++ sb).
Proof.
  unfold extractCommentParts. cbn [truthy negb map_method].
  intros Ha Hb. rewrite mapM_app.
  destruct (mapM renderPart a) as [ra| | |]; cbn [bind] in *; try discriminate.
  destruct (mapM renderPart b) as [rb| | |]; cbn [bind] in *; try discriminate.
  now apply join_empty_app.
Qed.

Lemma extractCommentParts_app_witness :
  extractCommentParts
    (VArr ([text_part "see "; link_part "foo" "#foo"] ++ [code_part "x"])%list)
  = Ok ("see [foo](#foo)" ++ "`x`").
Proof. apply extractCommentParts_app; reflexivity. Defined.

Lemma plainPart_same (x : value) :
  plainPart x = true ->
  (kind <- get "kind" x ;;
   if is_str kind "text" then get "text" x
   else if is_str kind "code" then
     text <- get "text" x ;;
     s <- to_string text ;;
     Ok (VStr ("`" ++ s ++ "`"))
   else Ok (VStr EmptyString))
  = renderPart x.
Proof.
  unfold plainPart, renderPart, field_of.
  destruct (get "kind" x) as [kind| | |]; cbn [bind]; try reflexivity.
  intros H. apply negb_true_iff, orb_false_iff in H. destruct H as [H1 H2].
  rewrite H1, H2. reflexivity.
Qed.

Lemma plainPart_dropped (x : value) :
  plainPart x = false ->
  (kind <- get "kind" x ;;
   if is_str kind "text" then get "text" x
   else if is_str kind "code" then
     text <- get "text" x ;;
     s <- to_string text ;;
     Ok (VStr ("`" ++ s ++ "`"))
   else Ok (VStr EmptyString))
  = Ok (VStr EmptyString).
Proof.
  unfold plainPart, field_of.
  destruct (get "kind" x) as [kind| | |]; cbn [bind]; try discriminate.
  intros H. apply negb_false_iff, orb_true_iff in H.
  destruct kind as [| |b|z|s|l|ps]; cbn [is_str] in *;
    try (destruct H; discriminate).
  destruct H as [H | H]; apply String.eqb_eq in H; subst s; reflexivity.
Qed.

(** X2: the private extractCommentParts of signature-builder.ts is the one
    of comment-parser.ts applied to the parts that are neither inline tags
    nor code spans: it leaves those two kinds out of the text. *)
Theorem private_extractCommentParts_drops_inline (l : list value) :
  SignatureBuilder.extractCommentParts (VArr l)
  = extractCommentParts (VArr (filter plainPart l)).
Proof.
  unfold SignatureBuilder.extractCommentParts, extractCommentParts.
  cbn [truthy negb map_method].
  set (f := fun part : value => _).
  induction l as [|x l IH]; [reflexivity|].
  assert (Sf : settled (mapM f l))
    by (apply mapM_settled; intros; apply private_part_settled).
  assert (Sg : settled (mapM renderPart (filter plainPart l)))
    by (apply mapM_settled; intros; apply renderPart_settled).
  cbn [mapM filter]. destruct (plainPart x) eqn:Hx.
  - cbn [mapM]. replace (f x) with (renderPart x)
      by (symmetry; apply plainPart_same, Hx).
    destruct (renderPart x) as [y| | |]; cbn [bind]; try reflexivity.
    rewrite !bind_assoc. cbn [bind].
    pose proof (piece_settled y) as Sy.
    destruct (settled_cases _ Sy) as [[s Hs] | Hs].
    + transitivity (t <- (ys <- mapM f l ;; join EmptyString ys) ;; Ok (s ++ t)).
      * rewrite bind_assoc. destruct (mapM f l); cbn [bind]; try reflexivity.
        rewrite join_empty_cons, Hs. reflexivity.
      * rewrite IH, bind_assoc.
        destruct (mapM renderPart (filter plainPart l)); cbn [bind];
          try reflexivity.
        rewrite join_empty_cons, Hs. reflexivity.
    + transitivity (@Throw string).
      * rewrite <- (bind_throw (mapM f l) Sf).
        destruct (mapM f l); cbn [bind]; try reflexivity.
        rewrite join_empty_cons, Hs. reflexivity.
      * rewrite <- (bind_throw (B := string) _ Sg).
        destruct (mapM renderPart (filter plainPart l)); cbn [bind];
          try reflexivity.
        rewrite join_empty_cons, Hs. reflexivity.
  - replace (f x) with (@Ok value (VStr EmptyString))
      by (symmetry; apply plainPart_dropped, Hx).
    cbn [bind]. rewrite bind_assoc. cbn [bind]. rewrite <- IH.
    destruct (mapM f l); cbn [bind]; try reflexivity.
    rewrite join_empty_cons. cbn [piece bind].
    destruct (join EmptyString a); reflexivity.
Qed.

(** ** Code blocks *)

Lemma scan_blocks_no_fence (s : string) :
  includes fence s = false -> forall skip, scan_blocks skip s = [].
Proof.
  induction s as [|c s IH]; intros H skip; [reflexivity|].
  cbn [scan_blocks]. cbn [includes] in H.
  destruct (String.prefix fence (String c s)) eqn:P; [discriminate|].
  destruct skip as [|k]; [|now apply IH].
  unfold match_block. rewrite P. now apply IH.
Qed.

(** X3: a text in which extractCodeBlocks finds a block is one that
    isCodeExample accepts. *)
Theorem code_blocks_are_code_examples (text : string) :
  extractCodeBlocks text <> [] -> isCodeExample text = true.
Proof.
  intros H. unfold isCodeExample. cbn [existsb].
  destruct (includes "```" text) eqn:F; [reflexivity|].
  exfalso. apply H. unfold extractCodeBlocks.
  now apply scan_blocks_no_fence.
Qed.

Lemma code_blocks_are_code_examples_witness :
  isCodeExample ("Use it:" ++ newline ++ "```ts" ++ newline ++ " add(1, 2) "
                 ++ newline ++ "```") = true.
Proof. apply code_blocks_are_code_examples. vm_compute. discriminate. Defined.

Lemma last_char_none (s : string) : last_char s = None -> s = EmptyString.
Proof.
  destruct s as [|c r]; [reflexivity|]. cbn [last_char].
  destruct (last_char r); discriminate.
Qed.

Lemma trim_end_last (s : string) : bare (last_char (trim_end s)) = true.
Proof.
  induction s as [|c s IH]; [reflexivity|]. cbn [trim_end].
  destruct (is_ws c && (trim_end s =? EmptyString)) eqn:E; [reflexivity|].
  cbn [last_char]. destruct (last_char (trim_end s)) as [d|] eqn:L;
    [exact IH|].
  apply last_char_none in L. rewrite L in E. cbn [String.eqb] in E.
  rewrite andb_true_r in E. cbn [bare]. now rewrite E.
Qed.

Lemma trim_start_head (s : string) :
  trim_start s = EmptyString
  \/ exists c r, trim_start s = String c r /\ is_ws c = false.
Proof.
  induction s as [|c s IH]; [now left|]. cbn [trim_start].
  destruct (is_ws c) eqn:E; [exact IH|]. right. eauto.
Qed.

(** What [trim] returns has no white space at either end. *)
Lemma trim_trimmed (s : string) : trimmed (trim s).
Proof.
  unfold trimmed, trim. split; [|apply trim_end_last].
  destruct (trim_start_head s) as [H | (c & r & H & W)]; rewrite H;
    [reflexivity|].
  cbn [trim_end]. rewrite W. cbn [andb first_char bare]. now rewrite W.
Qed.

(** X4: every block that extractCodeBlocks returns is trimmed: it is empty,
    or it starts and ends with a character that is not white space. *)
Theorem code_blocks_trimmed (text : string) :
  Forall trimmed (extractCodeBlocks text).
Proof.
  unfold extractCodeBlocks. generalize 0 as skip.
  induction text as [|c s IH]; intros skip; [constructor|].
  cbn [scan_blocks]. destruct skip as [|k]; [|apply IH].
  destruct (match_block (String c s)) as [[inner len]|]; [|apply IH].
  constructor; [apply trim_trimmed | apply IH].
Qed.

(** A block between blank lines and indented code: the blanks at both ends
    of the block are gone, those inside stay. *)
Example code_block_sample :
  extractCodeBlocks ("```ts" ++ newline ++ newline ++ "  let x = 1;  " ++ newline
                     ++ "  x + 1" ++ newline ++ "```")
  = ["let x = 1;  " ++ newline ++ "  x + 1"].
Proof. reflexivity. Qed.

(** ** Author tags *)

Lemma author_filter (tags : list value) :
  Forall (readable "@author") tags ->
  filterM (fun t => tag <- get "tag" t ;; Ok (is_str tag "@author")) tags
  = Ok (filter (TagSpec.named "@author") tags).
Proof.
  induction 1 as [|tag tags (tps & -> & _) _ IH]; [reflexivity|].
  cbn [filterM filter get bind]. rewrite IH. cbn [bind].
  unfold TagSpec.named, field_of. cbn [get].
  destruct (is_str (field "tag" tps) "@author"); reflexivity.
Qed.

Lemma author_contents (tags : list value) :
  Forall (readable "@author") tags ->
  mapM (fun t =>
          content <- get "content" t ;;
          s <- extractCommentParts content ;;
          Ok (VStr s)) (filter (TagSpec.named "@author") tags)
  = Ok (authorsOf tags).
Proof.
  unfold authorsOf.
  induction 1 as [|tag tags (tps & -> & Hd) _ IH]; [reflexivity|].
  cbn [filter].
  change (TagSpec.named "@author" (VObj tps))
    with (is_str (field "tag" tps) "@author").
  destruct (is_str (field "tag" tps) "@author") eqn:E; [|exact IH].
  destruct (Hd eq_refl) as [d Hd'].
  assert (C : TagSpec.contentText (VObj tps) = d).
  { unfold TagSpec.contentText, field_of, Extractor.extractCommentParts.
    cbn [get]. now rewrite Hd'. }
  cbn [mapM map get bind]. rewrite Hd'. cbn [bind]. rewrite IH. cbn [bind].
  rewrite C. reflexivity.
Qed.

(** X5: the authors of a comment are the rendered contents of its @author
    block tags, in the order of the tags; the other block tags are left
    out. *)
Theorem extractAuthorTags_spec (cps : list (string * value)) (tags : list value) :
  field "blockTags" cps = VArr tags ->
  Forall (readable "@author") tags ->
  extractAuthorTags (VObj cps) = Ok (authorsOf tags).
Proof.
  intros Hb Ht. unfold extractAuthorTags. cbn [get bind]. rewrite Hb.
  cbn [truthy negb filter_method]. rewrite (author_filter tags Ht).
  cbn [bind]. now apply author_contents.
Qed.

Lemma extractAuthorTags_spec_witness :
  extractAuthorTags (VObj [("blockTags", VArr author_tags)])
  = Ok [VStr "Ada"; VStr "Grace `gh`"].
Proof.
  apply (extractAuthorTags_spec [("blockTags", VArr author_tags)] author_tags).
  - reflexivity.
  - repeat constructor; eexists; (split; [reflexivity|]); intros _;
      eexists; reflexivity.
Defined.

End CommentParserFacts.

(* ================================================================== *)
(** * type-converter.ts: the text of the composite expressions *)
(* ================================================================== *)

Module TypeFormatFacts.
Import JS JSFacts OutcomeFacts TypeConverter TypeConverterFacts TypeExpression.
Import TypeFormat Samples.

Lemma or_else_nameOr (v : value) (d : string) :
  opt_string v = true -> d <> EmptyString ->
  or_else v (VStr d) = VStr (nameOr d v).
Proof.
  destruct v; try discriminate; intros _ Hd; unfold or_else; simpl;
    [reflexivity|].
  destruct (s =? EmptyString); reflexivity.
Qed.

Lemma strings_render (l : list value) (ss : list string) :
  Forall2 (fun a s => render a = Ok (VStr s)) l ss ->
  mapM render l = Ok (map VStr ss).
Proof. apply mapM_strings. Qed.

(** X6: a reference renders as its name followed by its type arguments
    between angle brackets, separated by a comma and a space; without
    arguments (an empty list) it is the bare name, and a missing or empty
    name reads unknown. *)
Theorem reference_format (ps : list (string * value)) (args : list value)
    (ss : list string) :
  classify (field "type" ps) = CReference ->
  opt_string (field "name" ps) = true ->
  field "typeArguments" ps = VArr args ->
  Forall2 (fun a s => render a = Ok (VStr s)) args ss ->
  render (VObj ps)
  = Ok (VStr (referenceText (nameOr "unknown" (field "name" ps)) ss)).
Proof.
  intros Hc Hn Ha HF. rewrite render_unfold. unfold typeToString_body.
  cbn [truthy negb get bind]. rewrite Hc. unfold handleReferenceType.
  cbn [get bind]. rewrite Ha. cbn [truthy get bind].
  rewrite (or_else_nameOr _ "unknown" Hn) by discriminate.
  inversion HF as [|a s args' ss' Hr HF' Ea Es]; subst; [reflexivity|].
  change (gt_zero _) with (@Ok bool true). cbn [bind map_method].
  rewrite (strings_render _ _ HF). cbn [bind].
  rewrite join_strings. reflexivity.
Qed.

Lemma reference_format_witness :
  render (reference_to "Map" [intrinsic "string"; reference_to EmptyString []])
  = Ok (VStr "Map<string, unknown>").
Proof.
  refine (reference_format
            [("type", VStr "reference"); ("name", VStr "Map");
             ("typeArguments",
               VArr [intrinsic "string"; reference_to EmptyString []])]
            [intrinsic "string"; reference_to EmptyString []]
            ["string"; "unknown"] _ _ _ _); try reflexivity.
  repeat constructor.
Defined.

(** ** Object shapes and function shapes *)

Lemma members_render_text (children : list value)
    (members : list (string * string)) :
  Forall2 member children members ->
  mapM (renderProperty render) children = Ok (map VStr (map memberText members)).
Proof.
  induction 1 as [|child m children members (cps & -> & Hn & Ht) _ IH];
    [reflexivity|].
  cbn [mapM map]. unfold renderProperty at 1. cbn [get bind]. rewrite Hn.
  destruct (truthy (field "type" cps)).
  - rewrite Ht. cbn [bind to_string]. rewrite IH. reflexivity.
  - cbn [bind to_string]. rewrite IH. unfold memberText at 2. rewrite Ht.
    reflexivity.
Qed.

(** X7: an object shape renders as its members between braces, each as
    name: type and separated by a semicolon and a space, in the order of
    the list; a member without a type has the type any, and the signatures
    of the declaration play no part. An empty member list gives the braces
    around two spaces. *)
Theorem object_shape_format (ps decl : list (string * value))
    (children : list value) (members : list (string * string)) :
  classify (field "type" ps) = CReflection ->
  field "declaration" ps = VObj decl ->
  field "children" decl = VArr children ->
  Forall2 member children members ->
  render (VObj ps) = Ok (VStr (objectText members)).
Proof.
  intros Hc Hd Hch HF. rewrite render_unfold. unfold typeToString_body.
  cbn [truthy negb get bind]. rewrite Hc. unfold handleReflectionType.
  cbn [get bind]. rewrite Hd. cbn [truthy negb get bind]. rewrite Hch.
  cbn [truthy map_method]. rewrite (members_render_text _ _ HF).
  cbn [bind]. rewrite join_strings. reflexivity.
Qed.

Lemma object_shape_format_witness :
  render (object_shape [VObj [("name", VStr "id"); ("type", intrinsic "number")];
                        VObj [("name", VStr "tag")]])
  = Ok (VStr "{ id: number; tag: any }")
  /\ render (object_shape []) = Ok (VStr "{  }").
Proof.
  split.
  - refine (object_shape_format _ [("children", VArr _)] _
              [("id", "number"); ("tag", "any")] _ _ _ _); try reflexivity.
    repeat constructor; eexists; repeat split.
  - refine (object_shape_format _ [("children", VArr [])] [] [] _ _ _ _);
      try reflexivity. constructor.
Defined.

(** X8: a function shape is rendered from the first of its call signatures
    alone: two shapes whose declarations have no member list and the same
    first signature render alike, whatever overloads follow. *)
Theorem function_shape_first_signature (ps ps' decl decl' : list (string * value))
    (sig : value) (others others' : list value) :
  classify (field "type" ps) = CReflection ->
  classify (field "type" ps') = CReflection ->
  field "declaration" ps = VObj decl ->
  field "declaration" ps' = VObj decl' ->
  truthy (field "children" decl) = false ->
  truthy (field "children" decl') = false ->
  field "signatures" decl = VArr (sig :: others) ->
  field "signatures" decl' = VArr (sig :: others') ->
  render (VObj ps) = render (VObj ps').
Proof.
  intros Hc Hc' Hd Hd' Hn Hn' Hs Hs'.
  rewrite (render_unfold (VObj ps)), (render_unfold (VObj ps')).
  unfold typeToString_body. cbn [truthy negb get bind]. rewrite Hc, Hc'.
  unfold handleReflectionType. cbn [get bind]. rewrite Hd, Hd'.
  cbn [truthy negb get bind]. rewrite Hn, Hn', Hs, Hs'. reflexivity.
Qed.

Lemma function_shape_first_signature_witness :
  render (function_shape [VObj [("type", intrinsic "void")];
                          VObj [("type", intrinsic "string")]])
  = render (function_shape [VObj [("type", intrinsic "void")]]).
Proof.
  refine (function_shape_first_signature _ _ [("signatures", VArr _)]
            [("signatures", VArr _)] _ _ _ _ _ _ _ _ _ _ _);
    reflexivity.
Defined.

(** ** Nothing is parenthesised *)

Lemma concat_snoc (sep t s : string) (ss : list string) :
  String.concat sep (ss ++ [s])%list ++ t
  = String.concat sep (ss ++ [(s ++ t)%string])%list.
Proof.
  induction ss as [|x r IH]; [reflexivity|].
  destruct r as [|y r].
  - cbn [app String.concat]. now rewrite !string_append_assoc.
  - cbn [app String.concat] in *. rewrite <- IH.
    now rewrite !string_append_assoc.
Qed.

Lemma render_array (e : value) :
  render (array_of e)
  = (s <- interpolate render e ;; Ok (VStr (s ++ "[]"))).
Proof. rewrite render_unfold. reflexivity. Qed.

Lemma render_union (members : list value) :
  render (union_of members)
  = (rs <- mapM render members ;; s <- join " | " rs ;; Ok (VStr s)).
Proof. rewrite render_unfold. reflexivity. Qed.

(** X9: typeToString never parenthesises: the array of a union and the
    union whose last member is an array render to the same text. *)
Theorem array_of_union_ambiguous (members : list value) (last : value)
    (ss : list string) (s : string) :
  Forall2 (fun m t => render m = Ok (VStr t)) members ss ->
  render last = Ok (VStr s) ->
  render (array_of (union_of (members ++ [last])%list))
  = render (union_of (members ++ [array_of last])%list)
  /\ render (array_of (union_of (members ++ [last])%list))
     = Ok (VStr (String.concat " | " (ss ++ [(s ++ "[]")%string])%list)).
Proof.
  intros HF Hl.
  assert (Ha : render (array_of last) = Ok (VStr (s ++ "[]"))).
  { rewrite render_array. unfold interpolate. rewrite Hl. reflexivity. }
  assert (H1 : Forall2 (fun m t => render m = Ok (VStr t))
                 (members ++ [last])%list (ss ++ [s])%list)
    by (apply Forall2_app; [assumption | now constructor]).
  assert (H2 : Forall2 (fun m t => render m = Ok (VStr t))
                 (members ++ [array_of last])%list (ss ++ [(s ++ "[]")%string])%list)
    by (apply Forall2_app; [assumption | now constructor]).
  assert (E : render (array_of (union_of (members ++ [last])%list))
              = Ok (VStr (String.concat " | " (ss ++ [(s ++ "[]")%string])%list))).
  { rewrite render_array. unfold interpolate. rewrite render_union.
    rewrite (strings_render _ _ H1). cbn [bind]. rewrite join_strings.
    cbn [bind to_string]. now rewrite concat_snoc. }
  split; [|exact E].
  rewrite E, render_union, (strings_render _ _ H2). cbn [bind].
  rewrite join_strings. reflexivity.
Qed.

Lemma array_of_union_ambiguous_witness :
  render (array_of (union_of ([intrinsic "A"] ++ [intrinsic "B"])%list))
  = render (union_of ([intrinsic "A"] ++ [array_of (intrinsic "B")])%list)
  /\ render (array_of (union_of ([intrinsic "A"] ++ [intrinsic "B"])%list))
     = Ok (VStr "A | B[]").
Proof.
  apply (array_of_union_ambiguous [intrinsic "A"] (intrinsic "B") ["A"] "B");
    [repeat constructor | reflexivity].
Defined.

(** ** Template literals *)

Lemma templateTail_text (tail : list value) (spans : list (string * string))
    (acc : string) :
  Forall2 span tail spans ->
  templateTail render acc tail
  = Ok (acc ++ String.concat EmptyString (map spanText spans)).
Proof.
  intros HF. revert acc.
  induction HF as [|pair sp tail spans (t & -> & Ht) _ IH]; intros acc.
  - cbn. now rewrite string_append_nil.
  - cbn [templateTail destructure2 iterate bind nth]. unfold interpolate.
    rewrite Ht. cbn [bind to_string]. rewrite IH. f_equal.
    rewrite string_append_assoc. f_equal.
    cbn [map]. unfold spanText at 2.
    destruct spans as [|sp' spans]; cbn [map String.concat].
    + now rewrite string_append_nil.
    + cbn [append]. now rewrite ?string_append_assoc.
Qed.

(** X10: a template literal renders as its head followed, for every pair of
    the tail in order, by the type between the interpolation marks and the
    text of the pair, the whole between backticks. *)
Theorem template_literal_format (ps : list (string * value)) (head : string)
    (tail : list value) (spans : list (string * string)) :
  classify (field "type" ps) = CTemplateLiteral ->
  field "head" ps = VStr head ->
  field "tail" ps = VArr tail ->
  Forall2 span tail spans ->
  render (VObj ps) = Ok (VStr (templateText head spans)).
Proof.
  intros Hc Hh Ht HF. rewrite render_unfold. unfold typeToString_body.
  cbn [truthy negb get bind]. rewrite Hc. unfold handleTemplateLiteral.
  cbn [get bind]. rewrite Hh, Ht. cbn [to_string iterate bind].
  rewrite (templateTail_text _ _ _ HF). cbn [bind]. unfold templateText.
  now rewrite !string_append_assoc.
Qed.

Lemma template_literal_format_witness :
  render (template "w-" [VArr [intrinsic "number"; VStr "px-"];
                         VArr [intrinsic "string"; VStr EmptyString]])
  = Ok (VStr "`w-${number}px-${string}`").
Proof.
  refine (template_literal_format _ "w-" _ [("number", "px-"); ("string", EmptyString)]
            _ _ _ _); try reflexivity.
  repeat constructor; eexists; split; reflexivity.
Defined.

End TypeFormatFacts.

(* ================================================================== *)
(** * signature-builder.ts: type parameters and index signatures *)
(* ================================================================== *)

Module SignatureShapesFacts.
Import JS JSFacts OutcomeFacts TypeConverterFacts SignatureBuilder.
Import TypeFormat SignatureShapes.

Lemma typeParameter_encoded (tp : TypeParam) (v : value) :
  encodesTypeParam tp v -> typeParameter v = Ok (VStr (typeParameterText tp)).
Proof.
  intros (tpps & -> & Hn & Hc & Hd). unfold typeParameter, typeParameterText.
  cbn [get bind]. rewrite Hn.
  destruct (tp_constraint tp) as [c|]; cbn [carries] in Hc;
    [destruct Hc as [Hc1 Hc2]; rewrite Hc1, Hc2 | rewrite Hc];
    cbn [bind to_string];
    (destruct (tp_default tp) as [d|]; cbn [carries] in Hd;
     [destruct Hd as [Hd1 Hd2]; rewrite Hd1, Hd2 | rewrite Hd]);
    cbn [bind to_string]; rewrite ?string_append_assoc, ?string_append_nil;
    reflexivity.
Qed.

Lemma typeParameters_encoded (tps : list TypeParam) (vs : list value) :
  Forall2 encodesTypeParam tps vs ->
  mapM typeParameter vs = Ok (map VStr (map typeParameterText tps)).
Proof.
  induction 1 as [|tp v tps vs H _ IH]; [reflexivity|].
  cbn [mapM map]. rewrite (typeParameter_encoded tp v H), IH. reflexivity.
Qed.

(** X11: a type parameter list renders as its parameters between angle
    brackets, separated by a comma and a space, each as its name followed by
    extends and its constraint and by an equals sign and its default when it
    has them; an empty list renders as nothing, without the brackets. *)
Theorem type_parameter_format (tps : list TypeParam) (vs : list value) :
  Forall2 encodesTypeParam tps vs ->
  buildTypeParameterString (VArr vs) = Ok (typeParameterClause tps).
Proof.
  intros HF. unfold buildTypeParameterString. cbn [truthy negb get bind].
  pose proof (typeParameters_encoded tps vs HF) as Hm.
  inversion HF as [|tp v tps' vs' Hv HF' Et Ev]; subst; [reflexivity|].
  change (is_zero _) with false. cbn [map_method]. rewrite Hm. cbn [bind].
  rewrite join_strings. reflexivity.
Qed.

Lemma type_parameter_format_witness :
  buildTypeParameterString (VArr type_parameters)
  = Ok "<K extends string, V = unknown, W extends object = never>".
Proof.
  apply (type_parameter_format
           [mkTypeParam "K" (Some "string") None;
            mkTypeParam "V" None (Some "unknown");
            mkTypeParam "W" (Some "object") (Some "never")]).
  repeat constructor; eexists; repeat split.
Defined.

Lemma index_parameters_text (vs : list value) (params : list (string * string)) :
  Forall2 indexParameter vs params ->
  mapM (fun p =>
          name <- get "name" p ;;
          n <- to_string name ;;
          type <- get "type" p ;;
          t <- typeString type ;;
          Ok (VStr (n ++ ": " ++ t))) vs
  = Ok (map VStr (map memberText params)).
Proof.
  induction 1 as [|v m vs params (pps & -> & Hn & Ht) _ IH]; [reflexivity|].
  cbn [mapM map get bind]. rewrite Hn. cbn [to_string bind]. rewrite Ht.
  cbn [bind]. rewrite IH. reflexivity.
Qed.

(** X12: an index signature renders as its parameters between square
    brackets, each as name: type and separated by a comma and a space,
    followed by a colon and the return type. *)
Theorem index_signature_format (ps : list (string * value)) (vs : list value)
    (params : list (string * string)) (returnType : string) :
  field "parameters" ps = VArr vs ->
  Forall2 indexParameter vs params ->
  typeString (field "type" ps) = Ok returnType ->
  buildIndexSignatureString (VObj ps)
  = Ok (indexSignatureText params returnType).
Proof.
  intros Hp HF Ht. unfold buildIndexSignatureString. cbn [get bind].
  rewrite Hp. cbn [map_method]. rewrite (index_parameters_text _ _ HF).
  cbn [bind]. rewrite join_strings. cbn [bind]. rewrite Ht. cbn [bind].
  unfold indexSignatureText. now rewrite ?string_append_assoc.
Qed.

Lemma index_signature_format_witness :
  buildIndexSignatureString (VObj index_signature) = Ok "[key: string]: number".
Proof.
  refine (index_signature_format index_signature _ [("key", "string")] "number"
            _ _ _); try reflexivity.
  repeat constructor; eexists; repeat split.
Defined.

(** X13: the parameter list of an index signature is not guarded:
    buildIndexSignatureString throws when the signature has no parameter
    list, and for every [parameters] field that is not an array. *)
Theorem index_signature_needs_parameters (ps : list (string * value)) :
  (forall vs, field "parameters" ps <> VArr vs) ->
  buildIndexSignatureString (VObj ps) = Throw.
Proof.
  intros H. unfold buildIndexSignatureString. cbn [get bind].
  destruct (field "parameters" ps); try reflexivity. now elim (H elems).
Qed.

Lemma index_signature_needs_parameters_witness :
  buildIndexSignatureString (VObj [("type", Samples.intrinsic "number")]) = Throw.
Proof. apply index_signature_needs_parameters. discriminate. Defined.

End SignatureShapesFacts.

(* ================================================================== *)
(** * extractor.ts: further properties *)
(* ================================================================== *)

Module ExtractionFacts.
Import JS JSFacts Outcome OutcomeFacts Str Extractor ExtractionShapes Samples.

(** Take apart a run of binds and conditionals that ended with a value. *)
Ltac crack H :=
  repeat (cbn [bind] in H;
          match type of H with
          | bind ?m _ = Ok _ =>
              let E := fresh "E" in
              destruct m eqn:E; [|discriminate..]
          | (if ?b then _ else _) = Ok _ =>
              let B := fresh "B" in
              destruct b eqn:B
          end);
  cbn [bind] in H.

(** ** Every block tag is filed once *)

Lemma set_prop_count_new (k : string) (v : value) (c : list (string * value)) :
  lookup k c = None -> customCount (set_prop k v c) = customCount c + weight v.
Proof.
  induction c as [|[k' v'] c IH]; cbn [lookup set_prop customCount]; [lia|].
  destruct (k' =? k); [discriminate|]. intros H.
  cbn [customCount]. rewrite (IH H). lia.
Qed.

Lemma set_prop_count_old (k : string) (v old : value) (c : list (string * value)) :
  lookup k c = Some old ->
  customCount (set_prop k v c) + weight old = customCount c + weight v.
Proof.
  induction c as [|[k' v'] c IH]; cbn [lookup set_prop customCount];
    [discriminate|].
  destruct (k' =? k).
  - intros [= ->]. cbn [customCount]. lia.
  - intros H. cbn [customCount]. specialize (IH H). lia.
Qed.

Lemma push_to_count (k : string) (x : value) (c c' : list (string * value)) :
  push_to k x c = Ok c' -> customCount c' = S (customCount c).
Proof.
  unfold push_to. destruct (lookup k c) as [old|] eqn:E.
  - intros H.
    assert (Hc : exists v, c' = set_prop k v c /\ weight v = S (weight old)).
    { destruct old as [| |b|z|s|l|ps];
        try (destruct (truthy _); [discriminate|]);
        injection H as <-; eexists; (split; [reflexivity|]);
        cbn [weight length]; try lia.
      rewrite length_app. cbn [length]. lia. }
    destruct Hc as (v & -> & Hv).
    pose proof (set_prop_count_old k v old c E). lia.
  - destruct (inherited k); [discriminate|]. intros [= <-].
    rewrite (set_prop_count_new k _ c E). cbn [weight length]. lia.
Qed.

Lemma categorize_filed (tags tags' : TagsDetail) (tag : value) :
  categorize tags tag = Ok tags' -> filed tags' = S (filed tags).
Proof.
  intros H. unfold categorize in H. crack H;
    try (injection H as <-; unfold filed;
         cbn [examples tutorials seeTags throwsTags returnsTags paramTags
              typeparamTags customTags];
         rewrite ?length_app; cbn [length]; lia).
  injection H as <-. unfold filed.
  cbn [examples tutorials seeTags throwsTags returnsTags paramTags
       typeparamTags customTags].
  match goal with
  | E : push_to _ _ _ = Ok _ |- _ => apply push_to_count in E; rewrite E
  end.
  lia.
Qed.

Lemma categorizeAll_filed (l : list value) (tags tags' : TagsDetail) :
  categorizeAll tags l = Ok tags' -> filed tags' = List.length l + filed tags.
Proof.
  revert tags. induction l as [|tag l IH]; intros tags H.
  - injection H as <-. reflexivity.
  - cbn [categorizeAll] in H.
    destruct (categorize tags tag) as [t1| | |] eqn:E; try discriminate.
    cbn [bind] in H. rewrite (IH _ H), (categorize_filed _ _ _ E).
    cbn [length]. lia.
Qed.

Lemma comment_blockTags (c : value) :
  get "blockTags" (or_else c (VObj [])) = Ok (field_opt "blockTags" c).
Proof.
  destruct c as [| |b|z|s|l|ps]; try reflexivity.
  - now destruct b.
  - unfold or_else. destruct (truthy (VNum z)); reflexivity.
  - unfold or_else. destruct (truthy (VStr s)); reflexivity.
Qed.

(** X14: extractAllTags files every block tag exactly once: when it returns,
    the entries of the eight tag lists and of the custom tag lists together
    are as many as the block tags of the comment, none when there is no
    comment or no block tag list. *)
Theorem every_tag_filed_once (rps : list (string * value)) (tags : TagsDetail) :
  extractAllTags (VObj rps) = Ok tags ->
  filed tags = List.length (blockTagsOf rps).
Proof.
  unfold extractAllTags, blockTagsOf, listOf. cbn [get bind].
  rewrite comment_blockTags. cbn [bind].
  destruct (truthy (field_opt "blockTags" (field "comment" rps)));
    cbn [negb].
  - intros H. crack H. rewrite (categorizeAll_filed _ _ _ H).
    unfold filed. cbn. lia.
  - intros [= <-]. reflexivity.
Qed.

Lemma every_tag_filed_once_witness :
  exists tags,
    extractAllTags (VObj [("comment", VObj [("blockTags", VArr example_tags)])])
    = Ok tags
    /\ filed tags = 2.
Proof.
  destruct (extractAllTags
              (VObj [("comment", VObj [("blockTags", VArr example_tags)])]))
    as [tags| | |] eqn:E; try (vm_compute in E; discriminate).
  exists tags. split; [reflexivity|].
  exact (every_tag_filed_once _ tags E).
Defined.

(** ** How many search tokens *)

Lemma filterM_length {A} (f : A -> result bool) (l l' : list A) :
  filterM f l = Ok l' -> List.length l' <= List.length l.
Proof.
  revert l'. induction l as [|x l IH]; intros l' H.
  - injection H as <-. apply Nat.le_refl.
  - cbn [filterM] in H. crack H. injection H as <-.
    specialize (IH _ eq_refl). destruct a; cbn [length]; lia.
Qed.

Lemma filterM_kept {A} (f : A -> result bool) (l l' : list A) :
  filterM f l = Ok l' -> Forall (fun x => f x = Ok true) l'.
Proof.
  revert l'. induction l as [|x l IH]; intros l' H.
  - injection H as <-. constructor.
  - cbn [filterM] in H. crack H. injection H as <-.
    specialize (IH _ eq_refl). destruct a; [constructor|]; assumption.
Qed.

Lemma keepToken_truthy (t : value) : keepToken t = Ok true -> truthy t = true.
Proof. unfold keepToken. destruct (truthy t); [reflexivity|discriminate]. Qed.

Lemma tagTokens_length (tag : value) (l : list value) :
  tagTokens tag = Ok l -> List.length l <= 5.
Proof.
  intros H. unfold tagTokens in H. crack H; apply Ok_inj in H; subst l.
  - rewrite length_map. apply firstn_le_length.
  - cbn [length]. lia.
Qed.

Lemma pushed_length (tags : list value) (pushed : list (list value)) :
  mapM tagTokens tags = Ok pushed ->
  List.length (concat pushed) <= 5 * List.length tags.
Proof.
  revert pushed. induction tags as [|tag tags IH]; intros pushed H.
  - injection H as <-. cbn. lia.
  - cbn [mapM] in H. crack H. injection H as <-.
    cbn [concat length]. rewrite length_app.
    match goal with
    | E : tagTokens _ = Ok _ |- _ => apply tagTokens_length in E
    end.
    specialize (IH _ eq_refl). lia.
Qed.

(** X15: generateSearchTokens returns at most thirteen tokens plus five for
    every block tag of the comment, and none of them is empty: name, full
    path and kind, ten words of the summary, five words of an example or
    tutorial. *)
Theorem search_tokens_bounded (rps : list (string * value)) (path : value)
    (tokens : list value) :
  generateSearchTokens (VObj rps) path = Ok tokens ->
  List.length tokens <= 13 + 5 * List.length (blockTagsOf rps)
  /\ Forall (fun t => truthy t = true) tokens.
Proof.
  intros H. unfold generateSearchTokens in H. cbn [get bind] in H.
  rewrite get_opt_field_opt in H. crack H. split.
  - apply filterM_length in H.
    match goal with
    | E : (if _ then _ else _) = Ok _ |- _ => rename E into Ht
    end.
    unfold blockTagsOf, listOf.
    assert (Hs : forall s0, List.length (map VStr (firstn 10 (split_ws s0))) <= 10)
      by (intros; rewrite length_map; apply firstn_le_length).
    destruct (truthy (field_opt "blockTags" (field "comment" rps))).
    + crack Ht. apply Ok_inj in Ht. subst.
      destruct (field_opt "blockTags" (field "comment" rps));
        try discriminate.
      cbn [map_method] in *. cbn [iterate].
      match goal with
      | E : mapM tagTokens _ = Ok _ |- _ => apply pushed_length in E
      end.
      rewrite !length_app in H. cbn [length] in H.
      match type of H with
      | _ <= _ + (List.length (map VStr (firstn 10 (split_ws ?s0))) + _) + _ =>
          specialize (Hs s0)
      | _ <= _ + List.length (map VStr (firstn 10 (split_ws ?s0))) + _ =>
          specialize (Hs s0)
      | _ => idtac
      end.
      lia.
    + apply Ok_inj in Ht. subst. rewrite !length_app in H. cbn [length] in H.
      match type of H with
      | context [List.length (map VStr (firstn 10 (split_ws ?s0)))] =>
          specialize (Hs s0)
      end.
      lia.
  - apply filterM_kept in H. eapply Forall_impl; [|exact H].
    intros t. apply keepToken_truthy.
Qed.

Lemma search_tokens_bounded_witness :
  exists tokens,
    generateSearchTokens (VObj documented) (VStr "add") = Ok tokens
    /\ List.length tokens <= 23
    /\ Forall (fun t => truthy t = true) tokens.
Proof.
  destruct (generateSearchTokens (VObj documented) (VStr "add"))
    as [tokens| | |] eqn:E; try (vm_compute in E; discriminate).
  exists tokens. split; [reflexivity|].
  exact (search_tokens_bounded documented (VStr "add") tokens E).
Defined.

(** ** The signature records and their order *)

Lemma mapM_map {A B C} (f : A -> result B) (g : B -> C) (h : A -> C)
    (l : list A) (l' : list B) :
  (forall x y, f x = Ok y -> g y = h x) ->
  mapM f l = Ok l' -> map g l' = map h l.
Proof.
  intros Hf. revert l'. induction l as [|x l IH]; intros l' H.
  - apply Ok_inj in H. now subst.
  - cbn [mapM] in H. crack H. apply Ok_inj in H. subst l'.
    cbn [map]. f_equal; [now apply Hf | now apply IH].
Qed.

Lemma overloadDetail_name (r sig rec : value) :
  overloadDetail r sig = Ok rec -> field_of "name" rec = field_of "name" sig.
Proof.
  intros H. unfold overloadDetail in H.
  destruct (get "name" sig) as [n| | |] eqn:En; try discriminate.
  crack H. apply Ok_inj in H. subst rec.
  unfold field_of. rewrite En. reflexivity.
Qed.

Lemma accessor_record_name (sig rec : value) (a : SignatureBuilder.accessor) :
  SignatureBuilder.buildGetSetSignature sig a = Ok rec ->
  field_of "name" rec = VStr (SignatureBuilder.accessor_name a).
Proof.
  intros H. unfold SignatureBuilder.buildGetSetSignature in H.
  crack H. apply Ok_inj in H. subst rec. reflexivity.
Qed.

Lemma indexDetail_name (sig rec : value) :
  indexDetail sig = Ok rec -> field_of "name" rec = VStr "__index".
Proof.
  intros H. unfold indexDetail in H. crack H. apply Ok_inj in H. subst rec.
  reflexivity.
Qed.

(** X16: the signature records of a reflection come in a fixed order: one
    for every overload, under the name of the overload, then the getter,
    then the setter, then one named __index for every index signature. *)
Theorem signature_records_order (rps : list (string * value)) (recs : list value) :
  extractSignatures (VObj rps) = Ok recs ->
  map (field_of "name") recs = signatureNames rps.
Proof.
  intros H. unfold extractSignatures in H. cbn [get bind] in H.
  destruct (if truthy (field "signatures" rps)
            then l <- iterate (field "signatures" rps) ;;
                 mapM (overloadDetail (VObj rps)) l
            else Ok []) as [overloads| | |] eqn:E1; try discriminate.
  cbn [bind] in H.
  destruct (if truthy (field "getSignature" rps)
            then g <- SignatureBuilder.buildGetSetSignature
                        (field "getSignature" rps) SignatureBuilder.getter ;;
                 Ok [g]
            else Ok []) as [getters| | |] eqn:E2; try discriminate.
  cbn [bind] in H.
  destruct (if truthy (field "setSignature" rps)
            then g <- SignatureBuilder.buildGetSetSignature
                        (field "setSignature" rps) SignatureBuilder.setter ;;
                 Ok [g]
            else Ok []) as [setters| | |] eqn:E3; try discriminate.
  cbn [bind] in H.
  destruct (if truthy (field "indexSignatures" rps)
            then l <- iterate (field "indexSignatures" rps) ;; mapM indexDetail l
            else Ok []) as [indexes| | |] eqn:E4; try discriminate.
  cbn [bind] in H. apply Ok_inj in H. subst recs.
  unfold signatureNames, listOf. rewrite !map_app.
  f_equal; [|f_equal; [|f_equal]].
  - destruct (truthy (field "signatures" rps));
      [|apply Ok_inj in E1; now subst].
    destruct (iterate (field "signatures" rps)) as [l| | |]; try discriminate.
    cbn [bind] in E1. revert E1. apply mapM_map.
    intros x y. apply overloadDetail_name.
  - destruct (truthy (field "getSignature" rps));
      [|apply Ok_inj in E2; now subst].
    crack E2. apply Ok_inj in E2. subst getters. cbn [map]. f_equal.
    match goal with
    | E : SignatureBuilder.buildGetSetSignature _ _ = Ok _ |- _ =>
        exact (accessor_record_name _ _ _ E)
    end.
  - destruct (truthy (field "setSignature" rps));
      [|apply Ok_inj in E3; now subst].
    crack E3. apply Ok_inj in E3. subst setters. cbn [map]. f_equal.
    match goal with
    | E : SignatureBuilder.buildGetSetSignature _ _ = Ok _ |- _ =>
        exact (accessor_record_name _ _ _ E)
    end.
  - destruct (truthy (field "indexSignatures" rps));
      [|apply Ok_inj in E4; now subst].
    destruct (iterate (field "indexSignatures" rps)) as [l| | |];
      try discriminate.
    cbn [bind] in E4. revert E4. apply mapM_map.
    intros x y. apply indexDetail_name.
Qed.

Lemma signature_records_order_witness :
  exists recs,
    extractSignatures (VObj accessor_property) = Ok recs
    /\ map (field_of "name") recs
       = [VStr "size"; VStr "getter"; VStr "setter"; VStr "__index"].
Proof.
  destruct (extractSignatures (VObj accessor_property)) as [recs| | |] eqn:E;
    try (vm_compute in E; discriminate).
  exists recs. split; [reflexivity|].
  exact (signature_records_order accessor_property recs E).
Defined.

(** ** Missing pieces *)

(** X17: a reflection without an [id] (absent or null) yields no record:
    extractAllDocumentation throws, whatever else the reflection holds. *)
Theorem missing_id_throws (rps : list (string * value)) (path : value) :
  field "id" rps = VUndef \/ field "id" rps = VNull ->
  extractAllDocumentation (VObj rps) path = Throw.
Proof.
  intros Hid.
  assert (Ht : toString_method (field "id" rps) = Throw)
    by (destruct Hid as [-> | ->]; reflexivity).
  unfold extractAllDocumentation. cbn [get bind].
  destruct (truthy path).
  - destruct (settled_cases _ (to_string_settled path)) as [[p ->] | ->];
      [|reflexivity].
    cbn [bind].
    destruct (settled_cases _ (to_string_settled (field "name" rps)))
      as [[n ->] | ->]; [|reflexivity].
    cbn [bind]. now rewrite Ht.
  - cbn [bind]. now rewrite Ht.
Qed.

Lemma missing_id_throws_witness :
  extractAllDocumentation second_sibling (VStr "lib") = Throw.
Proof. apply missing_id_throws. now left. Defined.

Lemma or_else_truthy (a d : value) :
  truthy d = true -> truthy (or_else a d) = true.
Proof. unfold or_else. destruct (truthy a) eqn:E; auto. Qed.

Lemma extractDocumentation_bare (rps : list (string * value)) :
  truthy (field "comment" rps) = false ->
  extractDocumentation (VObj rps)
  = Ok (bareDocumentation (field_opt "isDeprecated" (field "flags" rps))).
Proof.
  intros H.
  assert (Hc : or_else (field "comment" rps) (VObj []) = VObj [])
    by (unfold or_else; now rewrite H).
  unfold extractDocumentation. cbn [get bind]. rewrite Hc.
  rewrite get_opt_field_opt. reflexivity.
Qed.

Lemma mapM_In {A B} (f : A -> result B) (l : list A) (l' : list B) (x : A) :
  mapM f l = Ok l' -> In x l -> exists y, f x = Ok y.
Proof.
  revert l'. induction l as [|a l IH]; intros l' H Hx; [destruct Hx|].
  cbn [mapM] in H. crack H. destruct Hx as [<- | Hx]; eauto.
Qed.

(** X18: a reflection whose list of children holds a null entry yields no
    record: the ids of the children are read while the record is built,
    and reading the id of null throws. *)
Theorem null_child_fails_parent (rps : list (string * value)) (path : value)
    (cs : list value) :
  field "children" rps = VArr cs -> In VNull cs ->
  returns (extractAllDocumentation (VObj rps) path) = false.
Proof.
  intros Hc Hin.
  destruct (extractAllDocumentation (VObj rps) path) as [doc| | |] eqn:H;
    try reflexivity.
  exfalso. unfold extractAllDocumentation in H. crack H.
  match goal with
  | E : extractHierarchy _ = Ok _ |- _ => rename E into Eh
  end.
  unfold extractHierarchy in Eh. cbn [get bind] in Eh. rewrite Hc in Eh.
  cbn [map_method] in Eh.
  destruct (mapM (fun c => i <- get "id" c ;; toString_opt i) cs)
    as [l| | |] eqn:Em.
  - destruct (mapM_In _ _ _ VNull Em Hin) as [y Hy]. discriminate.
  - crack Eh. discriminate.
  - crack Eh. discriminate.
  - crack Eh. discriminate.
Qed.

Lemma null_child_fails_parent_witness :
  returns
    (extractAllDocumentation
       (declaration 3 "gamma" "Class"
          [("children", VArr [declaration 4 "delta" "Method" []; VNull])])
       (VStr EmptyString))
  = false.
Proof.
  refine (null_child_fails_parent
            [("id", VNum 3); ("name", VStr "gamma"); ("kind", VStr "Class");
             ("children", VArr [declaration 4 "delta" "Method" []; VNull])]
            (VStr EmptyString) _ eq_refl _).
  right. now left.
Defined.

(** X19: a declaration without a comment gets empty texts, not missing
    ones: summary, description and remarks are the empty string, the author
    list is empty, and message, license, copyright and since are
    undefined. *)
Theorem uncommented_documentation (rps : list (string * value)) :
  truthy (field "comment" rps) = false ->
  extractDocumentation (VObj rps)
  = Ok (bareDocumentation (field_opt "isDeprecated" (field "flags" rps))).
Proof.
  intros H. unfold extractDocumentation. cbn [get bind].
  replace (or_else (field "comment" rps) (VObj [])) with (VObj [])
    by (unfold or_else; now rewrite H).
  rewrite get_opt_field_opt. reflexivity.
Qed.

Lemma uncommented_documentation_witness :
  extractDocumentation (declaration 4 "delta" "Method" [])
  = Ok (bareDocumentation VUndef).
Proof.
  refine (uncommented_documentation
            [("id", VNum 4); ("name", VStr "delta"); ("kind", VStr "Method")] _).
  reflexivity.
Defined.

Lemma extractSourceInfo_object (rps : list (string * value)) :
  exists info, extractSourceInfo (VObj rps) = Ok info.
Proof.
  unfold extractSourceInfo. cbn [get bind].
  destruct (field "sources" rps); cbn [index bind];
    rewrite !get_opt_field_opt; cbn [bind]; eauto.
Qed.

(** X20: extractSourceInfo never throws on an object, with or without
    sources; the file name it reports is never empty (unknown stands in),
    and the value reported as lineEnd is the [character] of the first
    source, as lineStart is its [line]. *)
Theorem source_info_total (rps : list (string * value)) :
  exists info,
    extractSourceInfo (VObj rps) = Ok info
    /\ truthy (field_of "filename" info) = true
    /\ field_of "lineStart" info = field_opt "line" (firstSource rps)
    /\ field_of "lineEnd" info = field_opt "character" (firstSource rps).
Proof.
  unfold extractSourceInfo, firstSource. cbn [get bind].
  destruct (field "sources" rps); cbn [index bind];
    rewrite !get_opt_field_opt; cbn [bind];
    (eexists; split; [reflexivity|]; repeat split;
     apply or_else_truthy; reflexivity).
Qed.

Lemma source_info_total_sample :
  extractSourceInfo
    (VObj [("sources", VArr [VObj [("line", VNum 12); ("character", VNum 4)]])])
  = Ok (VObj [("filename", VStr "unknown"); ("lineStart", VNum 12);
              ("lineEnd", VNum 4); ("url", VUndef)]).
Proof. reflexivity. Qed.

End ExtractionFacts.

(* ================================================================== *)
(** * processor.ts: the walk as a whole *)
(* ================================================================== *)

Module WalkFacts.
Import JS JSFacts HaltingFacts OutcomeFacts Extractor Processor ProcessorFacts.
Import ExtractionShapes ExtractionFacts WalkSpec Forest Samples.

Lemma grows_refl (st : state) : grows st st.
Proof. split; exists []; now rewrite app_nil_r. Qed.

Lemma grows_trans (a b c : state) : grows a b -> grows b c -> grows a c.
Proof.
  intros [[d1 H1] [w1 G1]] [[d2 H2] [w2 G2]]. split.
  - exists (d1 ++ d2)%list. now rewrite H2, H1, app_assoc.
  - exists (w1 ++ w2)%list. now rewrite G2, G1, app_assoc.
Qed.

Lemma grows_push (doc : ExtractedDocumentation) (st : state) :
  grows st (push doc st).
Proof. split; [now exists [doc] | exists []; cbn; now rewrite app_nil_r]. Qed.

Lemma grows_warn (n : string) (st : state) : grows st (warn n st).
Proof. split; [exists []; cbn; now rewrite app_nil_r | now exists [n]]. Qed.

Lemma handler_grows (r : value) (st : state) : grows st (fst (handler r st)).
Proof.
  unfold handler. destruct (name <- get "name" r ;; to_string name);
    cbn [fst]; [apply grows_warn | apply grows_refl ..].
Qed.

Lemma raise_grows {A} (st : state) (r : result A) : grows st (fst (raise st r)).
Proof. destruct r; apply grows_refl. Qed.

Lemma visit_grows (rec : value -> value -> state -> state * completion)
    (path r : value) (st : state) :
  (forall c p s, grows s (fst (rec c p s))) ->
  grows st (fst (visit rec path r st)).
Proof.
  intros H. unfold visit.
  destruct (extractAllDocumentation r path) as [doc| | |];
    [|apply handler_grows|apply grows_refl..].
  apply grows_trans with (b := push doc st); [apply grows_push|].
  assert (G : grows (push doc st)
                (fst (match hasChildren r with
                      | Ok true => rec (field_of "children" r) (fullPath doc)
                                     (push doc st)
                      | Ok false => (push doc st, Ok tt)
                      | other => raise (push doc st) other
                      end))).
  { destruct (hasChildren r) as [[|]| | |];
      [apply H | apply grows_refl ..]. }
  destruct (match hasChildren r with
            | Ok true => _
            | Ok false => _
            | _ => _
            end) as [st2 c].
  cbn [fst] in G. destruct c; cbn [fst]; try exact G.
  eapply grows_trans; [exact G | apply handler_grows].
Qed.

Lemma loop_grows (rec : value -> value -> state -> state * completion)
    (path : value) (l : list value) (st : state) :
  (forall c p s, grows s (fst (rec c p s))) ->
  grows st (fst (loop rec path l st)).
Proof.
  intros H. revert st. induction l as [|r l IH]; intros st;
    [apply grows_refl|].
  cbn [loop]. pose proof (visit_grows rec path r st H) as G.
  destruct (visit rec path r st) as [st' c]. cbn [fst] in G.
  destruct c; cbn [fst]; try exact G.
  eapply grows_trans; [exact G | apply IH].
Qed.

(** X21: the walk only appends: whatever it is given and however it ends, the
    records and the warnings it leaves start with those it found, in the
    same order. Nothing is removed, reordered or replaced. *)
Theorem walk_only_appends (fuel : nat) (reflections path : value) (st : state) :
  grows st (fst (processReflections fuel reflections path st)).
Proof.
  revert reflections path st.
  induction fuel as [|fuel IH]; intros r path st; [apply grows_refl|].
  cbn [processReflections]. unfold processReflections_body.
  destruct (iterate r); [|apply grows_refl..].
  apply loop_grows. intros c p s. apply IH.
Qed.

(** X22: the walk terminates: with fuel above the depth of the forest it does
    not run out of fuel, and its result is the same for every such amount
    of fuel. *)
Theorem walk_terminates (fuel fuel' : nat) (reflections path : value)
    (st : state) :
  depth reflections < fuel -> depth reflections < fuel' ->
  halts (snd (processReflections fuel reflections path st))
  /\ processReflections fuel reflections path st
     = processReflections fuel' reflections path st.
Proof.
  intros H H'. split.
  - now apply processReflections_halts.
  - now apply processReflections_fuel.
Qed.

Lemma walk_terminates_witness :
  let forest := VArr [first_sibling; second_sibling; third_sibling] in
  halts (snd (processReflections 9 forest (VStr EmptyString) (mkState [] [])))
  /\ processReflections 9 forest (VStr EmptyString) (mkState [] [])
     = processReflections 12 forest (VStr EmptyString) (mkState [] []).
Proof.
  intros forest.
  apply (walk_terminates 9 12 forest); vm_compute; lia.
Defined.

(** ** Plain forests *)

Lemma children_ids (cs : list tree) :
  exists l,
    mapM (fun c => i <- get "id" c ;; toString_opt i) (map encode cs) = Ok l.
Proof.
  induction cs as [|[i n k cs'] cs [l IH]]; [now exists []|].
  cbn [map encode mapM get bind field lookup String.eqb Ascii.eqb Bool.eqb
       toString_opt to_string].
  rewrite IH. cbn [bind]. eauto.
Qed.

Lemma keepToken_string (s : string) : exists b, keepToken (VStr s) = Ok b.
Proof.
  unfold keepToken. destruct (truthy (VStr s)); [|eauto].
  cbn [get bind]. change ("length" =? "length") with true. cbn [gt_zero]. eauto.
Qed.

Lemma plain_tokens (ps : list (string * value)) (n k p : string) :
  truthy (field "comment" ps) = false ->
  field "name" ps = VStr n -> field "kind" ps = VStr k ->
  exists tokens, generateSearchTokens (VObj ps) (VStr p) = Ok tokens.
Proof.
  intros Hc Hn Hk. unfold generateSearchTokens. cbn [get bind].
  rewrite (extractDocumentation_bare ps Hc), Hn, Hk.
  cbn [bind bareDocumentation get field lookup String.eqb Ascii.eqb Bool.eqb
       to_string].
  rewrite get_opt_field_opt. cbn [bind].
  assert (Hb : truthy (field_opt "blockTags" (field "comment" ps)) = false).
  { destruct (field "comment" ps) as [| |b|z|s|l|qs]; try reflexivity;
      try discriminate. }
  rewrite Hb. cbn [bind].
  change (map VStr (firstn 10 (Str.split_ws EmptyString)))
    with [VStr EmptyString].
  cbn [app filterM].
  destruct (keepToken_string n) as [b1 ->].
  destruct (keepToken_string p) as [b2 ->].
  destruct (keepToken_string k) as [b3 ->].
  cbn [bind keepToken truthy negb String.eqb]. eauto.
Qed.

Lemma extract_plain (i : Z) (n k path : string) (cs : list tree) :
  exists doc,
    extractAllDocumentation (encode (Node i n k cs)) (VStr path) = Ok doc
    /\ key doc = (Z_to_string i, VStr (dotted path n)).
Proof.
  destruct (children_ids cs) as [ids Hids].
  unfold extractAllDocumentation. cbn [encode get bind].
  cbn [field lookup String.eqb Ascii.eqb Bool.eqb toString_method to_string bind].
  set (ps := [("id", VNum i); ("name", VStr n); ("kind", VStr k);
              ("children", VArr (map encode cs))]).
  assert (Hf : exists f,
            (if truthy (VStr path)
             then Ok (VStr (path ++ "." ++ n)) else Ok (VStr n)) = Ok (VStr f)
            /\ VStr f = VStr (dotted path n)).
  { unfold dotted. cbn [truthy]. destruct (path =? EmptyString); cbn [negb]; eauto. }
  destruct Hf as (f & -> & Hf). cbn [bind].
  rewrite (extractDocumentation_bare ps eq_refl). cbn [bind].
  change (extractTypeInformation (VObj ps))
    with (@Ok value (VObj [("type", VUndef); ("typeRaw", VUndef);
                           ("typeParameters", VArr []);
                           ("extendedTypes", VUndef);
                           ("implementedTypes", VUndef)])).
  cbn [bind].
  change (extractSignatures (VObj ps)) with (@Ok (list value) []).
  change (extractParameters (VObj ps)) with (@Ok (list value) []).
  change (extractAllTags (VObj ps)) with (Ok emptyTags).
  cbn [bind].
  destruct (extractSourceInfo_object ps) as (info & Hi).
  assert (Hh : exists h, extractHierarchy (VObj ps) = Ok h).
  { unfold extractHierarchy. subst ps.
    cbn [get bind field lookup String.eqb Ascii.eqb Bool.eqb toString_opt
         map_method get_opt].
    rewrite Hids. cbn [bind]. eauto. }
  destruct Hh as [h ->]. cbn [bind]. rewrite Hi. cbn [bind].
  assert (Hm : exists m, extractModifiers (VObj ps) = Ok m)
    by (eexists; reflexivity).
  destruct Hm as [m ->]. cbn [bind].
  destruct (plain_tokens ps n k f eq_refl eq_refl eq_refl) as [tokens ->].
  cbn [bind]. eexists. split; [reflexivity|].
  unfold key. cbn [Extractor.id fullPath]. now rewrite Hf.
Qed.

Lemma hasChildren_plain (i : Z) (n k : string) (cs : list tree) :
  hasChildren (encode (Node i n k cs))
  = Ok (match cs with [] => false | _ => true end).
Proof. destruct cs; reflexivity. Qed.

Lemma children_plain (i : Z) (n k : string) (cs : list tree) :
  field_of "children" (encode (Node i n k cs)) = VArr (map encode cs).
Proof. reflexivity. Qed.

(** X23: on a forest of plain declarations the walk leaves no warning and one
    record for every node, a node before its children and the children in
    their order; the full path of a record is the path of its parent, a dot
    and its name, and just its name at the top. *)
Theorem walk_of_plain_forest (fuel : nat) (forest : list tree) (path : string)
    (st : state) :
  depth (VArr (map encode forest)) < fuel ->
  exists st',
    processReflections fuel (VArr (map encode forest)) (VStr path) st
    = (st', Ok tt)
    /\ warnings st' = warnings st
    /\ map key (allDocs st')
       = (map key (allDocs st) ++ flat_map (flatten path) forest)%list.
Proof.
  revert forest path st.
  induction fuel as [|fuel IH]; intros forest path st Hd; [lia|].
  cbn [processReflections]. unfold processReflections_body. cbn [iterate].
  cbn [depth] in Hd. apply PeanoNat.lt_S_n in Hd. revert st Hd.
  induction forest as [|[i n k cs] ts IHts]; intros st Hd.
  - exists st. cbn [map loop flat_map]. now rewrite app_nil_r.
  - cbn [map list_max_depth] in Hd. cbn [map loop]. unfold visit.
    destruct (extract_plain i n k path cs) as (doc & -> & Hk).
    rewrite hasChildren_plain, children_plain.
    injection Hk as Hid Hp.
    assert (Hc : exists st2,
              (match cs with
               | [] => (push doc st, Ok tt)
               | _ => processReflections fuel (VArr (map encode cs))
                        (fullPath doc) (push doc st)
               end) = (st2, Ok tt)
              /\ warnings st2 = warnings st
              /\ map key (allDocs st2)
                 = (map key (allDocs st) ++ flatten path (Node i n k cs))%list).
    { destruct cs as [|c cs'].
      - eexists. split; [reflexivity|]. split; [reflexivity|].
        cbn [push allDocs flatten flat_map]. rewrite map_app. cbn [map].
        unfold key at 2. now rewrite Hid, Hp.
      - rewrite Hp.
        destruct (IH (c :: cs') (dotted path n) (push doc st))
          as (st2 & -> & Hw & Ha).
        { pose proof (children_depth
                        [("id", VNum i); ("name", VStr n); ("kind", VStr k);
                         ("children", VArr (map encode (c :: cs')))]) as Hcd.
          change (field_of "children" _)
            with (VArr (map encode (c :: cs'))) in Hcd.
          change (VObj _) with (encode (Node i n k (c :: cs'))) in Hcd.
          lia. }
        exists st2. split; [reflexivity|]. split; [exact Hw|].
        rewrite Ha. cbn [push allDocs flatten]. rewrite map_app. cbn [map].
        unfold key at 2. rewrite Hid, Hp, <- app_assoc. reflexivity. }
    destruct Hc as (st2 & Hrun & Hw & Ha).
    assert (Hrun' :
              (match (match cs with [] => false | _ => true end) with
               | true => processReflections fuel (VArr (map encode cs))
                           (fullPath doc) (push doc st)
               | false => (push doc st, Ok tt)
               end) = (st2, Ok tt)) by (destruct cs; exact Hrun).
    rewrite Hrun'.
    destruct (IHts st2) as (st' & -> & Hw' & Ha'); [lia|].
    exists st'. split; [reflexivity|]. split; [congruence|].
    rewrite Ha', Ha. cbn [flat_map]. now rewrite <- app_assoc.
Qed.

Lemma walk_of_plain_forest_witness :
  exists st',
    processReflections 6 (VArr (map encode library)) (VStr EmptyString)
      (mkState [] [])
    = (st', Ok tt)
    /\ warnings st' = []
    /\ map key (allDocs st')
       = [("1", VStr "Stack"); ("2", VStr "Stack.push");
          ("3", VStr "Stack.pop"); ("4", VStr "version")].
Proof.
  apply (walk_of_plain_forest 6 library EmptyString (mkState [] [])).
  vm_compute. lia.
Defined.

(** ** Entries that are not objects *)

Lemma visit_null (rec : value -> value -> state -> state * completion)
    (path : value) (st : state) :
  visit rec path VNull st = (st, Throw).
Proof. reflexivity. Qed.

(** X24: a null entry in a list of reflections is not isolated: reading its
    name throws once more inside the catch block, so the walk of the list
    ends there with an exception in flight. No warning is printed, and the
    entries after it are not visited. *)
Theorem null_entry_aborts_walk (fuel : nat) (before after : list value)
    (path : value) (st st1 : state) :
  processReflections fuel (VArr before) path st = (st1, Ok tt) ->
  processReflections fuel (VArr (before ++ VNull :: after)) path st
  = (st1, Throw).
Proof.
  intros Hb. destruct fuel as [|fuel]; [discriminate|].
  cbn [processReflections] in *. unfold processReflections_body in *.
  cbn [iterate] in *. rewrite loop_app, Hb. cbn [loop].
  now rewrite visit_null.
Qed.

Lemma null_entry_aborts_walk_witness :
  processReflections 5 (VArr ([first_sibling] ++ VNull :: [third_sibling]))
    (VStr EmptyString) (mkState [] [])
  = (fst (processReflections 5 (VArr [first_sibling]) (VStr EmptyString)
            (mkState [] [])), Throw).
Proof.
  apply null_entry_aborts_walk.
  destruct (processReflections 5 (VArr [first_sibling]) (VStr EmptyString)
              (mkState [] [])) as [st1 c] eqn:E.
  assert (Hc : c = Ok tt)
    by (apply (f_equal snd) in E; vm_compute in E; now subst c).
  now subst c.
Defined.

(** ** The records and warnings of a walk *)





End WalkFacts.

(* ================================================================== *)
(** * processor.ts: the search index as a whole *)
(* ================================================================== *)

Module IndexFacts.
Import JS JSFacts OutcomeFacts Extractor Processor IndexShapes Samples.

Lemma prefix_app (p s : string) : String.prefix p (p ++ s) = true.
Proof.
  induction p as [|a p IH]; cbn [append String.prefix]; [now destruct s|].
  destruct (ascii_dec a a); [exact IH | contradiction].
Qed.

Lemma set_prop_entries (k : string) (v : value) (index : list (string * value)) :
  entry_ok (k, v) -> Forall entry_ok index ->
  Forall entry_ok (set_prop k v index).
Proof.
  intros Hk. induction 1 as [|[k' v'] index Hx Ht IH]; cbn [set_prop].
  - constructor; [exact Hk | constructor].
  - destruct (String.eqb_spec k' k) as [->|_]; constructor; assumption.
Qed.

Lemma push_token_entries (lower i : string) (index index' : list (string * value)) :
  push_to ("token:" ++ lower) (VStr i) index = Ok index' ->
  Forall entry_ok index -> Forall entry_ok index'.
Proof.
  intros H Hall.
  assert (Hs : exists l, l <> []
                 /\ index' = set_prop ("token:" ++ lower) (VArr l) index).
  { unfold push_to in H.
    destruct (lookup ("token:" ++ lower) index) as [[| |b|z|s|l|ps]|];
      try (destruct (truthy _); [discriminate|]);
      try (destruct (inherited _); [discriminate|]);
      apply Ok_inj in H; subst index'; eexists; (split; [|reflexivity]);
      try discriminate.
    now destruct l. }
  destruct Hs as (l & Hl & ->). apply set_prop_entries; [|assumption].
  right. right. split; [apply prefix_app|]. now exists l.
Qed.

Lemma indexTokens_entries (i : string) (tokens : list value)
    (index index' : list (string * value)) :
  indexTokens i tokens index = Ok index' ->
  Forall entry_ok index ->
  Forall entry_ok index' /\ Forall (fun t => exists s, t = VStr s) tokens.
Proof.
  revert index. induction tokens as [|t tokens IH]; intros index H Hall.
  - apply Ok_inj in H. subst. now split.
  - cbn [indexTokens] in H.
    destruct t as [| |b|z|s|l|ps]; try discriminate. cbn [toLowerCase_method bind] in H.
    destruct (push_to ("token:" ++ Str.toLowerCase s) (VStr i) index)
      as [index1| | |] eqn:E; try discriminate.
    cbn [bind] in H.
    destruct (IH index1 H (push_token_entries _ _ _ _ E Hall)) as [H1 H2].
    split; [exact H1|]. constructor; eauto.
Qed.

Lemma indexDoc_entries (d : ExtractedDocumentation)
    (index index' : list (string * value)) :
  indexDoc index d = Ok index' ->
  Forall entry_ok index ->
  Forall entry_ok index' /\ string_tokens d.
Proof.
  unfold indexDoc. intros H Hall.
  destruct (to_string (fullPath d)) as [p| | |]; try discriminate.
  cbn [bind] in H. apply (indexTokens_entries _ _ _ _ H).
  apply set_prop_entries;
    [right; left; split; [apply prefix_app | now eexists]|].
  apply set_prop_entries;
    [left; split; [apply prefix_app | now eexists] | assumption].
Qed.

Lemma indexDocs_entries (docs : list ExtractedDocumentation)
    (index index' : list (string * value)) :
  indexDocs docs index = Ok index' ->
  Forall entry_ok index ->
  Forall entry_ok index' /\ Forall string_tokens docs.
Proof.
  revert index. induction docs as [|d docs IH]; intros index H Hall.
  - apply Ok_inj in H. subst. now split.
  - cbn [indexDocs] in H.
    destruct (indexDoc index d) as [index1| | |] eqn:E; try discriminate.
    cbn [bind] in H. destruct (indexDoc_entries _ _ _ E Hall) as [H1 H2].
    destruct (IH index1 H H1) as [H3 H4]. split; [exact H3|].
    now constructor.
Qed.

(** X25: the three name spaces of the search index do not mix: every key
    starts with id:, path: or token:, an id: key holds a summary object, a
    path: key holds an id, and a token: key holds a non-empty list. *)
Theorem index_entries_well_formed (docs : list ExtractedDocumentation)
    (index : list (string * value)) :
  buildSearchIndex docs = Ok index -> Forall entry_ok index.
Proof.
  intros H. now apply (indexDocs_entries docs [] index H).
Qed.

Lemma index_entries_well_formed_witness :
  exists index,
    buildSearchIndex sample_records = Ok index /\ Forall entry_ok index.
Proof.
  destruct (buildSearchIndex sample_records) as [index| | |] eqn:E;
    try (vm_compute in E; discriminate).
  exists index. split; [reflexivity|].
  exact (index_entries_well_formed sample_records index E).
Defined.

(** X26: buildSearchIndex returns only when every search token of every
    record is a string: a name or kind that survives the token filter
    without being one (a non-empty array, say) makes it throw. *)
Theorem index_needs_string_tokens (docs : list ExtractedDocumentation)
    (index : list (string * value)) :
  buildSearchIndex docs = Ok index -> Forall string_tokens docs.
Proof.
  intros H. now apply (indexDocs_entries docs [] index H).
Qed.

Lemma index_needs_string_tokens_witness :
  exists index,
    buildSearchIndex sample_records = Ok index
    /\ Forall string_tokens sample_records.
Proof.
  destruct (buildSearchIndex sample_records) as [index| | |] eqn:E;
    try (vm_compute in E; discriminate).
  exists index. split; [reflexivity|].
  exact (index_needs_string_tokens sample_records index E).
Defined.

End IndexFacts.

(* ================================================================== *)
(** * cli.ts: the command line *)
(* ================================================================== *)

Module CliFacts.
Import Cli.

Lemma flagged_nil (o : options) : flagged o [] = o.
Proof.
  destruct o as [i out r p]. unfold flagged. cbn.
  now rewrite orb_false_r, andb_true_r.
Qed.

Lemma flagged_app (o : options) (l1 l2 : list string) :
  flagged (flagged o l1) l2 = flagged o (l1 ++ l2).
Proof.
  unfold flagged. cbn [inputPath outputPath includeRawJSON pretty].
  rewrite !existsb_app, negb_orb, orb_assoc, andb_assoc. reflexivity.
Qed.

(** The plain arguments ahead of the others only set flags. *)
Lemma parseOptions_plain_prefix (pre rest : list string) (o : options) :
  forallb plain pre = true ->
  parseOptions (pre ++ rest) o = parseOptions rest (flagged o pre).
Proof.
  revert o. induction pre as [|a pre IH]; intros o H.
  - now rewrite flagged_nil.
  - cbn [forallb] in H. apply andb_true_iff in H. destruct H as [Ha H].
    unfold plain in Ha. apply negb_true_iff, orb_false_iff in Ha.
    destruct Ha as [Ho Hh]. cbn [app parseOptions]. rewrite Ho, Hh.
    destruct (a =? "--raw") eqn:Er; [|destruct (a =? "--compact") eqn:Ec];
      rewrite (IH _ H); f_equal; unfold flagged;
      cbn [inputPath outputPath includeRawJSON pretty existsb];
      rewrite ?Er, ?Ec; cbn [orb andb negb];
      rewrite ?orb_true_r, ?andb_false_r; try reflexivity.
    apply String.eqb_eq in Er. subst a. reflexivity.
Qed.

(** X27: arguments other than -o, --output, -h and --help only set flags:
    --raw switches the raw JSON on and --compact switches pretty printing
    off, wherever and however often they occur, and every other argument is
    ignored. *)
Theorem plain_arguments_set_flags (rest : list string) (o : options) :
  forallb plain rest = true ->
  parseOptions rest o = Run (flagged o rest).
Proof.
  intros H. rewrite <- (app_nil_r rest) at 1.
  now rewrite (parseOptions_plain_prefix rest [] o H).
Qed.

Lemma plain_arguments_set_flags_witness :
  parseOptions ["--compact"; "docs"; "--raw"; "--compact"]
    (mkOptions "in.json" (Some "./extracted-docs") false true)
  = Run (mkOptions "in.json" (Some "./extracted-docs") true false).
Proof. apply plain_arguments_set_flags. reflexivity. Defined.

(** X28: -o and --output take the argument that follows as the output path,
    whatever it is, and that argument is not read as an option; when
    nothing follows, the output path is left undefined instead of keeping
    its default. *)
Theorem output_takes_next_argument (pre post : list string) (flag v : string)
    (o : options) :
  forallb plain pre = true -> forallb plain post = true ->
  is_output flag = true ->
  parseOptions (pre ++ flag :: v :: post) o
  = Run (with_output (Some v) (flagged o (pre ++ post)))
  /\ parseOptions (pre ++ [flag]) o = Run (with_output None (flagged o pre)).
Proof.
  intros Hpre Hpost Hf. rewrite !parseOptions_plain_prefix by assumption.
  cbn [parseOptions]. rewrite Hf. split; [|reflexivity].
  rewrite <- (app_nil_r post) at 1.
  rewrite (parseOptions_plain_prefix post [] _ Hpost).
  cbn [parseOptions]. f_equal. rewrite <- flagged_app. reflexivity.
Qed.

Lemma output_takes_next_argument_witness :
  parseOptions (["--raw"] ++ "-o" :: "--help" :: ["--compact"])
    (mkOptions "in.json" (Some "./extracted-docs") false true)
  = Run (mkOptions "in.json" (Some "--help") true false)
  /\ parseOptions (["--raw"] ++ ["-o"])
       (mkOptions "in.json" (Some "./extracted-docs") false true)
     = Run (mkOptions "in.json" None true true).
Proof.
  apply (output_takes_next_argument ["--raw"] ["--compact"] "-o" "--help");
    reflexivity.
Defined.

Lemma parseOptions_inputPath (n : nat) :
  forall (args : list string) (o o' : options),
    List.length args <= n ->
    parseOptions args o = Run o' -> inputPath o' = inputPath o.
Proof.
  induction n as [|n IH]; intros args o o' Hn H.
  - destruct args; [|cbn in Hn; lia]. now injection H as <-.
  - destruct args as [|a rest]; [now injection H as <-|].
    cbn [length] in Hn. cbn [parseOptions] in H.
    destruct (is_output a).
    + destruct rest as [|v rest']; [now injection H as <-|].
      cbn [length] in Hn. apply IH in H; [exact H | lia].
    + destruct (a =? "--raw"); [apply IH in H; [exact H | lia]|].
      destruct (a =? "--compact"); [apply IH in H; [exact H | lia]|].
      destruct (is_help a); [discriminate|].
      apply IH in H; [exact H | lia].
Qed.

(** X29: the options that parseArgs returns always name an input file that
    exists, and it is the first argument: without arguments or with a
    missing file no options are returned. *)
Theorem parsed_input_exists (existsSync : string -> bool) (args : list string)
    (o : options) :
  parseArgs existsSync args = Run o ->
  hd_error args = Some (inputPath o) /\ existsSync (inputPath o) = true.
Proof.
  unfold parseArgs. destruct args as [|first rest]; [discriminate|].
  destruct (is_help first); [discriminate|].
  destruct (existsSync first) eqn:E; [|discriminate]. cbn [negb].
  intros H. apply (parseOptions_inputPath (List.length rest)) in H;
    [|apply Nat.le_refl].
  cbn [inputPath] in H. rewrite H. now split.
Qed.

Lemma parsed_input_exists_witness :
  parseArgs (only "docs.json") ["docs.json"; "--raw"]
  = Run (mkOptions "docs.json" (Some "./extracted-docs") true true)
  /\ hd_error ["docs.json"; "--raw"] = Some "docs.json"
  /\ only "docs.json" "docs.json" = true.
Proof.
  split; [reflexivity|].
  exact (parsed_input_exists (only "docs.json") ["docs.json"; "--raw"]
           (mkOptions "docs.json" (Some "./extracted-docs") true true)
           eq_refl).
Defined.

End CliFacts.
